(** * Zone Domains / Zone Realms emulation handler (file_dhsmr.c)

    A shallow embedding of the zoned-storage state engine of
    [src/file_dhsmr.c] and the properties of its specification.

    Conventions of the embedding:
    - C unsigned integers are [Z] values kept in range, their wrap-around
      is written out with [wrap32] / [wrap64];
    - the zone array, the realm array and the domain array are lists,
      addressed with stdpp's lookup and updated in place with insert;
    - an access outside of an array, which is undefined behaviour in C,
      makes the embedded function return [Oob]; a list walk that does not
      end within the given fuel returns [Fuel];
    - the backing file is a byte store addressed by offset. *)

From Stdlib Require Import ZArith Lia Bool Floats.
From stdpp Require Import base numbers functions list.

Open Scope Z_scope.

(** ** Machine integers *)

Definition wrap8 (x : Z) : Z := x mod 2 ^ 8.
Definition wrap32 (x : Z) : Z := x mod 2 ^ 32.
Definition wrap64 (x : Z) : Z := x mod 2 ^ 64.

Definition UINT_MAX : Z := 2 ^ 32 - 1.
Definition ULLONG_MAX : Z := 2 ^ 64 - 1.

(** [(int)x] of an [unsigned int] (two's complement). *)
Definition to_int32 (x : Z) : Z :=
  let y := wrap32 x in if y <? 2 ^ 31 then y else y - 2 ^ 32.

Lemma wrap64_small x : 0 <= x < 2 ^ 64 -> wrap64 x = x.
Proof. intros H. unfold wrap64. now apply Z.mod_small. Qed.

Lemma wrap32_small x : 0 <= x < 2 ^ 32 -> wrap32 x = x.
Proof. intros H. unfold wrap32. now apply Z.mod_small. Qed.

Lemma wrap64_range x : 0 <= wrap64 x < 2 ^ 64.
Proof. unfold wrap64. apply Z.mod_pos_bound. lia. Qed.

Lemma wrap32_range x : 0 <= wrap32 x < 2 ^ 32.
Proof. unfold wrap32. apply Z.mod_pos_bound. lia. Qed.

(** ** Results of embedded functions *)

Inductive res (A : Type) : Type :=
| Ok (a : A)
| Oob
| Fuel.
Arguments Ok {A} a.
Arguments Oob {A}.
Arguments Fuel {A}.

#[global] Instance res_ret : MRet res := fun A a => Ok a.
#[global] Instance res_bind : MBind res := fun A B f m =>
  match m with
  | Ok a => f a
  | Oob => Oob
  | Fuel => Fuel
  end.

(** ** Metadata layout (LP64 sizes of the structures of the source)

    [struct zbc_zone]: 3 x u64, 2 x u32, 4 x u8, 36 reserved bytes.
    [struct zbc_realm_item]: u64, 2 x u32.
    [struct zbc_zone_realm]: u32, 4 x u8, 4 realm items.
    [struct zbc_zone_domain]: 2 x u64, u32, 2 x u8, 10 reserved bytes.
    [struct zbc_zone_list]: 4 x u32.
    [struct zbc_meta]: see the field list of the source; [cfg_str] has
    PATH_MAX = 4096 bytes. *)

Definition ZBC_NR_ZONE_TYPES : Z := 4.
Definition ZBC_MAX_DOMAINS : Z := 4.
Definition PATH_MAX : Z := 4096.

Definition sizeof_zbc_zone : Z := 3 * 8 + 2 * 4 + 4 * 1 + 36.
Definition sizeof_zbc_realm_item : Z := 8 + 2 * 4.
Definition sizeof_zbc_zone_realm : Z :=
  4 + 4 * 1 + ZBC_NR_ZONE_TYPES * sizeof_zbc_realm_item.
Definition sizeof_zbc_zone_domain : Z := 2 * 8 + 4 + 2 * 1 + 10.
Definition sizeof_zbc_zone_list : Z := 4 * 4.
Definition sizeof_zbc_meta : Z :=
  4 + 4 + 8 + 8 + 8 + 8 + 4 + 4 + 8 + 8 + 4 + 4
  + ZBC_MAX_DOMAINS * sizeof_zbc_zone_domain
  + 9 * 4 + 4 * sizeof_zbc_zone_list
  + 4 (* alignment of pad[] *) + 10 * 8 + PATH_MAX.

Lemma sizeof_values :
  sizeof_zbc_meta = 4480 /\ sizeof_zbc_zone_realm = 72 /\ sizeof_zbc_zone = 72.
Proof. repeat split; reflexivity. Qed.

Ltac sizeof_norm :=
  change sizeof_zbc_meta with 4480 in *;
  change sizeof_zbc_zone_realm with 72 in *;
  change sizeof_zbc_zone with 72 in *.

(** [zbc_meta_size], with the host page size [sysconf(_SC_PAGESIZE)] as a
    parameter.  All the arithmetic is in [size_t]. *)
Definition zbc_meta_size (pagesize nr_realms nr_zones : Z) : Z :=
  let pg_size := wrap64 (pagesize - 1) in
  let meta_size :=
    wrap64 (wrap64 (sizeof_zbc_meta + wrap64 (nr_realms * sizeof_zbc_zone_realm))
            + wrap64 (nr_zones * sizeof_zbc_zone)) in
  Z.land (wrap64 (wrap64 (meta_size + pg_size) - 1))
         (wrap64 (Z.lnot (wrap64 (pg_size - 1)))).

(** The raw total of the three parts of the metadata. *)
Definition meta_raw_size (nr_realms nr_zones : Z) : Z :=
  sizeof_zbc_meta + nr_realms * sizeof_zbc_zone_realm
  + nr_zones * sizeof_zbc_zone.

(** Rounding up to a multiple of [p]. *)
Definition round_up (p x : Z) : Z := (x + p - 1) / p * p.

(** *** Proof of the rounding *)

Lemma land_wrap64_lnot x y :
  0 <= x < 2 ^ 64 -> Z.land x (wrap64 (Z.lnot y)) = Z.ldiff x y.
Proof.
  intros Hx. unfold wrap64.
  rewrite <- (Z.land_ones (Z.lnot y) 64) by lia.
  rewrite Z.land_assoc, (Z.land_comm x (Z.lnot y)), <- Z.land_assoc.
  rewrite (Z.land_ones x 64) by lia.
  rewrite (Z.mod_small x) by lia.
  rewrite Z.land_comm. apply Z.bits_inj'. intros n Hn.
  rewrite Z.land_spec, Z.ldiff_spec, Z.lnot_spec by lia. reflexivity.
Qed.

Lemma ldiff_even_mask x k :
  1 <= k -> 0 <= x -> Z.even x = true ->
  Z.ldiff x (2 ^ k - 2) = x / 2 ^ k * 2 ^ k.
Proof.
  intros Hk Hx Hev.
  assert (Hm : Z.ldiff x (2 ^ k - 2) = Z.ldiff x (Z.ones k)).
  { apply Z.bits_inj'. intros n Hn.
    rewrite !Z.ldiff_spec. destruct (Z.eq_dec n 0) as [->|Hn0].
    - rewrite Z.bit0_odd, <- Z.negb_even, Hev. reflexivity.
    - f_equal. f_equal.
      replace (2 ^ k - 2) with (Z.shiftl (Z.ones (k - 1)) 1).
      + rewrite Z.shiftl_spec by lia.
        destruct (Z_lt_dec n k).
        * rewrite !Z.ones_spec_low by lia. reflexivity.
        * rewrite !Z.ones_spec_high by lia. reflexivity.
      + rewrite Z.shiftl_mul_pow2, Z.ones_equiv by lia.
        replace k with (Z.succ (k - 1)) at 2 by lia.
        rewrite Z.pow_succ_r by lia. lia. }
  rewrite Hm, Z.ldiff_ones_r by lia.
  rewrite Z.shiftr_div_pow2, Z.shiftl_mul_pow2 by lia. reflexivity.
Qed.

Lemma round_up_even p x :
  0 < p -> Z.even p = true -> Z.even x = true ->
  (x + p - 2) / p * p = round_up p x.
Proof.
  intros Hp Hpe Hxe. unfold round_up. f_equal.
  apply Z.even_spec in Hpe. apply Z.even_spec in Hxe.
  destruct Hpe as [p' ->]. destruct Hxe as [x' ->].
  assert (H2 : (2 * x' + 2 * p' - 2) = 2 * (x' + p' - 1)) by lia.
  assert (H1 : (2 * x' + 2 * p' - 1) = 1 + 2 * (x' + p' - 1)) by lia.
  rewrite H2, H1.
  rewrite Z.div_mul_cancel_l by lia.
  apply Z.div_unique with (r := 1 + 2 * ((x' + p' - 1) mod p')).
  - left. pose proof (Z.mod_pos_bound (x' + p' - 1) p'). lia.
  - pose proof (Z.div_mod (x' + p' - 1) p'). lia.
Qed.

Lemma meta_raw_size_even nr_realms nr_zones :
  Z.even (meta_raw_size nr_realms nr_zones) = true.
Proof.
  apply Z.even_spec.
  exists (2240 + 36 * nr_realms + 36 * nr_zones).
  unfold meta_raw_size. sizeof_norm. lia.
Qed.

(** C8: for all realm and zone counts (C [unsigned int]) and every page
    size that is a power of two (at least 2, at most 2^32), the size
    computed by [zbc_meta_size] is the raw total of header, realm
    descriptors and zone descriptors rounded up to the next multiple of
    the page size; it is a multiple of the page size and not smaller
    than the raw total. *)
Theorem zbc_meta_size_rounds_up (k nr_realms nr_zones : Z) :
  1 <= k <= 32 ->
  0 <= nr_realms < 2 ^ 32 ->
  0 <= nr_zones < 2 ^ 32 ->
  let raw := meta_raw_size nr_realms nr_zones in
  let sz := zbc_meta_size (2 ^ k) nr_realms nr_zones in
  sz = round_up (2 ^ k) raw /\
  sz mod 2 ^ k = 0 /\
  raw <= sz < raw + 2 ^ k.
Proof.
  intros Hk Hr Hz raw sz.
  assert (Hp : 2 <= 2 ^ k <= 2 ^ 32).
  { split.
    - change 2 with (2 ^ 1) at 1. apply Z.pow_le_mono_r; lia.
    - apply Z.pow_le_mono_r; lia. }
  assert (Hraw : 0 <= raw < 2 ^ 40).
  { unfold raw, meta_raw_size. sizeof_norm. lia. }
  assert (Hsz : sz = round_up (2 ^ k) raw).
  { unfold sz, zbc_meta_size.
    rewrite (wrap64_small (2 ^ k - 1)) by lia.
    rewrite (wrap64_small (nr_realms * _)) by (sizeof_norm; lia).
    rewrite (wrap64_small (nr_zones * _)) by (sizeof_norm; lia).
    rewrite (wrap64_small (sizeof_zbc_meta + _)) by (sizeof_norm; lia).
    fold (meta_raw_size nr_realms nr_zones). fold raw.
    rewrite (wrap64_small raw) by lia.
    rewrite (wrap64_small (raw + _)) by lia.
    rewrite (wrap64_small (raw + _ - 1)) by lia.
    rewrite (wrap64_small (2 ^ k - 1 - 1)) by lia.
    rewrite land_wrap64_lnot by lia.
    replace (2 ^ k - 1 - 1) with (2 ^ k - 2) by lia.
    pose proof (meta_raw_size_even nr_realms nr_zones) as Hev. fold raw in Hev.
    assert (Hpe : Z.even (2 ^ k) = true).
    { replace k with (Z.succ (k - 1)) by lia.
      rewrite Z.pow_succ_r by lia. rewrite Z.even_mul. reflexivity. }
    rewrite ldiff_even_mask; try lia.
    - replace (raw + (2 ^ k - 1) - 1) with (raw + 2 ^ k - 2) by lia.
      apply round_up_even; try lia; assumption.
    - replace (raw + (2 ^ k - 1) - 1) with (raw + 2 ^ k - 2) by lia.
      rewrite Z.even_sub, Z.even_add, Hev, Hpe. reflexivity. }
  split; [exact Hsz|]. rewrite Hsz. unfold round_up. split.
  - apply Z.mod_mul. lia.
  - pose proof (Z.div_mod (raw + 2 ^ k - 1) (2 ^ k)).
    pose proof (Z.mod_pos_bound (raw + 2 ^ k - 1) (2 ^ k)). lia.
Qed.

Lemma zbc_meta_size_rounds_up_witness :
  zbc_meta_size (2 ^ 12) 16 147 = round_up (2 ^ 12) (meta_raw_size 16 147) /\
  zbc_meta_size (2 ^ 12) 16 147 mod 2 ^ 12 = 0 /\
  meta_raw_size 16 147 <= zbc_meta_size (2 ^ 12) 16 147
    < meta_raw_size 16 147 + 2 ^ 12.
Proof. apply (zbc_meta_size_rounds_up 12 16 147); lia. Defined.

(** ** Data model *)

(** [enum zbc_zone_type]. *)
Inductive zbc_zone_type : Type :=
| ZBC_ZONE_TYPE_CONVENTIONAL
| ZBC_ZONE_TYPE_SEQWRITE_REQ
| ZBC_ZONE_TYPE_SEQWRITE_PREF
| ZBC_ZONE_TYPE_SEQ_OR_BEF_REQ
| ZBC_ZONE_TYPE_GAP.

Definition zone_type_code (t : zbc_zone_type) : Z :=
  match t with
  | ZBC_ZONE_TYPE_CONVENTIONAL => 1
  | ZBC_ZONE_TYPE_SEQWRITE_REQ => 2
  | ZBC_ZONE_TYPE_SEQWRITE_PREF => 3
  | ZBC_ZONE_TYPE_SEQ_OR_BEF_REQ => 4
  | ZBC_ZONE_TYPE_GAP => 5
  end.

(** [enum zbc_zone_cond]. *)
Inductive zbc_zone_cond : Type :=
| ZBC_ZONE_COND_NOT_WP
| ZBC_ZONE_COND_EMPTY
| ZBC_ZONE_COND_IMP_OPEN
| ZBC_ZONE_COND_EXP_OPEN
| ZBC_ZONE_COND_CLOSED
| ZBC_ZONE_COND_INACTIVE
| ZBC_ZONE_COND_READONLY
| ZBC_ZONE_COND_FULL
| ZBC_ZONE_COND_OFFLINE.

Definition zone_cond_code (c : zbc_zone_cond) : Z :=
  match c with
  | ZBC_ZONE_COND_NOT_WP => 0
  | ZBC_ZONE_COND_EMPTY => 1
  | ZBC_ZONE_COND_IMP_OPEN => 2
  | ZBC_ZONE_COND_EXP_OPEN => 3
  | ZBC_ZONE_COND_CLOSED => 4
  | ZBC_ZONE_COND_INACTIVE => 5
  | ZBC_ZONE_COND_READONLY => 13
  | ZBC_ZONE_COND_FULL => 14
  | ZBC_ZONE_COND_OFFLINE => 15
  end.

#[global] Instance zbc_zone_type_eq_dec : EqDecision zbc_zone_type.
Proof. solve_decision. Defined.
#[global] Instance zbc_zone_cond_eq_dec : EqDecision zbc_zone_cond.
Proof. solve_decision. Defined.

(** The invalid write pointer and the list terminator. *)
Definition ZBC_NO_WP : Z := ULLONG_MAX.
Definition ZBC_LIST_NIL : Z := UINT_MAX.

(** [struct zbc_zone]. *)
Record zbc_zone : Type := mk_zone {
  z_start : Z;
  z_len : Z;
  z_wp : Z;
  z_next : Z;
  z_prev : Z;
  z_type : zbc_zone_type;
  z_cond : zbc_zone_cond;
  z_non_seq : bool;
  z_reset : bool;
}.

Definition zone_set_wp (wp : Z) (z : zbc_zone) : zbc_zone :=
  mk_zone (z_start z) (z_len z) wp (z_next z) (z_prev z) (z_type z)
          (z_cond z) (z_non_seq z) (z_reset z).
Definition zone_set_next (n : Z) (z : zbc_zone) : zbc_zone :=
  mk_zone (z_start z) (z_len z) (z_wp z) n (z_prev z) (z_type z)
          (z_cond z) (z_non_seq z) (z_reset z).
Definition zone_set_prev (p : Z) (z : zbc_zone) : zbc_zone :=
  mk_zone (z_start z) (z_len z) (z_wp z) (z_next z) p (z_type z)
          (z_cond z) (z_non_seq z) (z_reset z).
Definition zone_set_type (t : zbc_zone_type) (z : zbc_zone) : zbc_zone :=
  mk_zone (z_start z) (z_len z) (z_wp z) (z_next z) (z_prev z) t
          (z_cond z) (z_non_seq z) (z_reset z).
Definition zone_set_cond (c : zbc_zone_cond) (z : zbc_zone) : zbc_zone :=
  mk_zone (z_start z) (z_len z) (z_wp z) (z_next z) (z_prev z) (z_type z)
          c (z_non_seq z) (z_reset z).
Definition zone_clear_attrs (z : zbc_zone) : zbc_zone :=
  mk_zone (z_start z) (z_len z) (z_wp z) (z_next z) (z_prev z) (z_type z)
          (z_cond z) false false.
Definition zone_clear_non_seq (z : zbc_zone) : zbc_zone :=
  mk_zone (z_start z) (z_len z) (z_wp z) (z_next z) (z_prev z) (z_type z)
          (z_cond z) false (z_reset z).

(** Zone type tests. *)
Definition zbc_zone_conv (z : zbc_zone) : bool :=
  bool_decide (z_type z = ZBC_ZONE_TYPE_CONVENTIONAL).
Definition zbc_zone_seq_req (z : zbc_zone) : bool :=
  bool_decide (z_type z = ZBC_ZONE_TYPE_SEQWRITE_REQ).
Definition zbc_zone_seq_pref (z : zbc_zone) : bool :=
  bool_decide (z_type z = ZBC_ZONE_TYPE_SEQWRITE_PREF).
Definition zbc_zone_sobr (z : zbc_zone) : bool :=
  bool_decide (z_type z = ZBC_ZONE_TYPE_SEQ_OR_BEF_REQ).
Definition zbc_zone_nseq (z : zbc_zone) : bool :=
  zbc_zone_conv z || zbc_zone_sobr z.
Definition zbc_zone_seq (z : zbc_zone) : bool := negb (zbc_zone_nseq z).
Definition zbc_zone_gap (z : zbc_zone) : bool :=
  bool_decide (z_type z = ZBC_ZONE_TYPE_GAP).

(** Zone condition tests. *)
Definition zbc_zone_not_wp (z : zbc_zone) : bool :=
  bool_decide (z_cond z = ZBC_ZONE_COND_NOT_WP).
Definition zbc_zone_empty (z : zbc_zone) : bool :=
  bool_decide (z_cond z = ZBC_ZONE_COND_EMPTY).
Definition zbc_zone_imp_open (z : zbc_zone) : bool :=
  bool_decide (z_cond z = ZBC_ZONE_COND_IMP_OPEN).
Definition zbc_zone_exp_open (z : zbc_zone) : bool :=
  bool_decide (z_cond z = ZBC_ZONE_COND_EXP_OPEN).
Definition zbc_zone_is_open (z : zbc_zone) : bool :=
  zbc_zone_imp_open z || zbc_zone_exp_open z.
Definition zbc_zone_closed (z : zbc_zone) : bool :=
  bool_decide (z_cond z = ZBC_ZONE_COND_CLOSED).
Definition zbc_zone_inactive (z : zbc_zone) : bool :=
  bool_decide (z_cond z = ZBC_ZONE_COND_INACTIVE).
Definition zbc_zone_rdonly (z : zbc_zone) : bool :=
  bool_decide (z_cond z = ZBC_ZONE_COND_READONLY).
Definition zbc_zone_full (z : zbc_zone) : bool :=
  bool_decide (z_cond z = ZBC_ZONE_COND_FULL).
Definition zbc_zone_offline (z : zbc_zone) : bool :=
  bool_decide (z_cond z = ZBC_ZONE_COND_OFFLINE).
Definition zbc_zone_rwp (z : zbc_zone) : bool := z_reset z.
Definition zbc_zone_non_seq (z : zbc_zone) : bool := z_non_seq z.

(** [struct zbc_zone_domain]; [ZBC_DFLG_SMR] is bit 0 of the flags. *)
Record zbc_zone_domain : Type := mk_domain {
  d_start_lba : Z;
  d_end_lba : Z;
  d_nr_zones : Z;
  d_type : zbc_zone_type;
  d_flags : Z;
}.

Definition ZBC_DFLG_SMR : Z := 1.
Definition zbc_smr_domain (d : zbc_zone_domain) : bool :=
  negb (Z.land (d_flags d) ZBC_DFLG_SMR =? 0).
Definition zbc_cmr_domain (d : zbc_zone_domain) : bool :=
  negb (zbc_smr_domain d).

(** [struct zbc_realm_item] and [struct zbc_zone_realm].  The realm type
    takes the values of the four non-gap zone types; [ri] is indexed by
    the type code minus one. *)
Record zbc_realm_item : Type := mk_realm_item {
  ri_start_lba : Z;
  ri_length : Z;
  ri_start_zone : Z;
}.

Record zbc_zone_realm : Type := mk_realm {
  r_number : Z;
  r_type : zbc_zone_type;
  r_flags : Z;
  r_restr : Z;
  r_ri : list zbc_realm_item;
}.

Definition realm_set_type (t : zbc_zone_type) (r : zbc_zone_realm) :=
  mk_realm (r_number r) t (r_flags r) (r_restr r) (r_ri r).

Definition zbc_realm_nowp (r : zbc_zone_realm) : bool :=
  bool_decide (r_type r = ZBC_ZONE_TYPE_CONVENTIONAL).
Definition zbc_realm_sobr (r : zbc_zone_realm) : bool :=
  bool_decide (r_type r = ZBC_ZONE_TYPE_SEQ_OR_BEF_REQ).
Definition zbc_realm_seq_r (r : zbc_zone_realm) : bool :=
  bool_decide (r_type r = ZBC_ZONE_TYPE_SEQWRITE_REQ).
Definition zbc_realm_seq_p (r : zbc_zone_realm) : bool :=
  bool_decide (r_type r = ZBC_ZONE_TYPE_SEQWRITE_PREF).
Definition zbc_realm_seq (r : zbc_zone_realm) : bool :=
  zbc_realm_seq_r r || zbc_realm_seq_p r.

Definition zbc_act_type_nowp (t : zbc_zone_type) : bool :=
  bool_decide (t = ZBC_ZONE_TYPE_CONVENTIONAL).
Definition zbc_act_type_sobr (t : zbc_zone_type) : bool :=
  bool_decide (t = ZBC_ZONE_TYPE_SEQ_OR_BEF_REQ).
Definition zbc_act_type_seq_r (t : zbc_zone_type) : bool :=
  bool_decide (t = ZBC_ZONE_TYPE_SEQWRITE_REQ).
Definition zbc_act_type_seq_p (t : zbc_zone_type) : bool :=
  bool_decide (t = ZBC_ZONE_TYPE_SEQWRITE_PREF).

(** [struct zbc_zone_list]. *)
Record zbc_zone_list : Type := mk_zone_list {
  zl_head : Z;
  zl_tail : Z;
  zl_size : Z;
}.

(** The four zone lists of the metadata. *)
Inductive zone_list_id : Type :=
| imp_open_zones
| exp_open_zones
| closed_zones
| seq_active_zones.

#[global] Instance zone_list_id_eq_dec : EqDecision zone_list_id.
Proof. solve_decision. Defined.

(** [enum zbc_device_type]. *)
Inductive zbc_device_type : Type :=
| ZBC_MT_UNKNOWN
| ZBC_MT_NON_ZONED
| ZBC_MT_HM_ZONED
| ZBC_MT_HA_ZONED
| ZBC_MT_ZONE_DOM.

Definition zbc_mt_nz_t (t : zbc_device_type) : bool :=
  match t with ZBC_MT_NON_ZONED => true | _ => false end.
Definition zbc_mt_zoned_t (t : zbc_device_type) : bool :=
  match t with
  | ZBC_MT_HM_ZONED | ZBC_MT_HA_ZONED | ZBC_MT_ZONE_DOM => true
  | _ => false
  end.
Definition zbc_mt_zd_t (t : zbc_device_type) : bool :=
  match t with ZBC_MT_ZONE_DOM => true | _ => false end.

(** Geometry and configuration part of [struct zbc_dev]: the fields that
    are set when the device is formatted or loaded and that none of the
    command handlers embedded here writes. *)
Record zbc_dev_geom : Type := mk_geom {
  dev_type : zbc_device_type;
  meta_size : Z;
  lba_log2 : Z;
  zone_size : Z;
  zone_log2 : Z;
  nr_zones : Z;
  nr_open_zones : Z;
  domains : list zbc_zone_domain;
  nr_domains : Z;
  zone_type_to_dom : list Z;
  nr_realms : Z;
  nr_cmr_realm_zones : Z;
  nr_smr_realm_zones : Z;
  wp_check : bool;
  realms_feat_set : bool;
  logical_capacity : Z;
  cmr_nr_zones_to_smr : list Z;
  smr_nr_zones_to_cmr : list Z;
}.

(** The statistics block of [struct zbc_dev]. *)
Record zbc_dev_stats : Type := mk_stats {
  max_open_zones : Z;
  max_exp_open_seq_zones : Z;
  max_imp_open_seq_zones : Z;
  min_empty_zones : Z;
  failed_exp_opens : Z;
  read_rule_fails : Z;
  write_rule_fails : Z;
}.

(** The backing file: its size and the byte at every offset. *)
Record backstore : Type := mk_bs {
  bs_size : Z;
  bs_data : Z -> Z;
}.

(** The device: geometry, the zone and realm arrays and the four list
    heads (all in the mapped metadata), the open and empty counters, the
    statistics and the backing file. *)
Record zbc_dev : Type := mk_dev {
  geom : zbc_dev_geom;
  zones : list zbc_zone;
  realms : list zbc_zone_realm;
  zl_imp_open : zbc_zone_list;
  zl_exp_open : zbc_zone_list;
  zl_closed : zbc_zone_list;
  zl_seq_active : zbc_zone_list;
  nr_imp_open : Z;
  nr_exp_open : Z;
  nr_empty_zones : Z;
  stats : zbc_dev_stats;
  bs : backstore;
}.

Definition set_zones (zs : list zbc_zone) (s : zbc_dev) : zbc_dev :=
  mk_dev (geom s) zs (realms s) (zl_imp_open s) (zl_exp_open s) (zl_closed s)
         (zl_seq_active s) (nr_imp_open s) (nr_exp_open s) (nr_empty_zones s)
         (stats s) (bs s).
Definition set_realms (rs : list zbc_zone_realm) (s : zbc_dev) : zbc_dev :=
  mk_dev (geom s) (zones s) rs (zl_imp_open s) (zl_exp_open s) (zl_closed s)
         (zl_seq_active s) (nr_imp_open s) (nr_exp_open s) (nr_empty_zones s)
         (stats s) (bs s).
Definition set_nr_imp_open (n : Z) (s : zbc_dev) : zbc_dev :=
  mk_dev (geom s) (zones s) (realms s) (zl_imp_open s) (zl_exp_open s)
         (zl_closed s) (zl_seq_active s) n (nr_exp_open s) (nr_empty_zones s)
         (stats s) (bs s).
Definition set_nr_exp_open (n : Z) (s : zbc_dev) : zbc_dev :=
  mk_dev (geom s) (zones s) (realms s) (zl_imp_open s) (zl_exp_open s)
         (zl_closed s) (zl_seq_active s) (nr_imp_open s) n (nr_empty_zones s)
         (stats s) (bs s).
Definition set_nr_empty_zones (n : Z) (s : zbc_dev) : zbc_dev :=
  mk_dev (geom s) (zones s) (realms s) (zl_imp_open s) (zl_exp_open s)
         (zl_closed s) (zl_seq_active s) (nr_imp_open s) (nr_exp_open s) n
         (stats s) (bs s).
Definition set_stats (st : zbc_dev_stats) (s : zbc_dev) : zbc_dev :=
  mk_dev (geom s) (zones s) (realms s) (zl_imp_open s) (zl_exp_open s)
         (zl_closed s) (zl_seq_active s) (nr_imp_open s) (nr_exp_open s)
         (nr_empty_zones s) st (bs s).
Definition set_bs (b : backstore) (s : zbc_dev) : zbc_dev :=
  mk_dev (geom s) (zones s) (realms s) (zl_imp_open s) (zl_exp_open s)
         (zl_closed s) (zl_seq_active s) (nr_imp_open s) (nr_exp_open s)
         (nr_empty_zones s) (stats s) b.

Definition get_list (s : zbc_dev) (L : zone_list_id) : zbc_zone_list :=
  match L with
  | imp_open_zones => zl_imp_open s
  | exp_open_zones => zl_exp_open s
  | closed_zones => zl_closed s
  | seq_active_zones => zl_seq_active s
  end.

Definition set_list (L : zone_list_id) (zl : zbc_zone_list) (s : zbc_dev)
  : zbc_dev :=
  match L with
  | imp_open_zones =>
      mk_dev (geom s) (zones s) (realms s) zl (zl_exp_open s) (zl_closed s)
             (zl_seq_active s) (nr_imp_open s) (nr_exp_open s)
             (nr_empty_zones s) (stats s) (bs s)
  | exp_open_zones =>
      mk_dev (geom s) (zones s) (realms s) (zl_imp_open s) zl (zl_closed s)
             (zl_seq_active s) (nr_imp_open s) (nr_exp_open s)
             (nr_empty_zones s) (stats s) (bs s)
  | closed_zones =>
      mk_dev (geom s) (zones s) (realms s) (zl_imp_open s) (zl_exp_open s) zl
             (zl_seq_active s) (nr_imp_open s) (nr_exp_open s)
             (nr_empty_zones s) (stats s) (bs s)
  | seq_active_zones =>
      mk_dev (geom s) (zones s) (realms s) (zl_imp_open s) (zl_exp_open s)
             (zl_closed s) zl (nr_imp_open s) (nr_exp_open s)
             (nr_empty_zones s) (stats s) (bs s)
  end.

(** Stats setters. *)
Definition set_max_open_zones (n : Z) (st : zbc_dev_stats) :=
  mk_stats n (max_exp_open_seq_zones st) (max_imp_open_seq_zones st)
           (min_empty_zones st) (failed_exp_opens st) (read_rule_fails st)
           (write_rule_fails st).
Definition set_max_exp_open_seq_zones (n : Z) (st : zbc_dev_stats) :=
  mk_stats (max_open_zones st) n (max_imp_open_seq_zones st)
           (min_empty_zones st) (failed_exp_opens st) (read_rule_fails st)
           (write_rule_fails st).
Definition set_max_imp_open_seq_zones (n : Z) (st : zbc_dev_stats) :=
  mk_stats (max_open_zones st) (max_exp_open_seq_zones st) n
           (min_empty_zones st) (failed_exp_opens st) (read_rule_fails st)
           (write_rule_fails st).
Definition set_min_empty_zones (n : Z) (st : zbc_dev_stats) :=
  mk_stats (max_open_zones st) (max_exp_open_seq_zones st)
           (max_imp_open_seq_zones st) n (failed_exp_opens st)
           (read_rule_fails st) (write_rule_fails st).
Definition set_failed_exp_opens (n : Z) (st : zbc_dev_stats) :=
  mk_stats (max_open_zones st) (max_exp_open_seq_zones st)
           (max_imp_open_seq_zones st) (min_empty_zones st) n
           (read_rule_fails st) (write_rule_fails st).
Definition set_read_rule_fails (n : Z) (st : zbc_dev_stats) :=
  mk_stats (max_open_zones st) (max_exp_open_seq_zones st)
           (max_imp_open_seq_zones st) (min_empty_zones st)
           (failed_exp_opens st) n (write_rule_fails st).
Definition set_write_rule_fails (n : Z) (st : zbc_dev_stats) :=
  mk_stats (max_open_zones st) (max_exp_open_seq_zones st)
           (max_imp_open_seq_zones st) (min_empty_zones st)
           (failed_exp_opens st) (read_rule_fails st) n.

(** ** Array access

    A zone pointer is the index of the zone in the array; the null
    pointer is [None].  Dereferencing an index outside of the array is
    [Oob]. *)

Definition zone_at (s : zbc_dev) (i : Z) : res zbc_zone :=
  if i <? 0 then Oob
  else match zones s !! Z.to_nat i with
       | Some z => Ok z
       | None => Oob
       end.

(** [zones[i] = f (zones[i])]. *)
Definition upd_zone (i : Z) (f : zbc_zone -> zbc_zone) (s : zbc_dev)
  : res zbc_dev :=
  z ← zone_at s i;
  Ok (set_zones (<[Z.to_nat i := f z]> (zones s)) s).

Definition realm_at (s : zbc_dev) (i : Z) : res zbc_zone_realm :=
  if i <? 0 then Oob
  else match realms s !! Z.to_nat i with
       | Some r => Ok r
       | None => Oob
       end.

Definition domain_at (s : zbc_dev) (i : Z) : res zbc_zone_domain :=
  if i <? 0 then Oob
  else match domains (geom s) !! Z.to_nat i with
       | Some d => Ok d
       | None => Oob
       end.

(** ** Status of a command

    [zbc_set_sense] fills the sense buffer with the sense key and the
    additional sense code and returns the check-condition status. *)
Inductive tcmu_sts : Type :=
| TCMU_STS_OK
| TCMU_STS_NOT_HANDLED
| Sense (sk : Z) (asc_ascq : Z).

Definition MEDIUM_ERROR : Z := 3.
Definition HARDWARE_ERROR : Z := 4.
Definition ILLEGAL_REQUEST : Z := 5.
Definition DATA_PROTECT : Z := 7.

Definition ASC_READ_ERROR : Z := 0x1100.
Definition ASC_WRITE_ERROR : Z := 0x0C00.
Definition ASC_LBA_OUT_OF_RANGE : Z := 0x2100.
Definition ASC_INVALID_FIELD_IN_CDB : Z := 0x2400.
Definition ASC_INTERNAL_TARGET_FAILURE : Z := 0x4400.
Definition ASC_UNALIGNED_WRITE_COMMAND : Z := 0x2104.
Definition ASC_WRITE_BOUNDARY_VIOLATION : Z := 0x2105.
Definition ASC_ATTEMPT_TO_READ_INVALID_DATA : Z := 0x2106.
Definition ASC_READ_BOUNDARY_VIOLATION : Z := 0x2107.
Definition ASC_INSUFFICIENT_ZONE_RESOURCES : Z := 0x550E.
Definition ASC_ZONE_IS_OFFLINE : Z := 0x2C0E.
Definition ASC_ZONE_IS_READ_ONLY : Z := 0x2708.
Definition ASC_ZONE_IS_INACTIVE : Z := 0x2C12.
Definition ASC_ATTEMPT_TO_ACCESS_GAP_ZONE : Z := 0x2109.

Definition zbc_set_sense (sk asc_ascq : Z) : tcmu_sts := Sense sk asc_ascq.

(** ** The zone lists (intrusive, doubly linked, by zone index) *)

Definition zbc_init_zone_list : zbc_zone_list :=
  mk_zone_list ZBC_LIST_NIL ZBC_LIST_NIL 0.

Definition zbc_zone_not_in_list (z : zbc_zone) : bool :=
  (z_prev z =? 0) && (z_next z =? 0).

(** A pointer to the first zone of a list, [None] for an empty list. *)
Definition zbc_first_zone (s : zbc_dev) (L : zone_list_id) : option Z :=
  if zl_head (get_list s L) =? ZBC_LIST_NIL then None
  else Some (zl_head (get_list s L)).

(** A pointer to the next zone of the list of [zone]. *)
Definition zbc_next_zone (s : zbc_dev) (zone : Z) : res (option Z) :=
  z ← zone_at s zone;
  Ok (if z_next z =? ZBC_LIST_NIL then None else Some (z_next z)).

Definition list_incr (L : zone_list_id) (s : zbc_dev) : zbc_dev :=
  let zl := get_list s L in
  set_list L (mk_zone_list (zl_head zl) (zl_tail zl) (wrap32 (zl_size zl + 1))) s.

Definition zbc_add_zone_head (s : zbc_dev) (L : zone_list_id) (zone : Z)
  : res zbc_dev :=
  let idx := wrap32 zone in
  let zl := get_list s L in
  s' ← (if zl_size zl =? 0 then
          let s1 := set_list L (mk_zone_list idx idx (zl_size zl)) s in
          s2 ← upd_zone zone (zone_set_prev ZBC_LIST_NIL) s1;
          upd_zone zone (zone_set_next ZBC_LIST_NIL) s2
        else
          s1 ← upd_zone (zl_head zl) (zone_set_prev idx) s;
          s2 ← upd_zone zone (zone_set_next (zl_head zl)) s1;
          s3 ← upd_zone zone (zone_set_prev ZBC_LIST_NIL) s2;
          Ok (set_list L (mk_zone_list idx (zl_tail zl) (zl_size zl)) s3));
  Ok (list_incr L s').

Definition zbc_add_zone_tail (s : zbc_dev) (L : zone_list_id) (zone : Z)
  : res zbc_dev :=
  let idx := wrap32 zone in
  let zl := get_list s L in
  s' ← (if zl_size zl =? 0 then
          let s1 := set_list L (mk_zone_list idx idx (zl_size zl)) s in
          s2 ← upd_zone zone (zone_set_prev ZBC_LIST_NIL) s1;
          upd_zone zone (zone_set_next ZBC_LIST_NIL) s2
        else
          s1 ← upd_zone (zl_tail zl) (zone_set_next idx) s;
          s2 ← upd_zone zone (zone_set_prev (zl_tail zl)) s1;
          s3 ← upd_zone zone (zone_set_next ZBC_LIST_NIL) s2;
          Ok (set_list L (mk_zone_list (zl_head zl) idx (zl_size zl)) s3));
  Ok (list_incr L s').

Definition zbc_remove_zone (s : zbc_dev) (L : zone_list_id) (zone : Z)
  : res zbc_dev :=
  let idx := wrap32 zone in
  let zl := get_list s L in
  let size' := wrap32 (zl_size zl - 1) in
  let s0 := set_list L (mk_zone_list (zl_head zl) (zl_tail zl) size') s in
  s' ← (if size' =? 0 then
          Ok (set_list L (mk_zone_list ZBC_LIST_NIL ZBC_LIST_NIL size') s0)
        else if idx =? zl_head zl then
          z ← zone_at s0 zone;
          let s1 := set_list L (mk_zone_list (z_next z) (zl_tail zl) size') s0 in
          upd_zone (z_next z) (zone_set_prev ZBC_LIST_NIL) s1
        else if idx =? zl_tail zl then
          z ← zone_at s0 zone;
          let s1 := set_list L (mk_zone_list (zl_head zl) (z_prev z) size') s0 in
          upd_zone (z_prev z) (zone_set_next ZBC_LIST_NIL) s1
        else
          z ← zone_at s0 zone;
          s1 ← upd_zone (z_next z) (zone_set_prev (z_prev z)) s0;
          z1 ← zone_at s1 zone;
          upd_zone (z_prev z1) (zone_set_next (z_next z1)) s1);
  s'' ← upd_zone zone (zone_set_next 0) s';
  upd_zone zone (zone_set_prev 0) s''.

(** Remove a zone from the list that its condition names; nothing is done
    for a zone that is in no list. *)
Definition zbc_unlink_zone (s : zbc_dev) (zone : Z) : res zbc_dev :=
  z ← zone_at s zone;
  if zbc_zone_not_in_list z then Ok s
  else match z_cond z with
       | ZBC_ZONE_COND_IMP_OPEN => zbc_remove_zone s imp_open_zones zone
       | ZBC_ZONE_COND_EXP_OPEN => zbc_remove_zone s exp_open_zones zone
       | ZBC_ZONE_COND_CLOSED => zbc_remove_zone s closed_zones zone
       | ZBC_ZONE_COND_EMPTY
       | ZBC_ZONE_COND_FULL => zbc_remove_zone s seq_active_zones zone
       | _ => Ok s
       end.

(** Set the write pointer of a zone from its condition and link the zone
    into the list of active zones where that applies. *)
Definition zbc_set_initial_wp (s : zbc_dev) (zone : Z) : res zbc_dev :=
  z ← zone_at s zone;
  match z_cond z with
  | ZBC_ZONE_COND_EMPTY =>
      s1 ← upd_zone zone (zone_set_wp (z_start z)) s;
      zbc_add_zone_tail s1 seq_active_zones zone
  | ZBC_ZONE_COND_FULL =>
      s1 ← upd_zone zone
             (zone_set_wp (if zbc_zone_seq z
                           then wrap64 (z_start z + z_len z)
                           else ZBC_NO_WP)) s;
      zbc_add_zone_tail s1 seq_active_zones zone
  | ZBC_ZONE_COND_INACTIVE
  | ZBC_ZONE_COND_NOT_WP
  | ZBC_ZONE_COND_READONLY
  | ZBC_ZONE_COND_OFFLINE => upd_zone zone (zone_set_wp ZBC_NO_WP) s
  | _ => Ok s
  end.

(** ** Zone state machine *)

Definition zbc_on_cond_change (s : zbc_dev) (zone : Z) (cond : zbc_zone_cond)
  : res zbc_dev :=
  z ← zone_at s zone;
  if zbc_zone_empty z && negb (bool_decide (cond = ZBC_ZONE_COND_EMPTY)) then
    let s1 := set_nr_empty_zones (wrap32 (nr_empty_zones s - 1)) s in
    if min_empty_zones (stats s1) >? nr_empty_zones s1
    then Ok (set_stats (set_min_empty_zones (nr_empty_zones s1) (stats s1)) s1)
    else Ok s1
  else Ok s.

(** Can [add_val] more SWR zones be opened explicitly? *)
Definition zbc_ozr_check (s : zbc_dev) (add_val : Z) : bool :=
  negb (wrap32 (nr_exp_open s + add_val) >? nr_open_zones (geom s)).

Definition __zbc_close_zone (s : zbc_dev) (zone : Z) : res zbc_dev :=
  z ← zone_at s zone;
  if zbc_zone_conv z || negb (zbc_zone_is_open z) then Ok s
  else if zbc_zone_sobr z then Ok s
  else
    let s1 :=
      if negb (zbc_zone_seq_req z) then s
      else if zbc_zone_imp_open z
           then set_nr_imp_open (wrap32 (nr_imp_open s - 1)) s
      else if zbc_zone_exp_open z
           then set_nr_exp_open (wrap32 (nr_exp_open s - 1)) s
      else s in
    s2 ← zbc_unlink_zone s1 zone;
    z2 ← zone_at s2 zone;
    if z_wp z2 =? z_start z2 then
      s3 ← upd_zone zone (zone_set_cond ZBC_ZONE_COND_EMPTY) s2;
      s4 ← zbc_add_zone_tail s3 seq_active_zones zone;
      Ok (set_nr_empty_zones (wrap32 (nr_empty_zones s4 + 1)) s4)
    else
      s3 ← upd_zone zone (zone_set_cond ZBC_ZONE_COND_CLOSED) s2;
      zbc_add_zone_head s3 closed_zones zone.

(** Fuel of a walk over a zone list: a list of a well-formed device has
    at most as many nodes as there are zones. *)
Definition walk_fuel (s : zbc_dev) : nat := S (length (zones s)).

(** The loop of [__zbc_close_imp_open_zone]: close the zones of the
    list of implicitly open zones, from its head, until the open count
    is below the limit. *)
Fixpoint close_imp_open_loop (fuel : nat) (s : zbc_dev) (zone : option Z)
  : res zbc_dev :=
  match zone with
  | None => Ok s
  | Some zi =>
      match fuel with
      | O => Fuel
      | S fuel' =>
          next ← zbc_next_zone s zi;
          s' ← __zbc_close_zone s zi;
          if wrap32 (nr_imp_open s' + nr_exp_open s') <? nr_open_zones (geom s')
          then Ok s'
          else close_imp_open_loop fuel' s' next
      end
  end.

Definition __zbc_close_imp_open_zone (s : zbc_dev) : res zbc_dev :=
  close_imp_open_loop (walk_fuel s) s (zbc_first_zone s imp_open_zones).

Definition __zbc_open_zone (s : zbc_dev) (zone : Z) (explicit : bool)
  : res zbc_dev :=
  z ← zone_at s zone;
  if zbc_zone_conv z || zbc_zone_inactive z
     || zbc_zone_offline z || zbc_zone_rdonly z then Ok s
  else if zbc_zone_exp_open z || (negb explicit && zbc_zone_imp_open z)
  then Ok s
  else
    s1 ← (if zbc_zone_seq_req z
             && (wrap32 (nr_imp_open s + nr_exp_open s)
                 >=? nr_open_zones (geom s))
          then __zbc_close_imp_open_zone s else Ok s);
    s2 ← zbc_unlink_zone s1 zone;
    s3 ← zbc_on_cond_change s2 zone ZBC_ZONE_COND_EXP_OPEN;
    z3 ← zone_at s3 zone;
    s4 ← (if explicit then
            s4 ← upd_zone zone (zone_set_cond ZBC_ZONE_COND_EXP_OPEN) s3;
            let s5 := if zbc_zone_seq_req z3
                      then set_nr_exp_open (wrap32 (nr_exp_open s4 + 1)) s4
                      else s4 in
            s6 ← zbc_add_zone_tail s5 exp_open_zones zone;
            Ok (if nr_exp_open s6 >? max_exp_open_seq_zones (stats s6)
                then set_stats (set_max_exp_open_seq_zones (nr_exp_open s6)
                                                           (stats s6)) s6
                else s6)
          else
            s4 ← upd_zone zone (zone_set_cond ZBC_ZONE_COND_IMP_OPEN) s3;
            let s5 := if zbc_zone_seq_req z3
                      then set_nr_imp_open (wrap32 (nr_imp_open s4 + 1)) s4
                      else s4 in
            s6 ← zbc_add_zone_tail s5 imp_open_zones zone;
            Ok (if nr_imp_open s6 >? max_imp_open_seq_zones (stats s6)
                then set_stats (set_max_imp_open_seq_zones (nr_imp_open s6)
                                                           (stats s6)) s6
                else s6));
    Ok (if wrap32 (nr_exp_open s4 + nr_imp_open s4) >? max_open_zones (stats s4)
        then set_stats (set_max_open_zones
                          (wrap32 (nr_exp_open s4 + nr_imp_open s4))
                          (stats s4)) s4
        else s4).

Definition __zbc_finish_zone (s : zbc_dev) (zone : Z) (empty : bool)
  : res zbc_dev :=
  z ← zone_at s zone;
  if zbc_zone_conv z || zbc_zone_inactive z
     || zbc_zone_offline z || zbc_zone_rdonly z then Ok s
  else if zbc_zone_closed z || zbc_zone_is_open z
          || (empty && zbc_zone_empty z) then
    s1 ← (if zbc_zone_is_open z then __zbc_close_zone s zone else Ok s);
    s2 ← zbc_on_cond_change s1 zone ZBC_ZONE_COND_FULL;
    s3 ← zbc_unlink_zone s2 zone;
    z3 ← zone_at s3 zone;
    s4 ← upd_zone zone
           (zone_set_wp (if zbc_zone_sobr z3 then ZBC_NO_WP
                         else wrap64 (z_start z3 + z_len z3))) s3;
    s5 ← upd_zone zone (zone_set_cond ZBC_ZONE_COND_FULL) s4;
    s6 ← zbc_add_zone_tail s5 seq_active_zones zone;
    upd_zone zone zone_clear_attrs s6
  else Ok s.

Definition __zbc_reset_wp (s : zbc_dev) (zone : Z) : res zbc_dev :=
  z ← zone_at s zone;
  s1 ← (if zbc_zone_is_open z then __zbc_close_zone s zone else Ok s);
  z1 ← zone_at s1 zone;
  s2 ← (if zbc_zone_inactive z1 || zbc_zone_offline z1 || zbc_zone_rdonly z1
        then upd_zone zone (zone_set_wp ZBC_NO_WP) s1
        else if zbc_zone_conv z1 then
          s2 ← upd_zone zone (zone_set_cond ZBC_ZONE_COND_NOT_WP) s1;
          upd_zone zone (zone_set_wp ZBC_NO_WP) s2
        else if negb (zbc_zone_empty z1) then
          s2 ← zbc_unlink_zone s1 zone;
          s3 ← upd_zone zone (zone_set_cond ZBC_ZONE_COND_EMPTY) s2;
          s4 ← upd_zone zone (zone_set_wp (z_start z1)) s3;
          s5 ← zbc_add_zone_head s4 seq_active_zones zone;
          Ok (set_nr_empty_zones (wrap32 (nr_empty_zones s5 + 1)) s5)
        else Ok s1);
  upd_zone zone zone_clear_attrs s2.

Definition __zbc_sequentialize_zone (s : zbc_dev) (zone : Z) : res zbc_dev :=
  upd_zone zone zone_clear_non_seq s.

(** ** Zone lookup *)

(** The LBA range check of all the commands; the sums are 64-bit. *)
Definition zbc_lba_out_of_range (s : zbc_dev) (lba nr_lbas : Z) : bool :=
  (lba >=? logical_capacity (geom s))
  || (wrap64 (lba + nr_lbas) >? logical_capacity (geom s))
  || (wrap64 (lba + nr_lbas) <? lba).

(** [zbc_get_zone]: the zone of an LBA, [None] for the null pointer.  The
    zone number is an [unsigned int]. *)
Definition zbc_get_zone (s : zbc_dev) (lba : Z) (lowest : bool)
  : res (option Z) :=
  let zno := wrap32 (Z.shiftr lba (zone_log2 (geom s))) in
  if zno >=? nr_zones (geom s) then Ok None
  else
    z ← zone_at s zno;
    if lowest && negb (lba =? z_start z) then Ok None
    else Ok (Some zno).

Fixpoint get_zone_domain_loop (n : nat) (s : zbc_dev) (start : Z) (i : Z)
  : res Z :=
  match n with
  | O => Ok (-1)
  | S n' =>
      d ← domain_at s i;
      if start <=? d_end_lba d then Ok i
      else get_zone_domain_loop n' s start (i + 1)
  end.

(** [zbc_get_zone_domain]: the domain ID of a zone, -1 for a gap zone. *)
Definition zbc_get_zone_domain (s : zbc_dev) (zone : Z) : res Z :=
  z ← zone_at s zone;
  if negb (zbc_zone_gap z)
  then get_zone_domain_loop (Z.to_nat (nr_domains (geom s))) s (z_start z) 0
  else Ok (-1).

(** [zbc_domain_id]: the entry of [zone_type_to_dom] for a zone type. *)
Definition zbc_domain_id (s : zbc_dev) (zt : zbc_zone_type) : res Z :=
  match zone_type_to_dom (geom s) !! Z.to_nat (zone_type_code zt - 1) with
  | Some i => Ok i
  | None => Oob
  end.

(** ** Loops over zones *)

(** [for (; count && zone <= last; zone++, count--) body(zone);] *)
Fixpoint range_loop (count : nat) (zone last : Z)
    (body : zbc_dev -> Z -> res zbc_dev) (s : zbc_dev) : res zbc_dev :=
  match count with
  | O => Ok s
  | S count' =>
      if zone <=? last then
        s' ← body s zone;
        range_loop count' (zone + 1) last body s'
      else Ok s
  end.

(** The same loop for a check that ends the command with a status. *)
Fixpoint range_check (count : nat) (zone last : Z)
    (chk : zbc_dev -> zbc_zone -> option tcmu_sts) (s : zbc_dev)
  : res (option tcmu_sts) :=
  match count with
  | O => Ok None
  | S count' =>
      if zone <=? last then
        z ← zone_at s zone;
        match chk s z with
        | Some e => Ok (Some e)
        | None => range_check count' (zone + 1) last chk s
        end
      else Ok None
  end.

(** [for (zone = first; zone != NULL; zone = next)
       { next = zbc_next_zone(zone); body(zone); }] *)
Fixpoint walk_list (fuel : nat) (body : zbc_dev -> Z -> res zbc_dev)
    (s : zbc_dev) (zone : option Z) : res zbc_dev :=
  match zone with
  | None => Ok s
  | Some zi =>
      match fuel with
      | O => Fuel
      | S fuel' =>
          next ← zbc_next_zone s zi;
          s' ← body s zi;
          walk_list fuel' body s' next
      end
  end.

(** ** Zone management commands *)

Definition check_zone_result : Type := (tcmu_sts + Z * Z)%type.

(** [zbc_get_check_zone]: either the status that ends the command, or
    the first zone and the last zone of the loops that follow. *)
Definition zbc_get_check_zone (s : zbc_dev) (lba count : Z)
  : res check_zone_result :=
  if zbc_lba_out_of_range s lba (zone_size (geom s)) then
    Ok (inl (zbc_set_sense ILLEGAL_REQUEST ASC_LBA_OUT_OF_RANGE))
  else
    zp ← zbc_get_zone s lba true;
    match zp with
    | None => Ok (inl (zbc_set_sense ILLEGAL_REQUEST ASC_INVALID_FIELD_IN_CDB))
    | Some zone =>
        z ← zone_at s zone;
        if zbc_zone_gap z then
          Ok (inl (zbc_set_sense ILLEGAL_REQUEST ASC_ATTEMPT_TO_ACCESS_GAP_ZONE))
        else if zbc_zone_conv z then
          Ok (inl (zbc_set_sense ILLEGAL_REQUEST ASC_INVALID_FIELD_IN_CDB))
        else
          let last := zone + count - 1 in
          if count <=? 1 then
            if zbc_zone_inactive z then
              Ok (inl (zbc_set_sense DATA_PROTECT ASC_ZONE_IS_INACTIVE))
            else if zbc_zone_offline z then
              Ok (inl (zbc_set_sense DATA_PROTECT ASC_ZONE_IS_OFFLINE))
            else if zbc_zone_rdonly z then
              Ok (inl (zbc_set_sense DATA_PROTECT ASC_ZONE_IS_READ_ONLY))
            else Ok (inr (zone, last))
          else
            d1 ← zbc_get_zone_domain s zone;
            d2 ← zbc_get_zone_domain s last;
            if negb (d1 =? d2) then
              Ok (inl (zbc_set_sense ILLEGAL_REQUEST ASC_INVALID_FIELD_IN_CDB))
            else
              let last := wrap32 (nr_zones (geom s) - 1) in
              e ← range_check (Z.to_nat count) zone last
                    (fun _ z =>
                       if zbc_zone_gap z then
                         Some (zbc_set_sense ILLEGAL_REQUEST
                                             ASC_ATTEMPT_TO_ACCESS_GAP_ZONE)
                       else if zbc_zone_conv z then
                         Some (zbc_set_sense ILLEGAL_REQUEST
                                             ASC_INVALID_FIELD_IN_CDB)
                       else None) s;
              match e with
              | Some err => Ok (inl err)
              | None => Ok (inr (zone, last))
              end
    end.

Definition sobr_check (_ : zbc_dev) (z : zbc_zone) : option tcmu_sts :=
  if zbc_zone_sobr z
  then Some (zbc_set_sense ILLEGAL_REQUEST ASC_INVALID_FIELD_IN_CDB)
  else None.

Definition zbc_close_zone (s : zbc_dev) (lba count : Z) (all : bool)
  : res (tcmu_sts * zbc_dev) :=
  if all then
    if negb (count =? 0) then
      Ok (zbc_set_sense ILLEGAL_REQUEST ASC_INVALID_FIELD_IN_CDB, s)
    else
      s1 ← walk_list (walk_fuel s) __zbc_close_zone s
             (zbc_first_zone s imp_open_zones);
      s2 ← walk_list (walk_fuel s1) __zbc_close_zone s1
             (zbc_first_zone s1 exp_open_zones);
      Ok (TCMU_STS_OK, s2)
  else
    r ← zbc_get_check_zone s lba count;
    match r with
    | inl err => Ok (err, s)
    | inr (zone, last) =>
        e ← range_check (Z.to_nat count) zone last sobr_check s;
        match e with
        | Some err => Ok (err, s)
        | None =>
            s' ← range_loop (Z.to_nat count) zone last __zbc_close_zone s;
            Ok (TCMU_STS_OK, s')
        end
    end.

(** The first loop of OPEN ZONE with ALL: count the closed SWR zones. *)
Fixpoint count_closed_swr (fuel : nat) (s : zbc_dev) (zone : option Z)
    (nr_closed : Z) : res Z :=
  match zone with
  | None => Ok nr_closed
  | Some zi =>
      match fuel with
      | O => Fuel
      | S fuel' =>
          z ← zone_at s zi;
          next ← zbc_next_zone s zi;
          count_closed_swr fuel' s next
            (if zbc_zone_seq_req z then wrap32 (nr_closed + 1) else nr_closed)
      end
  end.

Definition incr_failed_exp_opens (s : zbc_dev) : zbc_dev :=
  set_stats (set_failed_exp_opens (wrap64 (failed_exp_opens (stats s) + 1))
                                  (stats s)) s.

(** The check loop of OPEN ZONE over a zone range. *)
Fixpoint open_check_loop (c : nat) (z last : Z) (nr_open : Z) (s : zbc_dev)
  : res (option (tcmu_sts * zbc_dev)) :=
  match c with
  | O => Ok None
  | S c' =>
      if z <=? last then
        zn ← zone_at s z;
        if zbc_zone_sobr zn then
          Ok (Some (zbc_set_sense ILLEGAL_REQUEST ASC_INVALID_FIELD_IN_CDB, s))
        else if zbc_zone_exp_open zn || zbc_zone_full zn then
          open_check_loop c' (z + 1) last nr_open s
        else if zbc_zone_seq_req zn then
          let nr_open := wrap32 (nr_open + 1) in
          if negb (zbc_ozr_check s nr_open) then
            Ok (Some (zbc_set_sense DATA_PROTECT
                                    ASC_INSUFFICIENT_ZONE_RESOURCES,
                      incr_failed_exp_opens s))
          else open_check_loop c' (z + 1) last nr_open s
        else open_check_loop c' (z + 1) last nr_open s
      else Ok None
  end.

(** The body of the open loop of OPEN ZONE over a zone range. *)
Definition open_zone_body (s : zbc_dev) (zone : Z) : res zbc_dev :=
  z ← zone_at s zone;
  if zbc_zone_exp_open z || zbc_zone_full z then Ok s
  else
    s1 ← (if zbc_zone_imp_open z then __zbc_close_zone s zone else Ok s);
    __zbc_open_zone s1 zone true.

Definition zbc_open_zone (s : zbc_dev) (lba count : Z) (all : bool)
  : res (tcmu_sts * zbc_dev) :=
  if all then
    if negb (count =? 0) then
      Ok (zbc_set_sense ILLEGAL_REQUEST ASC_INVALID_FIELD_IN_CDB, s)
    else
      nr_closed ← count_closed_swr (walk_fuel s) s
                    (zbc_first_zone s closed_zones) 0;
      if negb (zbc_ozr_check s nr_closed) then
        Ok (zbc_set_sense DATA_PROTECT ASC_INSUFFICIENT_ZONE_RESOURCES,
            incr_failed_exp_opens s)
      else
        s1 ← walk_list (walk_fuel s)
               (fun s zone => __zbc_open_zone s zone true) s
               (zbc_first_zone s closed_zones);
        Ok (TCMU_STS_OK, s1)
  else
    r ← zbc_get_check_zone s lba count;
    match r with
    | inl err => Ok (err, incr_failed_exp_opens s)
    | inr (zone, last) =>
        e ← open_check_loop (Z.to_nat count) zone last 0 s;
        match e with
        | Some r => Ok r
        | None =>
            s' ← range_loop (Z.to_nat count) zone last open_zone_body s;
            Ok (TCMU_STS_OK, s')
        end
    end.

Definition finish_check (s : zbc_dev) (z : zbc_zone) : option tcmu_sts :=
  if zbc_zone_inactive z then
    Some (zbc_set_sense DATA_PROTECT ASC_ZONE_IS_INACTIVE)
  else if zbc_zone_offline z then
    Some (zbc_set_sense DATA_PROTECT ASC_ZONE_IS_OFFLINE)
  else if zbc_zone_rdonly z then
    Some (zbc_set_sense DATA_PROTECT ASC_ZONE_IS_READ_ONLY)
  else if zbc_zone_seq_req z && (zbc_zone_closed z || zbc_zone_empty z)
          && negb (zbc_ozr_check s 1) then
    Some (zbc_set_sense DATA_PROTECT ASC_INSUFFICIENT_ZONE_RESOURCES)
  else None.

Definition zbc_finish_zone (s : zbc_dev) (lba count : Z) (all : bool)
  : res (tcmu_sts * zbc_dev) :=
  if all then
    if negb (count =? 0) then
      Ok (zbc_set_sense ILLEGAL_REQUEST ASC_INVALID_FIELD_IN_CDB, s)
    else
      let body := fun s zone => __zbc_finish_zone s zone false in
      s1 ← walk_list (walk_fuel s) body s (zbc_first_zone s imp_open_zones);
      s2 ← walk_list (walk_fuel s1) body s1 (zbc_first_zone s1 exp_open_zones);
      s3 ← walk_list (walk_fuel s2) body s2 (zbc_first_zone s2 closed_zones);
      Ok (TCMU_STS_OK, s3)
  else
    r ← zbc_get_check_zone s lba count;
    match r with
    | inl err => Ok (err, s)
    | inr (zone, last) =>
        e ← range_check (Z.to_nat count) zone last finish_check s;
        match e with
        | Some err => Ok (err, s)
        | None =>
            s' ← range_loop (Z.to_nat count) zone last
                   (fun s zone => __zbc_finish_zone s zone true) s;
            Ok (TCMU_STS_OK, s')
        end
    end.

Definition zbc_reset_wp (s : zbc_dev) (lba count : Z) (all : bool)
  : res (tcmu_sts * zbc_dev) :=
  if all then
    if negb (count =? 0) then
      Ok (zbc_set_sense ILLEGAL_REQUEST ASC_INVALID_FIELD_IN_CDB, s)
    else
      s1 ← walk_list (walk_fuel s) __zbc_reset_wp s
             (zbc_first_zone s seq_active_zones);
      s2 ← walk_list (walk_fuel s1) __zbc_reset_wp s1
             (zbc_first_zone s1 imp_open_zones);
      s3 ← walk_list (walk_fuel s2) __zbc_reset_wp s2
             (zbc_first_zone s2 exp_open_zones);
      s4 ← walk_list (walk_fuel s3) __zbc_reset_wp s3
             (zbc_first_zone s3 closed_zones);
      Ok (TCMU_STS_OK, s4)
  else
    r ← zbc_get_check_zone s lba count;
    match r with
    | inl err => Ok (err, s)
    | inr (zone, last) =>
        s' ← range_loop (Z.to_nat count) zone last __zbc_reset_wp s;
        Ok (TCMU_STS_OK, s')
    end.

Definition seq_pref_check (_ : zbc_dev) (z : zbc_zone) : option tcmu_sts :=
  if negb (zbc_zone_seq_pref z)
  then Some (zbc_set_sense ILLEGAL_REQUEST ASC_INVALID_FIELD_IN_CDB)
  else None.

Definition zbc_sequentialize_zone (s : zbc_dev) (lba count : Z) (all : bool)
  : res (tcmu_sts * zbc_dev) :=
  if all then
    if negb (count =? 0) then
      Ok (zbc_set_sense ILLEGAL_REQUEST ASC_INVALID_FIELD_IN_CDB, s)
    else
      s1 ← walk_list (walk_fuel s) __zbc_sequentialize_zone s
             (zbc_first_zone s closed_zones);
      Ok (TCMU_STS_OK, s1)
  else
    r ← zbc_get_check_zone s lba count;
    match r with
    | inl err => Ok (err, s)
    | inr (zone, last) =>
        e ← range_check (Z.to_nat count) zone last seq_pref_check s;
        match e with
        | Some err => Ok (err, s)
        | None =>
            s' ← range_loop (Z.to_nat count) zone last
                   (fun s zone =>
                      z ← zone_at s zone;
                      if negb (zbc_zone_empty z)
                      then __zbc_sequentialize_zone s zone else Ok s) s;
            Ok (TCMU_STS_OK, s')
        end
    end.

(** ZBC OUT service actions. *)
Inductive zbc_out_sa : Type :=
| ZBC_SA_CLOSE_ZONE
| ZBC_SA_FINISH_ZONE
| ZBC_SA_OPEN_ZONE
| ZBC_SA_RESET_WP
| ZBC_SA_SEQUENTIALIZE_ZONE.

Definition zbc_out_zone (s : zbc_dev) (lba count : Z) (op : zbc_out_sa)
    (all : bool) : res (tcmu_sts * zbc_dev) :=
  let count := if negb all && (count =? 0) then wrap32 (count + 1) else count in
  match op with
  | ZBC_SA_CLOSE_ZONE => zbc_close_zone s lba count all
  | ZBC_SA_FINISH_ZONE => zbc_finish_zone s lba count all
  | ZBC_SA_OPEN_ZONE => zbc_open_zone s lba count all
  | ZBC_SA_RESET_WP => zbc_reset_wp s lba count all
  | ZBC_SA_SEQUENTIALIZE_ZONE => zbc_sequentialize_zone s lba count all
  end.

(** ** Data buffers and the backing file

    An [iovec] entry of a data-in command holds the bytes stored into
    it so far and the room left ([iov_len]); advancing [iov_base] past
    stored bytes is appending to [iov_base].  An entry of a data-out
    command holds the bytes still to be sent; advancing [iov_base]
    drops them. *)
Record iovec : Type := mk_iovec {
  iov_base : list Z;
  iov_len : Z;
}.

(** Modelled from the spec: the iovec-length aggregate of the target
    framework, [tcmu_iovec_length], the sum of the lengths of the
    entries. *)
Definition tcmu_iovec_length (iov : list iovec) : Z :=
  wrap64 (foldr (fun v acc => iov_len v + acc) 0 iov).

(** File system calls on the backing file, recorded by the handlers. *)
Inductive io_event : Type :=
| IoPread (offset count : Z)
| IoPwrite (offset : Z) (data : list Z).

(** [pread]: the bytes of the file from [offset], at most [count] and
    not past the end of the file. *)
Definition pread (b : backstore) (count offset : Z) : list Z :=
  let n := Z.max 0 (Z.min count (bs_size b - offset)) in
  map (fun k => bs_data b (offset + Z.of_nat k)) (seq 0 (Z.to_nat n)).

(** [pwrite]: store the bytes at [offset], growing the file if needed. *)
Definition pwrite (b : backstore) (data : list Z) (offset : Z) : backstore :=
  let n := Z.of_nat (length data) in
  mk_bs (Z.max (bs_size b) (offset + n))
        (fun o => if (offset <=? o) && (o <? offset + n)
                  then nth (Z.to_nat (o - offset)) data 0
                  else bs_data b o).

(** [zbc_bs_offset]: the file offset of an LBA. *)
Definition zbc_bs_offset (s : zbc_dev) (lba : Z) : res Z :=
  lba' ← (if zbc_mt_zd_t (dev_type (geom s)) then
            d0 ← domain_at s 0;
            if lba <=? d_end_lba d0 then Ok lba
            else
              d1 ← domain_at s 1;
              if lba <=? d_end_lba d1 then Ok (wrap64 (lba - d_start_lba d1))
              else
                d2 ← domain_at s 2;
                if lba <=? d_end_lba d2 then Ok (wrap64 (lba - d_start_lba d2))
                else
                  d3 ← domain_at s 3;
                  if lba <=? d_end_lba d3
                  then Ok (wrap64 (lba - d_start_lba d3))
                  else Ok lba
          else Ok lba);
  Ok (wrap64 (meta_size (geom s) + wrap64 (Z.shiftl lba' (lba_log2 (geom s))))).

(** The number of LBAs of a transfer that lie in the zone. *)
Definition zbc_get_zone_lba_count (z : zbc_zone) (start_lba nr_lbas : Z) : Z :=
  if wrap64 (start_lba + nr_lbas) >? wrap64 (z_start z + z_len z)
  then wrap64 (wrap64 (z_start z + z_len z) - start_lba)
  else nr_lbas.

(** The upper boundary of the valid data of a zone. *)
Definition zbc_get_zone_boundary (z : zbc_zone) : Z :=
  if zbc_zone_empty z || zbc_zone_gap z then z_start z
  else if zbc_zone_not_wp z || zbc_zone_full z
  then wrap64 (z_start z + z_len z)
  else z_wp z.

(** The loop of [zbc_fill_zone_iov]: zero [len] bytes of the buffers. *)
Fixpoint fill_iov_loop (len : Z) (iov : list iovec) : Z * list iovec :=
  match iov with
  | [] => (0, [])
  | v :: rest =>
      if len =? 0 then (0, iov)
      else
        let to_fill := Z.min (iov_len v) len in
        if to_fill =? 0 then
          let '(bytes, rest') := fill_iov_loop len rest in
          (bytes, v :: rest')
        else
          let v' := mk_iovec (iov_base v ++ repeat 0 (Z.to_nat to_fill))
                             (iov_len v - to_fill) in
          let '(bytes, rest') := fill_iov_loop (len - to_fill) rest in
          (to_fill + bytes, v' :: rest')
  end.

Definition zbc_fill_zone_iov (s : zbc_dev) (z : zbc_zone) (lba nr_lbas : Z)
    (iov : list iovec) : Z * list iovec :=
  let len := wrap64 (wrap64 (z_start z + z_len z) - lba) in
  let len := if len >? nr_lbas then nr_lbas else len in
  let len := wrap64 (Z.shiftl len (lba_log2 (geom s))) in
  fill_iov_loop len iov.

(** The loop of [zbc_read_zone_iov]; the result is [inl] for [-EIO]. *)
Fixpoint read_iov_loop (s : zbc_dev) (len lba : Z) (iov : list iovec)
  : res ((unit + Z) * list iovec * list io_event) :=
  match iov with
  | [] => Ok (inr 0, [], [])
  | v :: rest =>
      if len =? 0 then Ok (inr 0, iov, [])
      else
        let to_read := Z.min (iov_len v) len in
        if to_read =? 0 then
          '(r, rest', ev) ← read_iov_loop s len lba rest;
          Ok (r, v :: rest', ev)
        else
          off ← zbc_bs_offset s lba;
          let data := pread (bs s) to_read off in
          let ret := Z.of_nat (length data) in
          let v1 := mk_iovec (iov_base v ++ data) (iov_len v) in
          if negb (ret =? to_read) then
            Ok (inl tt, v1 :: rest, [IoPread off to_read])
          else
            let lba' := wrap64 (lba + Z.shiftr ret (lba_log2 (geom s))) in
            let v' := mk_iovec (iov_base v ++ data) (iov_len v - to_read) in
            '(r, rest', ev) ← read_iov_loop s (len - to_read) lba' rest;
            Ok (match r with
                | inl e => inl e
                | inr bytes => inr (to_read + bytes)
                end, v' :: rest', IoPread off to_read :: ev)
  end.

Definition zbc_read_zone_iov (s : zbc_dev) (z : zbc_zone)
    (lba nr_lbas boundary : Z) (iov : list iovec)
  : res ((unit + Z) * list iovec * list io_event) :=
  let len := wrap64 (boundary - lba) in
  let len := if len >? nr_lbas then nr_lbas else len in
  let len := wrap64 (Z.shiftl len (lba_log2 (geom s))) in
  read_iov_loop s len lba iov.

(** The loop of [zbc_write_zone_iov]; it carries the state for the file. *)
Fixpoint write_iov_loop (s : zbc_dev) (len lba : Z) (iov : list iovec)
  : res (Z * zbc_dev * list iovec * list io_event) :=
  match iov with
  | [] => Ok (0, s, [], [])
  | v :: rest =>
      if len =? 0 then Ok (0, s, iov, [])
      else
        let to_write := Z.min (iov_len v) len in
        if to_write =? 0 then
          '(bytes, s', rest', ev) ← write_iov_loop s len lba rest;
          Ok (bytes, s', v :: rest', ev)
        else
          off ← zbc_bs_offset s lba;
          let data := take (Z.to_nat to_write) (iov_base v) in
          let s1 := set_bs (pwrite (bs s) data off) s in
          let lba' := wrap64 (lba + Z.shiftr to_write (lba_log2 (geom s))) in
          let v' := mk_iovec (drop (Z.to_nat to_write) (iov_base v))
                             (iov_len v - to_write) in
          '(bytes, s', rest', ev) ←
            write_iov_loop s1 (len - to_write) lba' rest;
          Ok (to_write + bytes, s', v' :: rest', IoPwrite off data :: ev)
  end.

Definition zbc_write_zone_iov (s : zbc_dev) (z : zbc_zone) (lba nr_lbas : Z)
    (iov : list iovec) : res (Z * zbc_dev * list iovec * list io_event) :=
  let len := zbc_get_zone_lba_count z lba nr_lbas in
  let len := wrap64 (Z.shiftl len (lba_log2 (geom s))) in
  write_iov_loop s len lba iov.

(** ** Read and write checks *)

(** [zbc_check_rdwr]: [None] stands for [TCMU_STS_OK]. *)
Definition zbc_check_rdwr (s : zbc_dev) (iov : list iovec) (lba nr_lbas : Z)
  : option tcmu_sts :=
  let iov_length := tcmu_iovec_length iov in
  if zbc_lba_out_of_range s lba nr_lbas then
    Some (zbc_set_sense ILLEGAL_REQUEST ASC_LBA_OUT_OF_RANGE)
  else if negb (iov_length =? wrap64 (Z.shiftl nr_lbas (lba_log2 (geom s))))
  then Some (zbc_set_sense HARDWARE_ERROR ASC_INTERNAL_TARGET_FAILURE)
  else None.

(** [zbc_zone_ok_to_read]: [None] when the zone may be read, else the
    sense key and code. *)
Definition zbc_zone_ok_to_read (s : zbc_dev) (z : zbc_zone) (lba nr_lbas : Z)
    (first_zn_type : zbc_zone_type) : option (Z * Z) :=
  if zbc_zone_gap z && wp_check (geom s) then
    Some (ILLEGAL_REQUEST, ASC_ATTEMPT_TO_ACCESS_GAP_ZONE)
  else if zbc_zone_offline z then
    Some (DATA_PROTECT, ASC_ZONE_IS_OFFLINE)
  else if zbc_zone_inactive z && wp_check (geom s)
          && negb (zbc_zone_conv z) && negb (zbc_zone_seq_pref z) then
    Some (DATA_PROTECT, ASC_ZONE_IS_INACTIVE)
  else if negb (bool_decide (z_type z = first_zn_type)) then
    Some (ILLEGAL_REQUEST, ASC_READ_BOUNDARY_VIOLATION)
  else if negb (wp_check (geom s)) then None
  else if zbc_zone_conv z || zbc_zone_seq_pref z then None
  else if zbc_zone_seq_req z
          && (wrap64 (lba + nr_lbas) >? wrap64 (z_start z + z_len z)) then
    Some (ILLEGAL_REQUEST, ASC_READ_BOUNDARY_VIOLATION)
  else
    let boundary := zbc_get_zone_boundary z in
    if (lba <? boundary)
       && (zbc_get_zone_lba_count z lba nr_lbas >? wrap64 (boundary - lba))
    then Some (ILLEGAL_REQUEST, ASC_ATTEMPT_TO_READ_INVALID_DATA)
    else if lba >=? boundary then
      Some (ILLEGAL_REQUEST, ASC_ATTEMPT_TO_READ_INVALID_DATA)
    else None.

(** [zbc_zone_ok_to_write]. *)
Definition zbc_zone_ok_to_write (s : zbc_dev) (z : zbc_zone) (lba nr_lbas : Z)
    (first_zn_type : zbc_zone_type) : option (Z * Z) :=
  if zbc_zone_gap z then
    Some (ILLEGAL_REQUEST, ASC_ATTEMPT_TO_ACCESS_GAP_ZONE)
  else if zbc_zone_offline z then
    Some (DATA_PROTECT, ASC_ZONE_IS_OFFLINE)
  else if zbc_zone_inactive z then
    Some (DATA_PROTECT, ASC_ZONE_IS_INACTIVE)
  else if zbc_zone_rdonly z then
    Some (DATA_PROTECT, ASC_ZONE_IS_READ_ONLY)
  else if negb (bool_decide (z_type z = first_zn_type))
          || (zbc_zone_seq_req z
              && (wrap64 (lba + nr_lbas) >? wrap64 (z_start z + z_len z)))
  then Some (ILLEGAL_REQUEST, ASC_WRITE_BOUNDARY_VIOLATION)
  else if zbc_zone_seq_req z && zbc_zone_full z then
    Some (ILLEGAL_REQUEST, ASC_INVALID_FIELD_IN_CDB)
  else if zbc_zone_seq_req z && negb (lba =? z_wp z) then
    Some (ILLEGAL_REQUEST, ASC_UNALIGNED_WRITE_COMMAND)
  else if zbc_zone_sobr z && negb (zbc_zone_full z) && (lba >? z_wp z) then
    Some (ILLEGAL_REQUEST, ASC_UNALIGNED_WRITE_COMMAND)
  else None.

Definition incr_read_rule_fails (s : zbc_dev) : zbc_dev :=
  set_stats (set_read_rule_fails (wrap64 (read_rule_fails (stats s) + 1))
                                 (stats s)) s.
Definition incr_write_rule_fails (s : zbc_dev) : zbc_dev :=
  set_stats (set_write_rule_fails (wrap64 (write_rule_fails (stats s) + 1))
                                  (stats s)) s.

(** The loop of [zbc_rdwr_check_zones].  Every turn with a positive
    count takes LBAs off [nr_lbas], so [nr_lbas] turns are enough unless
    the C loop itself does not end. *)
Fixpoint rdwr_check_loop (fuel : nat) (s : zbc_dev) (read : bool)
    (lba nr_lbas : Z) (first_zn_type : option zbc_zone_type)
  : res (tcmu_sts * zbc_dev) :=
  match fuel with
  | O => Fuel
  | S fuel' =>
      zp ← zbc_get_zone s lba false;
      match zp with
      | None => Ok (zbc_set_sense HARDWARE_ERROR ASC_INTERNAL_TARGET_FAILURE, s)
      | Some zone =>
          z ← zone_at s zone;
          let first := match first_zn_type with
                       | None => z_type z
                       | Some t => t
                       end in
          match (if read then zbc_zone_ok_to_read s z lba nr_lbas first
                 else zbc_zone_ok_to_write s z lba nr_lbas first) with
          | Some (sk, asc) =>
              Ok (zbc_set_sense sk asc,
                  if read then incr_read_rule_fails s
                  else incr_write_rule_fails s)
          | None =>
              let count := zbc_get_zone_lba_count z lba nr_lbas in
              let lba' := wrap64 (lba + count) in
              let nr_lbas' := wrap64 (nr_lbas - count) in
              if nr_lbas' >? 0
              then rdwr_check_loop fuel' s read lba' nr_lbas' (Some first)
              else Ok (TCMU_STS_OK, s)
          end
      end
  end.

Definition zbc_rdwr_check_zones (s : zbc_dev) (read : bool) (lba nr_lbas : Z)
  : res (tcmu_sts * zbc_dev) :=
  rdwr_check_loop (S (Z.to_nat nr_lbas)) s read lba nr_lbas None.

(** ** The write pointer after a write *)

Definition zbc_adjust_write_ptr (s : zbc_dev) (zone : Z) (lba count : Z)
  : res zbc_dev :=
  z ← zone_at s zone;
  s1 ← (if zbc_zone_seq_req z then
          upd_zone zone (zone_set_wp (wrap64 (z_wp z + count))) s
        else if zbc_zone_seq_pref z || zbc_zone_sobr z then
          if wrap64 (lba + count) >? z_wp z
          then upd_zone zone (zone_set_wp (wrap64 (lba + count))) s
          else Ok s
        else Ok s);
  z1 ← zone_at s1 zone;
  if z_wp z1 >=? wrap64 (z_start z1 + z_len z1) then
    s2 ← (if zbc_zone_is_open z1 then __zbc_close_zone s1 zone else Ok s1);
    z2 ← zone_at s2 zone;
    if zbc_zone_conv z2 then
      s3 ← upd_zone zone (zone_set_cond ZBC_ZONE_COND_NOT_WP) s2;
      upd_zone zone (zone_set_wp ZBC_NO_WP) s3
    else
      s3 ← zbc_unlink_zone s2 zone;
      s4 ← zbc_on_cond_change s3 zone ZBC_ZONE_COND_FULL;
      s5 ← upd_zone zone (zone_set_cond ZBC_ZONE_COND_FULL) s4;
      s6 ← upd_zone zone
             (zone_set_wp (if zbc_zone_seq z2
                           then wrap64 (z_start z2 + z_len z2)
                           else ZBC_NO_WP)) s5;
      zbc_add_zone_tail s6 seq_active_zones zone
  else Ok s1.

(** ** READ and WRITE *)

(** What a data command leaves behind: the status, the device, the
    buffers and the file system calls that were made. *)
Record cmd_result : Type := mk_result {
  res_sts : tcmu_sts;
  res_dev : zbc_dev;
  res_iov : list iovec;
  res_io : list io_event;
}.

(** The read loop of [zbc_read_zoned]. *)
Fixpoint read_zoned_loop (fuel : nat) (s : zbc_dev) (lba len : Z)
    (iov : list iovec) (io : list io_event) : res cmd_result :=
  if len =? 0 then Ok (mk_result TCMU_STS_OK s iov io)
  else
    match fuel with
    | O => Fuel
    | S fuel' =>
        zp ← zbc_get_zone s lba false;
        match zp with
        | None =>
            Ok (mk_result
                  (zbc_set_sense HARDWARE_ERROR ASC_INTERNAL_TARGET_FAILURE)
                  s iov io)
        | Some zone =>
            z ← zone_at s zone;
            let boundary := zbc_get_zone_boundary z in
            '(ret, iov', ev) ←
              (if lba >=? boundary then
                 let '(bytes, iov') := zbc_fill_zone_iov s z lba len iov in
                 Ok (inr bytes, iov', [])
               else zbc_read_zone_iov s z lba len boundary iov);
            match ret with
            | inl _ =>
                Ok (mk_result (zbc_set_sense MEDIUM_ERROR ASC_READ_ERROR)
                              s iov' (io ++ ev))
            | inr bytes =>
                if bytes <=? 0 then
                  Ok (mk_result (zbc_set_sense MEDIUM_ERROR ASC_READ_ERROR)
                                s iov' (io ++ ev))
                else
                  let count := Z.shiftr bytes (lba_log2 (geom s)) in
                  read_zoned_loop fuel' s (wrap64 (lba + count))
                                  (wrap64 (len - count)) iov' (io ++ ev)
            end
        end
    end.

Definition zbc_read_zoned (s : zbc_dev) (iov : list iovec) (lba len : Z)
  : res cmd_result :=
  match zbc_check_rdwr s iov lba len with
  | Some e => Ok (mk_result e s iov [])
  | None =>
      '(sts, s1) ← zbc_rdwr_check_zones s true lba len;
      match sts with
      | TCMU_STS_OK => read_zoned_loop (Z.to_nat len) s1 lba len iov []
      | _ => Ok (mk_result sts s1 iov [])
      end
  end.

(** The write loop of [zbc_write_zoned] (a do-while loop). *)
Fixpoint write_zoned_loop (fuel : nat) (s : zbc_dev) (lba len : Z)
    (iov : list iovec) (io : list io_event) : res cmd_result :=
  match fuel with
  | O => Fuel
  | S fuel' =>
      zp ← zbc_get_zone s lba false;
      match zp with
      | None =>
          Ok (mk_result
                (zbc_set_sense HARDWARE_ERROR ASC_INTERNAL_TARGET_FAILURE)
                s iov io)
      | Some zone =>
          z ← zone_at s zone;
          let need_open :=
            (zbc_zone_seq z || zbc_zone_sobr z)
            && negb (zbc_zone_is_open z) && negb (zbc_zone_full z) in
          if need_open && zbc_zone_seq_req z && negb (zbc_ozr_check s 1) then
            Ok (mk_result
                  (zbc_set_sense DATA_PROTECT ASC_INSUFFICIENT_ZONE_RESOURCES)
                  s iov io)
          else
            s1 ← (if need_open then __zbc_open_zone s zone false else Ok s);
            if len =? 0 then Ok (mk_result TCMU_STS_OK s1 iov io)
            else
              z1 ← zone_at s1 zone;
              '(bytes, s2, iov', ev) ← zbc_write_zone_iov s1 z1 lba len iov;
              if bytes <=? 0 then
                Ok (mk_result (zbc_set_sense MEDIUM_ERROR ASC_WRITE_ERROR)
                              s2 iov' (io ++ ev))
              else
                let count := Z.shiftr bytes (lba_log2 (geom s2)) in
                s3 ← zbc_adjust_write_ptr s2 zone lba count;
                let lba' := wrap64 (lba + count) in
                let len' := wrap64 (len - count) in
                if len' =? 0
                then Ok (mk_result TCMU_STS_OK s3 iov' (io ++ ev))
                else write_zoned_loop fuel' s3 lba' len' iov' (io ++ ev)
      end
  end.

Definition zbc_write_zoned (s : zbc_dev) (iov : list iovec) (lba len : Z)
  : res cmd_result :=
  match zbc_check_rdwr s iov lba len with
  | Some e => Ok (mk_result e s iov [])
  | None =>
      '(sts, s1) ← zbc_rdwr_check_zones s false lba len;
      match sts with
      | TCMU_STS_OK => write_zoned_loop (S (Z.to_nat len)) s1 lba len iov []
      | _ => Ok (mk_result sts s1 iov [])
      end
  end.

(** [preadv] over all the buffers. *)
Fixpoint preadv (b : backstore) (iov : list iovec) (offset : Z)
  : Z * list iovec :=
  match iov with
  | [] => (0, [])
  | v :: rest =>
      let data := pread b (iov_len v) offset in
      let n := Z.of_nat (length data) in
      let v' := mk_iovec (iov_base v ++ data) (iov_len v - n) in
      if n <? iov_len v then (n, v' :: rest)
      else let '(m, rest') := preadv b rest (offset + n) in (n + m, v' :: rest')
  end.

(** [pwritev] over all the buffers. *)
Fixpoint pwritev (b : backstore) (iov : list iovec) (offset : Z)
  : Z * backstore * list iovec :=
  match iov with
  | [] => (0, b, [])
  | v :: rest =>
      let data := take (Z.to_nat (iov_len v)) (iov_base v) in
      let n := Z.max 0 (iov_len v) in
      let '(m, b', rest') := pwritev (pwrite b data offset) rest (offset + n) in
      (n + m, b', mk_iovec (drop (Z.to_nat n) (iov_base v)) (iov_len v - n)
                    :: rest')
  end.

Definition zbc_read_nz (s : zbc_dev) (iov : list iovec) (lba len : Z)
  : res cmd_result :=
  match zbc_check_rdwr s iov lba len with
  | Some e => Ok (mk_result e s iov [])
  | None =>
      ofs ← zbc_bs_offset s lba;
      let len := wrap64 (Z.shiftl len (lba_log2 (geom s))) in
      let '(ret, iov') := preadv (bs s) iov ofs in
      Ok (mk_result (if negb (ret =? len)
                     then zbc_set_sense MEDIUM_ERROR ASC_READ_ERROR
                     else TCMU_STS_OK)
                    s iov' [IoPread ofs len])
  end.

Definition zbc_write_nz (s : zbc_dev) (iov : list iovec) (lba len : Z)
  : res cmd_result :=
  match zbc_check_rdwr s iov lba len with
  | Some e => Ok (mk_result e s iov [])
  | None =>
      ofs ← zbc_bs_offset s lba;
      let len := wrap64 (Z.shiftl len (lba_log2 (geom s))) in
      let '(ret, b', iov') := pwritev (bs s) iov ofs in
      Ok (mk_result (if negb (ret =? len)
                     then zbc_set_sense MEDIUM_ERROR ASC_WRITE_ERROR
                     else TCMU_STS_OK)
                    (set_bs b' s) iov'
                    [IoPwrite ofs (concat (map iov_base iov))])
  end.

Definition zbc_read (s : zbc_dev) (iov : list iovec) (lba len : Z)
  : res cmd_result :=
  if negb (zbc_mt_nz_t (dev_type (geom s)))
  then zbc_read_zoned s iov lba len
  else zbc_read_nz s iov lba len.

Definition zbc_write (s : zbc_dev) (iov : list iovec) (lba len : Z)
  : res cmd_result :=
  if negb (zbc_mt_nz_t (dev_type (geom s)))
  then zbc_write_zoned s iov lba len
  else zbc_write_nz s iov lba len.

(** ** Formatting a host-managed or host-aware device *)

(** The part of [struct zbc_dev_features] that the formatters read. *)
Record zbc_dev_features : Type := mk_features {
  initial_cmr_type : zbc_zone_type;
  initial_cmr_cond : zbc_zone_cond;
  initial_smr_type : zbc_zone_type;
  initial_smr_cond : zbc_zone_cond;
  actv_of_sobr : bool;
  actv_of_conv : bool;
  actv_of_seq_req : bool;
  actv_of_seq_pref : bool;
  initial_wp_check : bool;
  nr_rdonly_zones : Z;
  rdonly_zone_offset : Z;
  nr_offline_zones : Z;
  offline_zone_offset : Z;
  nr_bot_cmr : Z;
  nr_top_cmr : Z;
  domain_gap : Z;
}.

(** [enum zbc_mutation_opt_smr]. *)
Inductive zbc_mutation_opt_smr : Type :=
| ZBC_MO_SMR_NO_CMR
| ZBC_MO_SMR_1PCNT_B
| ZBC_MO_SMR_2PCNT_BT
| ZBC_MO_SMR_FAULTY.

(** The resolved configuration, [struct zbc_dev_config]; [cfg_wp_check]
    is [None] for [ZBC_CONF_WP_CHECK_NOT_SET] and [cfg_conv_num] is
    [None] for the default number of conventional zones. *)
Record zbc_dev_config : Type := mk_config {
  cfg_phys_capacity : Z;
  cfg_mutating : bool;
  cfg_lba_size : Z;
  cfg_zone_size : Z;
  cfg_conv_num : option Z;
  cfg_open_num : Z;
  cfg_wp_check : option bool;
  cfg_realm_size : Z;
  cfg_smr_gain : Z;
  cfg_realms_feat_set : bool;
}.

(** [zbc_log2]: the number of right shifts that leave a non-zero value. *)
Definition zbc_log2 (n : Z) : Z := Z.log2 n.

(** The zeroed zone descriptor of a fresh metadata image.  Its type is
    written by the formatter before it is read. *)
Definition zero_zone : zbc_zone :=
  mk_zone 0 0 0 0 0 ZBC_ZONE_TYPE_GAP ZBC_ZONE_COND_NOT_WP false false.

Definition zero_stats : zbc_dev_stats := mk_stats 0 0 0 0 0 0 0.

(** [zbc_inject_zone_cond_zoned]: [inl] is the error return. *)
Fixpoint inject_loop (n : nat) (s : zbc_dev) (zone : Z) (cond : zbc_zone_cond)
  : res zbc_dev :=
  match n with
  | O => Ok s
  | S n' =>
      z ← zone_at s zone;
      let s1 := if zbc_zone_empty z
                   && negb (bool_decide (cond = ZBC_ZONE_COND_EMPTY))
                then set_nr_empty_zones (wrap32 (nr_empty_zones s - 1)) s
                else s in
      s2 ← zbc_unlink_zone s1 zone;
      s3 ← upd_zone zone (zone_set_cond cond) s2;
      s4 ← zbc_set_initial_wp s3 zone;
      inject_loop n' s4 (zone + 1) cond
  end.

Definition zbc_inject_zone_cond_zoned (s : zbc_dev) (zone_idx : Z)
    (cond : zbc_zone_cond) (nr : Z) : res (bool * zbc_dev) :=
  let start_lba := wrap64 (zone_idx * zone_size (geom s)) in
  zp ← zbc_get_zone s start_lba false;
  match zp with
  | None => Ok (false, s)
  | Some zone =>
      if zone >? wrap32 (nr_zones (geom s) - nr) then Ok (false, s)
      else
        s' ← inject_loop (Z.to_nat nr) s zone cond;
        Ok (true, s')
  end.

(** The zone loop of [zbc_init_zones_zoned]. *)
Fixpoint init_zones_zoned_loop (n : nat) (s : zbc_dev) (i lba : Z)
    (zone_type : zbc_zone_type) (nr_convz : Z) (top_conv : bool)
  : res zbc_dev :=
  match n with
  | O => Ok s
  | S n' =>
      let g := geom s in
      let len := if wrap64 (lba + zone_size g) >? logical_capacity g
                 then wrap64 (logical_capacity g - lba)
                 else zone_size g in
      let conv := (i <? nr_convz)
                  || (top_conv && (i =? wrap32 (nr_zones g - 1))) in
      s1 ← upd_zone i
             (fun z => mk_zone lba len (z_wp z) 0 0
                         (if conv then ZBC_ZONE_TYPE_CONVENTIONAL
                          else zone_type)
                         (if conv then ZBC_ZONE_COND_NOT_WP
                          else ZBC_ZONE_COND_EMPTY)
                         (z_non_seq z) (z_reset z)) s;
      let s2 := if conv then s1
                else set_nr_empty_zones (wrap32 (nr_empty_zones s1 + 1)) s1 in
      s3 ← zbc_set_initial_wp s2 i;
      init_zones_zoned_loop n' s3 (i + 1) (wrap64 (lba + len))
                            zone_type nr_convz top_conv
  end.

Definition zbc_init_zones_zoned (s : zbc_dev) (nr_conv_zones : Z)
    (feat : zbc_dev_features) (model : zbc_mutation_opt_smr) : res zbc_dev :=
  let top_conv := match model with ZBC_MO_SMR_2PCNT_BT => true | _ => false end in
  let nr_convz := if top_conv && (nr_conv_zones >? 0)
                  then nr_conv_zones - 1 else nr_conv_zones in
  let zone_type := match dev_type (geom s) with
                   | ZBC_MT_HA_ZONED => ZBC_ZONE_TYPE_SEQWRITE_PREF
                   | _ => ZBC_ZONE_TYPE_SEQWRITE_REQ
                   end in
  s1 ← init_zones_zoned_loop (Z.to_nat (nr_zones (geom s))) s 0 0
         zone_type nr_convz top_conv;
  s2 ← (if negb (nr_rdonly_zones feat =? 0) then
          let zone_idx := wrap32 (rdonly_zone_offset feat) in
          if wrap64 (zone_idx + nr_rdonly_zones feat) >? nr_conv_zones
          then Ok s1
          else '(_, s2) ← zbc_inject_zone_cond_zoned s1 zone_idx
                            ZBC_ZONE_COND_READONLY (nr_rdonly_zones feat);
               Ok s2
        else Ok s1);
  s3 ← (if negb (nr_offline_zones feat =? 0) then
          let zone_idx := wrap32 (offline_zone_offset feat) in
          if wrap64 (zone_idx + nr_offline_zones feat) >? nr_conv_zones
          then Ok s2
          else '(_, s3) ← zbc_inject_zone_cond_zoned s2 zone_idx
                            ZBC_ZONE_COND_OFFLINE (nr_offline_zones feat);
               Ok s3
        else Ok s2);
  Ok (set_stats (set_min_empty_zones (nr_empty_zones s3) (stats s3)) s3).

(** [zbc_format_meta_zoned] for a device of type [dt] (host managed or
    host aware) and the given model and feature profile; [None] is an
    error return.  The metadata image is new and zeroed, the open
    counters are reset, and [zbc_format_meta] has reset the count of
    empty zones. *)
Definition zbc_format_meta_zoned (dt : zbc_device_type)
    (model : zbc_mutation_opt_smr) (feat : zbc_dev_features)
    (cfg : zbc_dev_config) (pagesize : Z) (file : backstore)
  : res (option zbc_dev) :=
  let lba_size := cfg_lba_size cfg in
  let lba_log2 := zbc_log2 lba_size in
  let phys_capacity := cfg_phys_capacity cfg / lba_size in
  let zone_size := cfg_zone_size cfg / lba_size in
  let zone_log2 := zbc_log2 zone_size in
  let nr_zones :=
    wrap32 (Z.shiftr (wrap64 (phys_capacity + zone_size - 1)) zone_log2) in
  let one_pcnt := let n := nr_zones / 100 in if n =? 0 then 1 else n in
  let conv : option Z :=
    if cfg_mutating cfg then
      match model with
      | ZBC_MO_SMR_1PCNT_B => Some one_pcnt
      | ZBC_MO_SMR_FAULTY =>
          let max_rdonly_zone :=
            wrap32 (rdonly_zone_offset feat + nr_rdonly_zones feat) in
          let max_offline_zone :=
            wrap32 (offline_zone_offset feat + nr_offline_zones feat) in
          let max_faulty_zone := Z.max max_rdonly_zone max_offline_zone in
          if max_faulty_zone >? nr_zones then None
          else Some (Z.max (nr_zones / 100) max_faulty_zone)
      | ZBC_MO_SMR_2PCNT_BT =>
          Some (wrap32 ((let n := nr_zones / 50 in if n =? 0 then 1 else n) + 1))
      | ZBC_MO_SMR_NO_CMR => Some 0
      end
    else match cfg_conv_num cfg with
         | None => Some one_pcnt
         | Some n => if n >=? nr_zones then None else Some n
         end in
  match conv with
  | None => Ok None
  | Some nr_conv_zones =>
      let logical_capacity := wrap32 (Z.shiftl nr_zones zone_log2) in
      let nr_seq_zones := wrap32 (nr_zones - nr_conv_zones) in
      let nr_open :=
        if cfg_open_num cfg >=? nr_seq_zones / 2
        then (if nr_seq_zones / 2 =? 0 then 1 else nr_seq_zones / 2)
        else cfg_open_num cfg in
      let wpc := match cfg_wp_check cfg with
                 | Some b => b
                 | None => initial_wp_check feat
                 end in
      let msize := zbc_meta_size pagesize 0 nr_zones in
      let g := mk_geom dt msize lba_log2 zone_size zone_log2 nr_zones nr_open
                       [] 0 [] 0 0 0 wpc false logical_capacity [] [] in
      let s0 := mk_dev g (replicate (Z.to_nat nr_zones) zero_zone) []
                       zbc_init_zone_list zbc_init_zone_list
                       zbc_init_zone_list zbc_init_zone_list
                       0 0 0 zero_stats
                       (mk_bs (wrap64 (msize + wrap64 (phys_capacity * lba_size)))
                              (bs_data file)) in
      s1 ← zbc_init_zones_zoned s0 nr_conv_zones feat model;
      Ok (Some s1)
  end.

(** The feature profile HM_ZONED of [zbc_opt_feat]. *)
Definition feat_HM_ZONED : zbc_dev_features :=
  mk_features ZBC_ZONE_TYPE_CONVENTIONAL ZBC_ZONE_COND_NOT_WP
              ZBC_ZONE_TYPE_SEQWRITE_REQ ZBC_ZONE_COND_EMPTY
              false false false false false 0 0 0 0 0 0 0.

(** A small host-managed device: 512-byte LBAs, zones of 8 LBAs, six
    zones, the first of them conventional, two open zones at most. *)
Definition hm_cfg : zbc_dev_config :=
  mk_config (6 * 8 * 512) false 512 (8 * 512) (Some 1) 2 (Some true)
            0 0 false.

Definition empty_file : backstore := mk_bs 0 (fun _ => 0).

Definition hm_dev : zbc_dev :=
  match zbc_format_meta_zoned ZBC_MT_HM_ZONED ZBC_MO_SMR_NO_CMR feat_HM_ZONED
                              hm_cfg 4096 empty_file with
  | Ok (Some s) => s
  | _ => mk_dev (mk_geom ZBC_MT_UNKNOWN 0 0 0 0 0 0 [] 0 [] 0 0 0 false false
                         0 [] [])
                [] [] zbc_init_zone_list zbc_init_zone_list
                zbc_init_zone_list zbc_init_zone_list 0 0 0 zero_stats
                empty_file
  end.

(** * Properties *)

(** ** LBA range check of READ and WRITE *)

Lemma zbc_lba_out_of_range_spec s lba nr_lbas :
  0 <= lba < 2 ^ 64 -> 0 <= nr_lbas < 2 ^ 64 ->
  0 <= logical_capacity (geom s) < 2 ^ 64 ->
  2 ^ 64 <= lba + nr_lbas \/ logical_capacity (geom s) < lba + nr_lbas ->
  zbc_lba_out_of_range s lba nr_lbas = true.
Proof.
  intros Hl Hn Hc H. unfold zbc_lba_out_of_range.
  destruct (Z_lt_dec (lba + nr_lbas) (2 ^ 64)) as [Hlt|Hge].
  - rewrite (wrap64_small (lba + nr_lbas)) by lia.
    destruct H as [H|H]; [lia|].
    apply orb_true_iff. left. apply orb_true_iff. right. lia.
  - assert (Hw : wrap64 (lba + nr_lbas) = lba + nr_lbas - 2 ^ 64).
    { unfold wrap64. symmetry. apply Z.mod_unique with (q := 1); lia. }
    rewrite Hw. apply orb_true_iff. right. lia.
Qed.

(** C9: a READ or WRITE whose start LBA plus transfer length wraps around
    64 bits, or exceeds the logical capacity, ends with LBA_OUT_OF_RANGE;
    the device is unchanged, the data buffers are untouched and no file
    system call has been made.  The wrap-around case needs no comparison
    of the wrapped sum with the capacity. *)
Theorem rdwr_lba_out_of_range (s : zbc_dev) (iov : list iovec) (lba nr_lbas : Z) :
  0 <= lba < 2 ^ 64 -> 0 <= nr_lbas < 2 ^ 64 ->
  0 <= logical_capacity (geom s) < 2 ^ 64 ->
  2 ^ 64 <= lba + nr_lbas \/ logical_capacity (geom s) < lba + nr_lbas ->
  let r := mk_result (zbc_set_sense ILLEGAL_REQUEST ASC_LBA_OUT_OF_RANGE)
                     s iov [] in
  zbc_read s iov lba nr_lbas = Ok r /\ zbc_write s iov lba nr_lbas = Ok r.
Proof.
  intros Hl Hn Hc H r.
  pose proof (zbc_lba_out_of_range_spec s lba nr_lbas Hl Hn Hc H) as Hoor.
  unfold zbc_read, zbc_write, zbc_read_zoned, zbc_read_nz, zbc_write_zoned,
    zbc_write_nz, zbc_check_rdwr.
  rewrite Hoor. split; destruct (negb _); reflexivity.
Qed.

(** The wrapped sum of the witness, 0, is below the capacity, 48. *)
Lemma rdwr_lba_out_of_range_witness :
  wrap64 (1 + (2 ^ 64 - 1)) < logical_capacity (geom hm_dev) /\
  zbc_read hm_dev [mk_iovec [] 512] 1 (2 ^ 64 - 1)
  = Ok (mk_result (zbc_set_sense ILLEGAL_REQUEST ASC_LBA_OUT_OF_RANGE)
                  hm_dev [mk_iovec [] 512] []) /\
  zbc_write hm_dev [mk_iovec [] 512] 1 (2 ^ 64 - 1)
  = Ok (mk_result (zbc_set_sense ILLEGAL_REQUEST ASC_LBA_OUT_OF_RANGE)
                  hm_dev [mk_iovec [] 512] []).
Proof.
  split; [vm_compute; reflexivity|].
  apply (rdwr_lba_out_of_range hm_dev [mk_iovec [] 512] 1 (2 ^ 64 - 1));
    vm_compute; intuition congruence.
Defined.

(** ** ALL together with a zone count *)

(** C10: CLOSE ZONE, OPEN ZONE, FINISH ZONE and RESET WRITE POINTER with
    the ALL bit and a non-zero zone count end with INVALID_FIELD_IN_CDB
    and leave the device (zones, lists, counters) as it was. *)
Theorem all_with_count_is_rejected (s : zbc_dev) (lba count : Z)
    (op : zbc_out_sa) :
  count <> 0 ->
  op = ZBC_SA_CLOSE_ZONE \/ op = ZBC_SA_OPEN_ZONE \/
  op = ZBC_SA_FINISH_ZONE \/ op = ZBC_SA_RESET_WP ->
  zbc_out_zone s lba count op true
  = Ok (zbc_set_sense ILLEGAL_REQUEST ASC_INVALID_FIELD_IN_CDB, s).
Proof.
  intros Hc Hop. unfold zbc_out_zone. simpl.
  assert (Hn : negb (count =? 0) = true).
  { apply negb_true_iff. apply Z.eqb_neq. exact Hc. }
  destruct Hop as [-> | [-> | [-> | ->] ] ];
    unfold zbc_close_zone, zbc_open_zone, zbc_finish_zone, zbc_reset_wp;
    rewrite Hn; reflexivity.
Qed.

Lemma all_with_count_is_rejected_witness :
  zbc_out_zone hm_dev 8 3 ZBC_SA_OPEN_ZONE true
  = Ok (zbc_set_sense ILLEGAL_REQUEST ASC_INVALID_FIELD_IN_CDB, hm_dev).
Proof.
  apply (all_with_count_is_rejected hm_dev 8 3 ZBC_SA_OPEN_ZONE); [lia|].
  right. left. reflexivity.
Defined.

(** * The zone lists as sequences of zone indices

    The list heads and the [prev]/[next] fields of the zones represent
    four sequences of zone indices.  [chain zs p l n] says that the zones
    of [l] are linked in this order, the first of them having [p] as its
    [prev] and the last of them having [n] as its [next]. *)

Definition hdZ (l : list nat) (n : Z) : Z :=
  match l with
  | [] => n
  | i :: _ => Z.of_nat i
  end.

Definition lastZ (l : list nat) (p : Z) : Z :=
  match last l with
  | None => p
  | Some i => Z.of_nat i
  end.

Fixpoint chain (zs : list zbc_zone) (p : Z) (l : list nat) (n : Z) : Prop :=
  match l with
  | [] => True
  | i :: l' =>
      (exists z, zs !! i = Some z /\ z_prev z = p /\ z_next z = hdZ l' n)
      /\ chain zs (Z.of_nat i) l' n
  end.

Record list_repr (zs : list zbc_zone) (zl : zbc_zone_list) (l : list nat)
  : Prop := mk_list_repr {
  lr_head : zl_head zl = hdZ l ZBC_LIST_NIL;
  lr_tail : zl_tail zl = lastZ l ZBC_LIST_NIL;
  lr_size : zl_size zl = Z.of_nat (length l);
  lr_chain : chain zs ZBC_LIST_NIL l ZBC_LIST_NIL;
  lr_nodup : NoDup l;
}.

Lemma lastZ_app l i p : lastZ (l ++ [i]) p = Z.of_nat i.
Proof. unfold lastZ. rewrite last_snoc. reflexivity. Qed.

Lemma lastZ_cons i l p : lastZ (i :: l) p = lastZ l (Z.of_nat i).
Proof.
  unfold lastZ. destruct l as [|j l]; [reflexivity|].
  rewrite last_cons_cons. destruct (last (j :: l)) eqn:E; [reflexivity|].
  apply last_None in E. discriminate.
Qed.

Lemma chain_app zs p l1 l2 n :
  chain zs p (l1 ++ l2) n <->
  chain zs p l1 (hdZ l2 n) /\ chain zs (lastZ l1 p) l2 n.
Proof.
  revert p. induction l1 as [|i l1 IH]; intros p; simpl.
  - unfold lastZ. simpl. tauto.
  - rewrite IH, lastZ_cons.
    assert (E : hdZ (l1 ++ l2) n = hdZ l1 (hdZ l2 n)) by (destruct l1; reflexivity).
    rewrite E. tauto.
Qed.

Lemma chain_lookup zs p l n i :
  chain zs p l n -> i ∈ l -> exists z, zs !! i = Some z.
Proof.
  revert p. induction l as [|j l IH]; intros p H Hi.
  - inversion Hi.
  - destruct H as [(z & Hz & _) H]. apply elem_of_cons in Hi as [->|Hi]; eauto.
Qed.

(** Zones outside of the sequence do not matter. *)
Lemma chain_frame zs p l n j z' :
  j ∉ l -> chain zs p l n -> chain (<[j := z']> zs) p l n.
Proof.
  revert p. induction l as [|i l IH]; intros p Hj H; simpl; [exact I|].
  apply not_elem_of_cons in Hj as [Hne Hj].
  destruct H as [(z & Hz & Hp & Hn) H]. split.
  - exists z. rewrite list_lookup_insert_ne by congruence. auto.
  - apply IH; assumption.
Qed.

(** Changing the [prev] of the first zone. *)
Lemma chain_set_prev zs p p' j l n z :
  j ∉ l -> zs !! j = Some z -> chain zs p (j :: l) n ->
  chain (<[j := zone_set_prev p' z]> zs) p' (j :: l) n.
Proof.
  intros Hj Hz [(z0 & Hz0 & Hp & Hn) H]. simpl. split.
  - exists (zone_set_prev p' z). rewrite list_lookup_insert_eq.
    + rewrite Hz in Hz0. inversion Hz0; subst. auto.
    + apply lookup_lt_Some in Hz. exact Hz.
  - apply chain_frame; assumption.
Qed.

(** Changing the [next] of the last zone. *)
Lemma chain_set_next zs p l j n n' z :
  NoDup (l ++ [j]) -> zs !! j = Some z -> chain zs p (l ++ [j]) n ->
  chain (<[j := zone_set_next n' z]> zs) p (l ++ [j]) n'.
Proof.
  intros Hnd Hz H. apply chain_app in H as [H1 H2]. apply chain_app.
  apply NoDup_app in Hnd as (Hnd1 & Hdis & _).
  assert (Hj : j ∉ l).
  { intros Hin. apply (Hdis j Hin). apply list_elem_of_singleton. reflexivity. }
  split.
  - apply chain_frame; assumption.
  - simpl in *. destruct H2 as [(z0 & Hz0 & Hp & Hn) _]. split; [|exact I].
    exists (zone_set_next n' z). rewrite list_lookup_insert_eq.
    + rewrite Hz in Hz0. inversion Hz0; subst. auto.
    + apply lookup_lt_Some in Hz. exact Hz.
Qed.

(** The fields of a zone other than its links. *)
Definition zone_data (z : zbc_zone) :=
  (z_start z, z_len z, z_wp z, z_type z, z_cond z, z_non_seq z, z_reset z).

(** Changing only the data of zones keeps the chains. *)
Lemma chain_data zs zs' p l n :
  (forall i z, zs !! i = Some z ->
     exists z', zs' !! i = Some z' /\ z_prev z' = z_prev z /\ z_next z' = z_next z) ->
  chain zs p l n -> chain zs' p l n.
Proof.
  intros Hs. revert p. induction l as [|i l IH]; intros p H; simpl; [exact I|].
  destruct H as [(z & Hz & Hp & Hn) H]. split; [|apply IH; exact H].
  destruct (Hs i z Hz) as (z' & Hz' & Hp' & Hn'). exists z'.
  rewrite Hp', Hn'. auto.
Qed.

(** The list that holds the zones of a condition. *)
Definition cond_list (c : zbc_zone_cond) : option zone_list_id :=
  match c with
  | ZBC_ZONE_COND_IMP_OPEN => Some imp_open_zones
  | ZBC_ZONE_COND_EXP_OPEN => Some exp_open_zones
  | ZBC_ZONE_COND_CLOSED => Some closed_zones
  | ZBC_ZONE_COND_EMPTY | ZBC_ZONE_COND_FULL => Some seq_active_zones
  | _ => None
  end.

(** The lists of the device are the sequences [A]; every zone other than
    [ex] is in the sequence of its condition; the zone [ex], if any, is
    in no sequence; a zone that is in no sequence has null links. *)
Record lists_ok (ex : option nat) (s : zbc_dev)
    (A : zone_list_id -> list nat) : Prop := mk_lists_ok {
  lo_repr : forall L, list_repr (zones s) (get_list s L) (A L);
  lo_mem : forall i z L, zones s !! i = Some z -> ex <> Some i ->
             (i ∈ A L <-> cond_list (z_cond z) = Some L);
  lo_ex : forall i L, ex = Some i -> i ∉ A L;
  lo_out : forall i z, zones s !! i = Some z -> (forall L, i ∉ A L) ->
             z_prev z = 0 /\ z_next z = 0;
  lo_len : Z.of_nat (length (zones s)) <= UINT_MAX;
}.

(** ** Reasoning about the result monad and the arrays *)

Lemma bind_Ok {A B} (m : res A) (f : A -> res B) (b : B) :
  (m ≫= f) = Ok b <-> exists a, m = Ok a /\ f a = Ok b.
Proof.
  destruct m as [a| |]; simpl; split.
  - intros H. exists a. auto.
  - intros (a' & Ha & H). inversion Ha; subst. exact H.
  - discriminate.
  - intros (a' & Ha & _). discriminate.
  - discriminate.
  - intros (a' & Ha & _). discriminate.
Qed.

(** Split a hypothesis [(x ← m; k) = Ok b]. *)
Ltac inv_bind H :=
  let a := fresh "a" in
  let Ha := fresh "Hm" in
  apply bind_Ok in H; destruct H as (a & Ha & H).

Lemma zone_at_Ok s i z :
  zone_at s i = Ok z <-> 0 <= i /\ zones s !! Z.to_nat i = Some z.
Proof.
  unfold zone_at. destruct (Z.ltb_spec i 0).
  - split; [discriminate|]. intros [? _]. lia.
  - destruct (zones s !! Z.to_nat i) as [z'|]; split.
    + intros H'. inversion H'; subst. auto.
    + intros [_ H']. inversion H'; subst. reflexivity.
    + discriminate.
    + intros [_ H']. discriminate.
Qed.

Lemma zone_at_nat s (i : nat) z :
  zone_at s (Z.of_nat i) = Ok z <-> zones s !! i = Some z.
Proof. rewrite zone_at_Ok, Nat2Z.id. split; [tauto|]. intros. split; [lia|auto]. Qed.

Lemma upd_zone_Ok i f s s' :
  upd_zone i f s = Ok s' <->
  exists z, 0 <= i /\ zones s !! Z.to_nat i = Some z /\
            s' = set_zones (<[Z.to_nat i := f z]> (zones s)) s.
Proof.
  unfold upd_zone. rewrite bind_Ok. split.
  - intros (z & Hz & H). apply zone_at_Ok in Hz as [? ?].
    inversion H; subst. eauto.
  - intros (z & ? & Hz & ->). exists z. split; [|reflexivity].
    apply zone_at_Ok. auto.
Qed.

Lemma upd_zone_nat (i : nat) f s z :
  zones s !! i = Some z ->
  upd_zone (Z.of_nat i) f s = Ok (set_zones (<[i := f z]> (zones s)) s).
Proof.
  intros Hz. unfold upd_zone.
  apply zone_at_nat in Hz. rewrite Hz. simpl. rewrite Nat2Z.id. reflexivity.
Qed.

(** A sequence without duplicates of numbers below [n] has at most [n]
    elements. *)
Lemma NoDup_bounded_length (l : list nat) (n : nat) :
  NoDup l -> (forall x, x ∈ l -> (x < n)%nat) -> (length l <= n)%nat.
Proof.
  intros Hnd Hb.
  assert (H : l ⊆+ seq 0 n).
  { apply NoDup_submseteq; [exact Hnd|].
    intros x Hx. apply elem_of_seq. specialize (Hb x Hx). lia. }
  apply submseteq_length in H. rewrite length_seq in H. exact H.
Qed.

Lemma chain_bounded zs p l n i :
  chain zs p l n -> i ∈ l -> (i < length zs)%nat.
Proof.
  intros H Hi. destruct (chain_lookup zs p l n i H Hi) as [z Hz].
  apply lookup_lt_Some in Hz. exact Hz.
Qed.

Lemma list_repr_length zs zl l :
  list_repr zs zl l -> (length l <= length zs)%nat.
Proof.
  intros H. apply NoDup_bounded_length; [apply (lr_nodup _ _ _ H)|].
  intros x Hx. eapply chain_bounded; [apply (lr_chain _ _ _ H)|exact Hx].
Qed.

Lemma list_repr_length_lt zs zl l i :
  list_repr zs zl l -> (i < length zs)%nat -> i ∉ l ->
  (length l < length zs)%nat.
Proof.
  intros H Hi Hni.
  assert (Hl : (length (i :: l) <= length zs)%nat).
  { apply NoDup_bounded_length.
    - apply NoDup_cons. split; [exact Hni|apply (lr_nodup _ _ _ H)].
    - intros x Hx. apply elem_of_cons in Hx as [->|Hx]; [exact Hi|].
      eapply chain_bounded; [apply (lr_chain _ _ _ H)|exact Hx]. }
  simpl in Hl. lia.
Qed.

(** ** The list primitives on sequences *)

(** Everything of the device but the zones and the list heads. *)
Definition dev_rest (s : zbc_dev) :=
  (geom s, realms s, nr_imp_open s, nr_exp_open s, nr_empty_zones s,
   stats s, bs s).

(** [s'] differs from [s] in links and list heads only. *)
Definition links_only (s s' : zbc_dev) : Prop :=
  dev_rest s' = dev_rest s /\
  zone_data <$> zones s' = zone_data <$> zones s.

Lemma links_only_refl s : links_only s s.
Proof. split; reflexivity. Qed.

Lemma links_only_trans s1 s2 s3 :
  links_only s1 s2 -> links_only s2 s3 -> links_only s1 s3.
Proof. intros [? ?] [? ?]. split; congruence. Qed.

Lemma get_set_list_eq L zl s : get_list (set_list L zl s) L = zl.
Proof. destruct L; reflexivity. Qed.

Lemma get_set_list_ne L L' zl s :
  L <> L' -> get_list (set_list L zl s) L' = get_list s L'.
Proof. destruct L, L'; try reflexivity; congruence. Qed.

Lemma zones_set_list L zl s : zones (set_list L zl s) = zones s.
Proof. destruct L; reflexivity. Qed.

Lemma get_list_set_zones L zs s : get_list (set_zones zs s) L = get_list s L.
Proof. destruct L; reflexivity. Qed.

Lemma dev_rest_set_list L zl s : dev_rest (set_list L zl s) = dev_rest s.
Proof. destruct L; reflexivity. Qed.

Lemma set_list_set_zones L zl zs s :
  set_list L zl (set_zones zs s) = set_zones zs (set_list L zl s).
Proof. destruct L; reflexivity. Qed.

Lemma zone_data_insert_links (zs : list zbc_zone) (i : nat) z z' :
  zs !! i = Some z -> zone_data z' = zone_data z ->
  zone_data <$> <[i := z']> zs = zone_data <$> zs.
Proof.
  intros Hz Hd. rewrite list_fmap_insert, Hd.
  apply list_insert_id. rewrite list_lookup_fmap, Hz. reflexivity.
Qed.

Lemma wrap32_index (i : nat) (zs : list zbc_zone) :
  Z.of_nat (length zs) <= UINT_MAX -> (i < length zs)%nat ->
  wrap32 (Z.of_nat i) = Z.of_nat i.
Proof. intros H Hi. apply wrap32_small. unfold UINT_MAX in H. lia. Qed.

Lemma index_not_nil (i : nat) (zs : list zbc_zone) :
  Z.of_nat (length zs) <= UINT_MAX -> (i < length zs)%nat ->
  Z.of_nat i <> ZBC_LIST_NIL.
Proof. unfold ZBC_LIST_NIL. lia. Qed.

Lemma hdZ_nil_iff l (zs : list zbc_zone) :
  Z.of_nat (length zs) <= UINT_MAX -> (forall x, x ∈ l -> (x < length zs)%nat) ->
  hdZ l ZBC_LIST_NIL = ZBC_LIST_NIL <-> l = [].
Proof.
  intros H Hb. destruct l as [|i l]; simpl; [tauto|]. split; [|discriminate].
  intros E. exfalso. apply (index_not_nil i zs H); [|exact E].
  apply Hb. left.
Qed.

(** The sequences after an insertion into / a removal from one of them. *)

(** Zones outside of the sequence do not matter (several updates). *)
Lemma chain_frame_gen (zs zs' : list zbc_zone) p l n :
  (forall j, j ∈ l -> zs' !! j = zs !! j) ->
  chain zs p l n -> chain zs' p l n.
Proof.
  revert p. induction l as [|i l IH]; intros p Hf H; simpl; [exact I|].
  destruct H as [(z & Hz & Hp & Hn) H]. split.
  - exists z. rewrite Hf by left. auto.
  - apply IH; [|exact H]. intros j Hj. apply Hf. right. exact Hj.
Qed.

Lemma links_only_cond s s' j zj' :
  links_only s s' -> zones s' !! j = Some zj' ->
  exists zj, zones s !! j = Some zj /\ zone_data zj = zone_data zj'.
Proof.
  intros [_ Hdata] Hj.
  assert (E : (zone_data <$> zones s') !! j = (zone_data <$> zones s) !! j)
    by (rewrite Hdata; reflexivity).
  rewrite !list_lookup_fmap, Hj in E. simpl in E.
  destruct (zones s !! j) as [zj|]; [|discriminate].
  exists zj. split; [reflexivity|]. simpl in E. congruence.
Qed.

Lemma links_only_length s s' :
  links_only s s' -> length (zones s') = length (zones s).
Proof.
  intros [_ Hdata]. apply (f_equal length) in Hdata.
  rewrite !length_fmap in Hdata. exact Hdata.
Qed.

Lemma zone_data_cond z z' : zone_data z = zone_data z' -> z_cond z = z_cond z'.
Proof. unfold zone_data. intros H. inversion H. reflexivity. Qed.

(** Two sequences of a well-formed device share no zone. *)
Lemma lists_ok_disjoint ex s A L L' x :
  lists_ok ex s A -> L <> L' -> x ∈ A L -> x ∉ A L'.
Proof.
  intros Hok Hne Hx Hx'.
  destruct (chain_lookup _ _ _ _ _ (lr_chain _ _ _ (lo_repr _ _ _ Hok L)) Hx)
    as [zx Hzx].
  assert (Hex : ex <> Some x).
  { intros E. apply (lo_ex _ _ _ Hok x L E Hx). }
  apply (lo_mem _ _ _ Hok x zx L Hzx Hex) in Hx.
  apply (lo_mem _ _ _ Hok x zx L' Hzx Hex) in Hx'. congruence.
Qed.

(** Linking the zone [i], which is in no sequence, into the sequence of
    its condition. *)
Lemma add_lists_ok s s' A L i z l' :
  lists_ok (Some i) s A ->
  zones s !! i = Some z ->
  cond_list (z_cond z) = Some L ->
  links_only s s' ->
  (forall x, x ∈ l' <-> x = i \/ x ∈ A L) ->
  (forall L', L' <> L -> get_list s' L' = get_list s L') ->
  list_repr (zones s') (get_list s' L) l' ->
  (forall j, j ∉ l' -> zones s' !! j = zones s !! j) ->
  lists_ok None s' (<[L := l']> A).
Proof.
  intros Hok Hz HL Hlk Hl' Hother Hrepr Hframe.
  assert (Hni : forall L', i ∉ A L').
  { intros L'. apply (lo_ex _ _ _ Hok). reflexivity. }
  constructor.
  - intros L'. destruct (decide (L = L')) as [<-|Hne].
    + rewrite fn_lookup_insert. exact Hrepr.
    + rewrite fn_lookup_insert_ne by exact Hne.
      rewrite Hother by congruence.
      destruct (lo_repr _ _ _ Hok L') as [H1 H2 H3 H4 H5].
      constructor; try assumption.
      apply (chain_frame_gen (zones s)); [|exact H4].
      intros j Hj. apply Hframe. intros Hj'. apply Hl' in Hj' as [->|Hj'].
      * apply (Hni L'). exact Hj.
      * apply (lists_ok_disjoint _ _ _ L L' j Hok Hne Hj' Hj).
  - intros j zj' L' Hj _.
    destruct (links_only_cond _ _ _ _ Hlk Hj) as (zj & Hzj & Hd).
    apply zone_data_cond in Hd. rewrite <- Hd.
    destruct (decide (j = i)) as [->|Hji].
    + rewrite Hz in Hzj. inversion Hzj; subst zj. rewrite HL.
      destruct (decide (L = L')) as [<-|Hne].
      * rewrite fn_lookup_insert. split; [reflexivity|].
        intros _. apply Hl'. left. reflexivity.
      * rewrite fn_lookup_insert_ne by exact Hne. split.
        -- intros Hx. exfalso. apply (Hni L'). exact Hx.
        -- intros E. congruence.
    + assert (Hex : Some i <> Some j) by congruence.
      rewrite <- (lo_mem _ _ _ Hok j zj L' Hzj Hex).
      destruct (decide (L = L')) as [<-|Hne].
      * rewrite fn_lookup_insert, Hl'. tauto.
      * rewrite fn_lookup_insert_ne by exact Hne. tauto.
  - intros j L' E. discriminate.
  - intros j zj' Hj Hout.
    assert (Hjl' : j ∉ l').
    { specialize (Hout L). rewrite fn_lookup_insert in Hout. exact Hout. }
    rewrite Hframe in Hj by exact Hjl'.
    apply (lo_out _ _ _ Hok j zj' Hj). intros L'.
    destruct (decide (L = L')) as [<-|Hne].
    + intros Hx. apply Hjl'. apply Hl'. right. exact Hx.
    + specialize (Hout L'). rewrite fn_lookup_insert_ne in Hout by exact Hne.
      exact Hout.
  - rewrite (links_only_length _ _ Hlk). apply (lo_len _ _ _ Hok).
Qed.

Lemma zones_list_incr L s : zones (list_incr L s) = zones s.
Proof. destruct L; reflexivity. Qed.

Lemma dev_rest_list_incr L s : dev_rest (list_incr L s) = dev_rest s.
Proof. destruct L; reflexivity. Qed.

Lemma get_list_incr_eq L s :
  get_list (list_incr L s) L
  = mk_zone_list (zl_head (get_list s L)) (zl_tail (get_list s L))
                 (wrap32 (zl_size (get_list s L) + 1)).
Proof. destruct L; reflexivity. Qed.

Lemma get_list_incr_ne L L' s :
  L <> L' -> get_list (list_incr L s) L' = get_list s L'.
Proof. destruct L, L'; try reflexivity; congruence. Qed.

Lemma zones_set_zones zs s : zones (set_zones zs s) = zs.
Proof. reflexivity. Qed.

Lemma dev_rest_set_zones zs s : dev_rest (set_zones zs s) = dev_rest s.
Proof. reflexivity. Qed.

Create Rewrite HintDb dev.
#[global] Hint Rewrite get_set_list_eq zones_set_list get_list_set_zones
  dev_rest_set_list zones_list_incr dev_rest_list_incr get_list_incr_eq
  zones_set_zones dev_rest_set_zones : dev.

Lemma list_lookup_insert_same {X} (l : list X) (i : nat) (x y : X) :
  l !! i = Some y -> <[i := x]> l !! i = Some x.
Proof. intros H. apply list_lookup_insert_eq. eapply lookup_lt_Some, H. Qed.

Lemma snoc_or_nil {X} (l : list X) : l = [] \/ exists l' x, l = l' ++ [x].
Proof.
  induction l as [|a l IH] using rev_ind; [left; reflexivity|].
  right. eauto.
Qed.

(** [zbc_add_zone_tail] appends the zone to the sequence. *)
Lemma zbc_add_zone_tail_spec s A L i z :
  lists_ok (Some i) s A ->
  zones s !! i = Some z ->
  cond_list (z_cond z) = Some L ->
  exists s', zbc_add_zone_tail s L (Z.of_nat i) = Ok s' /\
             links_only s s' /\
             lists_ok None s' (<[L := A L ++ [i]]> A).
Proof.
  intros Hok Hz HL.
  assert (Hi : (i < length (zones s))%nat) by (eapply lookup_lt_Some, Hz).
  assert (Hni : forall L', i ∉ A L').
  { intros L'. apply (lo_ex _ _ _ Hok). reflexivity. }
  pose proof (lo_len _ _ _ Hok) as Hmax.
  destruct (lo_repr _ _ _ Hok L) as [Hhd Htl Hsz Hch Hnd].
  assert (Hlen : (length (A L) < length (zones s))%nat).
  { eapply list_repr_length_lt; [apply (lo_repr _ _ _ Hok L)|exact Hi|apply Hni]. }
  unfold zbc_add_zone_tail.
  rewrite (wrap32_index i (zones s) Hmax Hi).
  destruct (snoc_or_nil (A L)) as [EA|(l & t & EA)].
  - (* the list is empty *)
    rewrite EA in *. simpl in Hsz. rewrite Hsz. simpl.
    rewrite (upd_zone_nat i _ _ z) by (autorewrite with dev; exact Hz). simpl.
    rewrite (upd_zone_nat i _ _ (zone_set_prev ZBC_LIST_NIL z))
      by (simpl; autorewrite with dev; eapply list_lookup_insert_same, Hz).
    simpl. eexists. split; [reflexivity|].
    assert (Hlk : links_only s
      (list_incr L
         (set_zones
            (<[i:=zone_set_next ZBC_LIST_NIL (zone_set_prev ZBC_LIST_NIL z)]>
               (zones
                  (set_zones (<[i:=zone_set_prev ZBC_LIST_NIL z]>
                     (zones (set_list L
                        {| zl_head := Z.of_nat i; zl_tail := Z.of_nat i;
                           zl_size := 0 |} s)))
                     (set_list L
                        {| zl_head := Z.of_nat i; zl_tail := Z.of_nat i;
                           zl_size := 0 |} s))))
            (set_zones (<[i:=zone_set_prev ZBC_LIST_NIL z]>
               (zones (set_list L
                  {| zl_head := Z.of_nat i; zl_tail := Z.of_nat i;
                     zl_size := 0 |} s)))
               (set_list L
                  {| zl_head := Z.of_nat i; zl_tail := Z.of_nat i;
                     zl_size := 0 |} s))))).
    { split; autorewrite with dev; [reflexivity|].
      rewrite list_insert_insert_eq.
      apply (zone_data_insert_links _ _ z); [exact Hz|reflexivity]. }
    split; [exact Hlk|].
    eapply add_lists_ok; try eassumption.
    + intros x. rewrite EA. simpl. rewrite list_elem_of_singleton.
      rewrite elem_of_nil. tauto.
    + intros L' Hne. rewrite get_list_incr_ne by congruence.
      rewrite get_list_set_zones, get_list_set_zones.
      apply get_set_list_ne. congruence.
    + autorewrite with dev. rewrite list_insert_insert_eq.
      constructor; simpl; try reflexivity.
      * split; [|exact I]. eexists. split.
        -- eapply list_lookup_insert_same, Hz.
        -- split; reflexivity.
      * apply NoDup_singleton.
    + intros j Hj. autorewrite with dev. rewrite list_insert_insert_eq.
      apply list_lookup_insert_ne. intros ->. apply Hj. left.
  - (* the list has a tail *)
    rewrite EA in *. rewrite length_app in Hsz, Hlen. simpl in Hsz, Hlen.
    assert (Hsz0 : (zl_size (get_list s L) =? 0) = false).
    { apply Z.eqb_neq. lia. }
    rewrite Hsz0. rewrite lastZ_app in Htl. rewrite Htl.
    assert (Ht : exists zt, zones s !! t = Some zt).
    { eapply chain_lookup; [exact Hch|]. apply elem_of_app. right. left. }
    destruct Ht as [zt Hzt].
    assert (Hti : t <> i).
    { intros ->. apply (Hni L). rewrite EA. apply elem_of_app. right. left. }
    rewrite (upd_zone_nat t _ _ zt Hzt). simpl.
    rewrite (upd_zone_nat i _ _ z)
      by (simpl; rewrite list_lookup_insert_ne by exact Hti; exact Hz).
    simpl.
    rewrite (upd_zone_nat i _ _ (zone_set_prev (Z.of_nat t) z))
      by (simpl; eapply list_lookup_insert_same;
          rewrite list_lookup_insert_ne by exact Hti; exact Hz).
    simpl. eexists. split; [reflexivity|].
    rewrite list_insert_insert_eq.
    match goal with |- links_only s ?X /\ _ => set (s' := X) end.
    assert (Hzs' : zones s'
      = <[i := zone_set_next ZBC_LIST_NIL (zone_set_prev (Z.of_nat t) z)]>
          (<[t := zone_set_next (Z.of_nat i) zt]> (zones s))).
    { unfold s'. autorewrite with dev. reflexivity. }
    assert (Hlk : links_only s s').
    { split; [unfold s'; autorewrite with dev; reflexivity|].
      rewrite Hzs'.
      rewrite (zone_data_insert_links _ i z);
        [|rewrite list_lookup_insert_ne by exact Hti; exact Hz|reflexivity].
      apply (zone_data_insert_links _ t zt); [exact Hzt|reflexivity]. }
    split; [exact Hlk|].
    eapply add_lists_ok; try eassumption.
    + intros x. rewrite EA. rewrite !elem_of_app, !list_elem_of_singleton. tauto.
    + intros L' Hne. unfold s'. rewrite get_list_incr_ne by congruence.
      rewrite get_set_list_ne by congruence.
      rewrite !get_list_set_zones. reflexivity.
    + rewrite Hzs'. unfold s'. rewrite get_list_incr_eq.
      rewrite get_set_list_eq. simpl.
      constructor; simpl.
      * rewrite Hhd. destruct l; reflexivity.
      * rewrite lastZ_app. reflexivity.
      * rewrite Hsz, !length_app. simpl.
        rewrite wrap32_small by (unfold UINT_MAX in Hmax; lia). lia.
      * apply chain_app. split.
        -- simpl. apply chain_frame.
           ++ rewrite <- EA. apply Hni.
           ++ eapply chain_set_next; eassumption.
        -- simpl. split; [|exact I]. eexists. split.
           ++ eapply list_lookup_insert_same.
              rewrite list_lookup_insert_ne by exact Hti. exact Hz.
           ++ simpl. rewrite lastZ_app. split; reflexivity.
      * apply NoDup_app. split; [exact Hnd|]. split; [|apply NoDup_singleton].
        intros x Hx Hx'. apply list_elem_of_singleton in Hx'. subst x.
        apply (Hni L). rewrite EA. exact Hx.
    + intros j Hj. rewrite Hzs'.
      rewrite !elem_of_app, !list_elem_of_singleton in Hj.
      rewrite !list_lookup_insert_ne by (intros ->; tauto). reflexivity.
Qed.

(** [zbc_add_zone_head] puts the zone in front of the sequence. *)
Lemma zbc_add_zone_head_spec s A L i z :
  lists_ok (Some i) s A ->
  zones s !! i = Some z ->
  cond_list (z_cond z) = Some L ->
  exists s', zbc_add_zone_head s L (Z.of_nat i) = Ok s' /\
             links_only s s' /\
             lists_ok None s' (<[L := i :: A L]> A).
Proof.
  intros Hok Hz HL.
  assert (Hi : (i < length (zones s))%nat) by (eapply lookup_lt_Some, Hz).
  assert (Hni : forall L', i ∉ A L').
  { intros L'. apply (lo_ex _ _ _ Hok). reflexivity. }
  pose proof (lo_len _ _ _ Hok) as Hmax.
  destruct (lo_repr _ _ _ Hok L) as [Hhd Htl Hsz Hch Hnd].
  assert (Hlen : (length (A L) < length (zones s))%nat).
  { eapply list_repr_length_lt; [apply (lo_repr _ _ _ Hok L)|exact Hi|apply Hni]. }
  unfold zbc_add_zone_head.
  rewrite (wrap32_index i (zones s) Hmax Hi).
  destruct (A L) as [|h l] eqn:EA.
  - (* the list is empty *)
    simpl in Hsz. rewrite Hsz. simpl.
    rewrite (upd_zone_nat i _ _ z) by (autorewrite with dev; exact Hz). simpl.
    rewrite (upd_zone_nat i _ _ (zone_set_prev ZBC_LIST_NIL z))
      by (simpl; autorewrite with dev; eapply list_lookup_insert_same, Hz).
    simpl. eexists. split; [reflexivity|].
    match goal with |- links_only s ?X /\ _ => set (s' := X) end.
    assert (Hzs' : zones s'
      = <[i := zone_set_next ZBC_LIST_NIL (zone_set_prev ZBC_LIST_NIL z)]>
          (zones s)).
    { unfold s'. autorewrite with dev. apply list_insert_insert_eq. }
    assert (Hlk : links_only s s').
    { split; [unfold s'; autorewrite with dev; reflexivity|].
      rewrite Hzs'.
      apply (zone_data_insert_links _ _ z); [exact Hz|reflexivity]. }
    split; [exact Hlk|].
    eapply add_lists_ok; try eassumption.
    + intros x. rewrite EA. rewrite list_elem_of_singleton, elem_of_nil. tauto.
    + intros L' Hne. unfold s'. rewrite get_list_incr_ne by congruence.
      rewrite get_list_set_zones, get_list_set_zones.
      apply get_set_list_ne. congruence.
    + rewrite Hzs'. unfold s'. autorewrite with dev.
      constructor; simpl; try reflexivity.
      * split; [|exact I]. eexists. split.
        -- eapply list_lookup_insert_same, Hz.
        -- split; reflexivity.
      * apply NoDup_singleton.
    + intros j Hj. rewrite Hzs'.
      apply list_lookup_insert_ne. intros ->. apply Hj. left.
  - (* the list has a head *)
    simpl in Hsz, Hlen, Hhd.
    assert (Hsz0 : (zl_size (get_list s L) =? 0) = false).
    { apply Z.eqb_neq. lia. }
    rewrite Hsz0. rewrite Hhd.
    destruct Hch as [(zh & Hzh & Hph & Hnh) Hch].
    assert (Hhi : h <> i).
    { intros ->. apply (Hni L). rewrite EA. left. }
    apply NoDup_cons in Hnd as [Hhl Hnd].
    rewrite (upd_zone_nat h _ _ zh Hzh). simpl.
    rewrite (upd_zone_nat i _ _ z)
      by (simpl; rewrite list_lookup_insert_ne by exact Hhi; exact Hz).
    simpl.
    rewrite (upd_zone_nat i _ _ (zone_set_next (Z.of_nat h) z))
      by (simpl; eapply list_lookup_insert_same;
          rewrite list_lookup_insert_ne by exact Hhi; exact Hz).
    simpl. eexists. split; [reflexivity|].
    rewrite list_insert_insert_eq.
    match goal with |- links_only s ?X /\ _ => set (s' := X) end.
    assert (Hzs' : zones s'
      = <[i := zone_set_prev ZBC_LIST_NIL (zone_set_next (Z.of_nat h) z)]>
          (<[h := zone_set_prev (Z.of_nat i) zh]> (zones s))).
    { unfold s'. autorewrite with dev. reflexivity. }
    assert (Hlk : links_only s s').
    { split; [unfold s'; autorewrite with dev; reflexivity|].
      rewrite Hzs'.
      rewrite (zone_data_insert_links _ i z);
        [|rewrite list_lookup_insert_ne by exact Hhi; exact Hz|reflexivity].
      apply (zone_data_insert_links _ h zh); [exact Hzh|reflexivity]. }
    split; [exact Hlk|].
    eapply add_lists_ok; try eassumption.
    + intros x. rewrite EA. rewrite !elem_of_cons. tauto.
    + intros L' Hne. unfold s'. rewrite get_list_incr_ne by congruence.
      rewrite get_set_list_ne by congruence.
      rewrite !get_list_set_zones. reflexivity.
    + rewrite Hzs'. unfold s'. rewrite get_list_incr_eq.
      rewrite get_set_list_eq. simpl.
      constructor; simpl.
      * reflexivity.
      * rewrite Htl, !lastZ_cons. reflexivity.
      * rewrite Hsz.
        rewrite wrap32_small by (unfold UINT_MAX in Hmax; lia). lia.
      * split.
        -- eexists. split.
           ++ eapply list_lookup_insert_same.
              rewrite list_lookup_insert_ne by exact Hhi. exact Hz.
           ++ simpl. split; reflexivity.
        -- apply (chain_frame _ (Z.of_nat i) (h :: l) ZBC_LIST_NIL).
           ++ rewrite <- EA. apply Hni.
           ++ apply (chain_set_prev _ ZBC_LIST_NIL); [exact Hhl|exact Hzh|].
              simpl. split; [|exact Hch]. exists zh. auto.
      * apply NoDup_cons. split; [rewrite <- EA; apply Hni|].
        apply NoDup_cons. split; assumption.
    + intros j Hj. rewrite Hzs'.
      rewrite !elem_of_cons in Hj.
      rewrite !list_lookup_insert_ne by (intros ->; tauto). reflexivity.
Qed.

(** Taking the zone [i] out of its sequence. *)
Lemma remove_lists_ok s s' A L i l1 l2 :
  lists_ok None s A ->
  A L = l1 ++ i :: l2 ->
  links_only s s' ->
  (forall L', L' <> L -> get_list s' L' = get_list s L') ->
  list_repr (zones s') (get_list s' L) (l1 ++ l2) ->
  (forall j, j ∉ A L -> zones s' !! j = zones s !! j) ->
  (forall zi, zones s' !! i = Some zi -> z_prev zi = 0 /\ z_next zi = 0) ->
  lists_ok (Some i) s' (<[L := l1 ++ l2]> A).
Proof.
  intros Hok EA Hlk Hother Hrepr Hframe Hzi.
  pose proof (lr_nodup _ _ _ (lo_repr _ _ _ Hok L)) as Hnd.
  rewrite EA in Hnd. apply NoDup_app in Hnd as (Hnd1 & Hdis & Hnd2).
  apply NoDup_cons in Hnd2 as [Hi2 Hnd2].
  assert (Hi1 : i ∉ l1).
  { intros Hin. apply (Hdis i Hin). left. }
  assert (HiL : i ∈ A L).
  { rewrite EA. apply elem_of_app. right. left. }
  assert (Hmem : forall x, x ∈ l1 ++ l2 <-> x ∈ A L /\ x <> i).
  { intros x. rewrite EA, !elem_of_app, elem_of_cons. split.
    - intros [Hx|Hx]; (split; [tauto|intros ->; tauto]).
    - tauto. }
  constructor.
  - intros L'. destruct (decide (L = L')) as [<-|Hne].
    + rewrite fn_lookup_insert. exact Hrepr.
    + rewrite fn_lookup_insert_ne by exact Hne.
      rewrite Hother by congruence.
      destruct (lo_repr _ _ _ Hok L') as [H1 H2 H3 H4 H5].
      constructor; try assumption.
      apply (chain_frame_gen (zones s)); [|exact H4].
      intros j Hj. apply Hframe. intros Hj'.
      apply (lists_ok_disjoint _ _ _ L L' j Hok Hne Hj' Hj).
  - intros j zj' L' Hj Hex.
    destruct (links_only_cond _ _ _ _ Hlk Hj) as (zj & Hzj & Hd).
    apply zone_data_cond in Hd. rewrite <- Hd.
    assert (Hn : None <> Some j) by discriminate.
    rewrite <- (lo_mem _ _ _ Hok j zj L' Hzj Hn).
    destruct (decide (L = L')) as [<-|Hne].
    + rewrite fn_lookup_insert, Hmem. split; [tauto|].
      intros Hx. split; [exact Hx|]. congruence.
    + rewrite fn_lookup_insert_ne by exact Hne. tauto.
  - intros j L' E. inversion E; subst j.
    destruct (decide (L = L')) as [<-|Hne].
    + rewrite fn_lookup_insert, Hmem. tauto.
    + rewrite fn_lookup_insert_ne by exact Hne.
      apply (lists_ok_disjoint _ _ _ L L' i Hok Hne HiL).
  - intros j zj' Hj Hout.
    destruct (decide (j = i)) as [->|Hji]; [apply Hzi; exact Hj|].
    assert (HjL : j ∉ A L).
    { specialize (Hout L). rewrite fn_lookup_insert, Hmem in Hout. tauto. }
    rewrite Hframe in Hj by exact HjL.
    apply (lo_out _ _ _ Hok j zj' Hj). intros L'.
    destruct (decide (L = L')) as [<-|Hne]; [exact HjL|].
    specialize (Hout L'). rewrite fn_lookup_insert_ne in Hout by exact Hne.
    exact Hout.
  - rewrite (links_only_length _ _ Hlk). apply (lo_len _ _ _ Hok).
Qed.

Lemma hdZ_index_ne (l : list nat) (i : nat) (zs : list zbc_zone) :
  Z.of_nat (length zs) <= UINT_MAX -> (i < length zs)%nat ->
  i ∉ l -> hdZ l ZBC_LIST_NIL <> Z.of_nat i.
Proof.
  intros Hmax Hi Hl. destruct l as [|h l]; simpl.
  - intros E. symmetry in E. revert E. apply (index_not_nil i zs Hmax Hi).
  - intros E. apply Nat2Z.inj in E. subst h. apply Hl. left.
Qed.

Lemma lastZ_index_ne (l : list nat) (i : nat) (zs : list zbc_zone) :
  Z.of_nat (length zs) <= UINT_MAX -> (i < length zs)%nat ->
  i ∉ l -> lastZ l ZBC_LIST_NIL <> Z.of_nat i.
Proof.
  intros Hmax Hi Hl. destruct (snoc_or_nil l) as [->|(l' & t & ->)].
  - unfold lastZ. simpl.
    intros E. symmetry in E. revert E. apply (index_not_nil i zs Hmax Hi).
  - rewrite lastZ_app. intros E. apply Nat2Z.inj in E. subst t.
    apply Hl. apply elem_of_app. right. left.
Qed.

Lemma lastZ_app_cons l1 i l2 p :
  lastZ (l1 ++ i :: l2) p = lastZ l2 (Z.of_nat i).
Proof.
  induction l1 as [|a l1 IH] in p |- *; simpl.
  - apply lastZ_cons.
  - rewrite lastZ_cons. apply IH.
Qed.

Lemma hdZ_app_cons l1 i l2 n :
  hdZ (l1 ++ i :: l2) n = hdZ l1 (Z.of_nat i).
Proof. destruct l1; reflexivity. Qed.

Lemma zone_at_nat_Ok s (i : nat) z :
  zones s !! i = Some z -> zone_at s (Z.of_nat i) = Ok z.
Proof. apply zone_at_nat. Qed.

(** [zbc_remove_zone] takes the zone out of the sequence. *)
Lemma zbc_remove_zone_spec s A L i l1 l2 :
  lists_ok None s A ->
  A L = l1 ++ i :: l2 ->
  exists s', zbc_remove_zone s L (Z.of_nat i) = Ok s' /\
             links_only s s' /\
             lists_ok (Some i) s' (<[L := l1 ++ l2]> A).
Proof.
  intros Hok EA.
  pose proof (lo_len _ _ _ Hok) as Hmax.
  destruct (lo_repr _ _ _ Hok L) as [Hhd Htl Hsz Hch Hnd].
  rewrite EA in Hhd, Htl, Hsz, Hch, Hnd.
  rewrite hdZ_app_cons in Hhd. rewrite lastZ_app_cons in Htl.
  rewrite length_app in Hsz. simpl in Hsz.
  pose proof (list_repr_length _ _ _ (lo_repr _ _ _ Hok L)) as Hlen.
  rewrite EA, length_app in Hlen. simpl in Hlen.
  apply chain_app in Hch as [Hch1 Hch2]. simpl in Hch1.
  destruct Hch2 as [(zi & Hzi & Hpi & Hni) Hch2].
  assert (Hi : (i < length (zones s))%nat) by (eapply lookup_lt_Some, Hzi).
  pose proof Hnd as Hnd'.
  apply NoDup_app in Hnd as (Hnd1 & Hdis & Hnd2).
  apply NoDup_cons in Hnd2 as [Hi2 Hnd2].
  assert (Hi1 : i ∉ l1).
  { intros Hin. apply (Hdis i Hin). left. }
  assert (Hsz' : wrap32 (zl_size (get_list s L) - 1)
                 = Z.of_nat (length l1 + length l2)).
  { rewrite Hsz. rewrite wrap32_small by (unfold UINT_MAX in Hmax; lia). lia. }
  unfold zbc_remove_zone.
  rewrite (wrap32_index i (zones s) Hmax Hi), Hsz'.
  assert (Hfin : forall s1 zi1 zs1,
            zones s1 = zs1 -> zs1 !! i = Some zi1 ->
            (upd_zone (Z.of_nat i) (zone_set_next 0) s1
               ≫= upd_zone (Z.of_nat i) (zone_set_prev 0))
            = Ok (set_zones
                    (<[i := zone_set_prev 0 (zone_set_next 0 zi1)]> zs1) s1)).
  { intros s1 zi1 zs1 <- Hz1.
    rewrite (upd_zone_nat i _ _ zi1 Hz1). simpl.
    rewrite (upd_zone_nat i _ _ (zone_set_next 0 zi1))
      by (simpl; eapply list_lookup_insert_same, Hz1).
    simpl. rewrite list_insert_insert_eq. reflexivity. }
  assert (Hzi0 : forall (zs1 : list zbc_zone) zi1 zi',
            zs1 !! i = Some zi1 ->
            <[i := zone_set_prev 0 (zone_set_next 0 zi1)]> zs1 !! i = Some zi' ->
            z_prev zi' = 0 /\ z_next zi' = 0).
  { intros zs1 zi1 zi' H1 H2.
    rewrite (list_lookup_insert_same _ _ _ _ H1) in H2. inversion H2; subst zi'.
    split; reflexivity. }
  destruct (snoc_or_nil l1) as [->|(l1' & t & ->)]; destruct l2 as [|h l2'].
  - (* the only zone of the list *)
    simpl. simpl in Hpi, Hni.
    erewrite Hfin; [|autorewrite with dev; reflexivity|exact Hzi].
    eexists. split; [reflexivity|].
    match goal with |- links_only s ?X /\ _ => set (s' := X) end.
    assert (Hlk : links_only s s').
    { split; [unfold s'; simpl; autorewrite with dev; reflexivity|].
      unfold s'. autorewrite with dev.
      apply (zone_data_insert_links _ _ zi); [exact Hzi|reflexivity]. }
    split; [exact Hlk|].
    apply (remove_lists_ok s s' A L i [] []); try assumption.
    + intros L' Hne. unfold s'. rewrite get_list_set_zones.
      rewrite !get_set_list_ne by congruence. reflexivity.
    + unfold s'. autorewrite with dev.
      constructor; simpl; try reflexivity. apply NoDup_nil_2.
    + intros j Hj. unfold s'. autorewrite with dev.
      apply list_lookup_insert_ne. intros ->. apply Hj. rewrite EA. left.
    + unfold s'. autorewrite with dev. intros zi'. apply Hzi0. exact Hzi.
  - (* the head of the list *)
    simpl in Hpi, Hni, Hhd, Hlen.
    assert (Hn0 : (Z.of_nat (length (@nil nat) + length (h :: l2')) =? 0) = false)
      by (apply Z.eqb_neq; simpl; lia).
    rewrite Hn0, Hhd, Z.eqb_refl.
    rewrite (zone_at_nat_Ok _ i zi) by (autorewrite with dev; exact Hzi).
    simpl. rewrite Hni.
    destruct Hch2 as [(zh & Hzh & Hph & Hnh) Hch2].
    apply NoDup_cons in Hnd2 as [Hhl Hnd2].
    assert (Hhi : h <> i) by (intros ->; apply Hi2; left).
    rewrite (upd_zone_nat h _ _ zh) by (autorewrite with dev; exact Hzh).
    simpl.
    erewrite Hfin; [|autorewrite with dev; reflexivity|
                    rewrite list_lookup_insert_ne by exact Hhi; exact Hzi].
    eexists. split; [reflexivity|].
    match goal with |- links_only s ?X /\ _ => set (s' := X) end.
    assert (Hzs' : zones s'
      = <[i := zone_set_prev 0 (zone_set_next 0 zi)]>
          (<[h := zone_set_prev ZBC_LIST_NIL zh]> (zones s))).
    { unfold s'. autorewrite with dev. reflexivity. }
    assert (Hlk : links_only s s').
    { split; [unfold s'; simpl; autorewrite with dev; reflexivity|].
      rewrite Hzs'.
      rewrite (zone_data_insert_links _ i zi);
        [|rewrite list_lookup_insert_ne by exact Hhi; exact Hzi|reflexivity].
      apply (zone_data_insert_links _ h zh); [exact Hzh|reflexivity]. }
    split; [exact Hlk|].
    apply (remove_lists_ok s s' A L i [] (h :: l2')); try assumption.
    + intros L' Hne. unfold s'. rewrite !get_list_set_zones.
      rewrite !get_set_list_ne by congruence. reflexivity.
    + rewrite Hzs'. unfold s'. autorewrite with dev.
      constructor; simpl.
      * reflexivity.
      * rewrite Htl, !lastZ_cons. reflexivity.
      * reflexivity.
      * apply (chain_frame _ ZBC_LIST_NIL (h :: l2') ZBC_LIST_NIL);
          [exact Hi2|].
        apply (chain_set_prev _ (Z.of_nat i)); [exact Hhl|exact Hzh|].
        simpl. split; [|exact Hch2]. exists zh. auto.
      * apply NoDup_cons. split; assumption.
    + intros j Hj. rewrite Hzs'. rewrite EA in Hj. simpl in Hj.
      rewrite !elem_of_cons in Hj.
      rewrite !list_lookup_insert_ne by (intros ->; tauto). reflexivity.
    + rewrite Hzs'. intros zi'. apply Hzi0.
      rewrite list_lookup_insert_ne by exact Hhi. exact Hzi.
  - (* the tail of the list *)
    rewrite lastZ_app in Hpi. simpl in Hni, Htl.
    rewrite length_app in Hlen. simpl in Hlen.
    assert (Hn0 : (Z.of_nat (length (l1' ++ [t]) + length (@nil nat)) =? 0) = false)
      by (apply Z.eqb_neq; rewrite length_app; simpl; lia).
    rewrite Hn0, Hhd, Htl, Z.eqb_refl.
    assert (Hhne : (Z.of_nat i =? hdZ (l1' ++ [t]) (Z.of_nat i)) = false).
    { apply Z.eqb_neq. intros E. destruct l1' as [|a l1'']; simpl in E.
      - apply Nat2Z.inj in E. subst t. apply Hi1. left.
      - apply Nat2Z.inj in E. subst a. apply Hi1. left. }
    rewrite Hhne.
    rewrite (zone_at_nat_Ok _ i zi) by (autorewrite with dev; exact Hzi).
    simpl. rewrite Hpi.
    assert (Hti : t <> i).
    { intros ->. apply Hi1. apply elem_of_app. right. left. }
    assert (Ht : exists zt, zones s !! t = Some zt).
    { eapply chain_lookup; [exact Hch1|]. apply elem_of_app. right. left. }
    destruct Ht as [zt Hzt].
    rewrite (upd_zone_nat t _ _ zt) by (autorewrite with dev; exact Hzt).
    simpl.
    erewrite Hfin; [|autorewrite with dev; reflexivity|
                    rewrite list_lookup_insert_ne by exact Hti; exact Hzi].
    eexists. split; [reflexivity|].
    match goal with |- links_only s ?X /\ _ => set (s' := X) end.
    assert (Hzs' : zones s'
      = <[i := zone_set_prev 0 (zone_set_next 0 zi)]>
          (<[t := zone_set_next ZBC_LIST_NIL zt]> (zones s))).
    { unfold s'. autorewrite with dev. reflexivity. }
    assert (Hlk : links_only s s').
    { split; [unfold s'; simpl; autorewrite with dev; reflexivity|].
      rewrite Hzs'.
      rewrite (zone_data_insert_links _ i zi);
        [|rewrite list_lookup_insert_ne by exact Hti; exact Hzi|reflexivity].
      apply (zone_data_insert_links _ t zt); [exact Hzt|reflexivity]. }
    split; [exact Hlk|].
    apply (remove_lists_ok s s' A L i (l1' ++ [t]) []); try assumption.
    + intros L' Hne. unfold s'. rewrite !get_list_set_zones.
      rewrite !get_set_list_ne by congruence. reflexivity.
    + rewrite Hzs'. unfold s'. autorewrite with dev. rewrite app_nil_r.
      constructor; simpl.
      * destruct l1'; reflexivity.
      * rewrite lastZ_app. reflexivity.
      * rewrite length_app. simpl. f_equal. lia.
      * apply chain_frame; [exact Hi1|].
        eapply chain_set_next; eassumption.
      * exact Hnd1.
    + intros j Hj. rewrite Hzs'. rewrite EA in Hj.
      rewrite !elem_of_app, !elem_of_cons in Hj.
      rewrite !list_lookup_insert_ne by (intros ->; tauto). reflexivity.
    + rewrite Hzs'. intros zi'. apply Hzi0.
      rewrite list_lookup_insert_ne by exact Hti. exact Hzi.
  - (* a zone in the middle of the list *)
    rewrite lastZ_app in Hpi. simpl in Hni.
    rewrite length_app in Hlen. simpl in Hlen.
    assert (Hn0 : (Z.of_nat (length (l1' ++ [t]) + length (h :: l2')) =? 0)
                  = false)
      by (apply Z.eqb_neq; rewrite length_app; simpl; lia).
    rewrite Hn0, Hhd, Htl.
    assert (Hhne : (Z.of_nat i =? hdZ (l1' ++ [t]) (Z.of_nat i)) = false).
    { apply Z.eqb_neq. intros E. destruct l1' as [|a l1'']; simpl in E.
      - apply Nat2Z.inj in E. subst t. apply Hi1. left.
      - apply Nat2Z.inj in E. subst a. apply Hi1. left. }
    assert (Htne : (Z.of_nat i =? lastZ (h :: l2') (Z.of_nat i)) = false).
    { apply Z.eqb_neq. intros E. rewrite lastZ_cons in E.
      destruct (snoc_or_nil l2') as [->|(l2'' & b & ->)].
      - unfold lastZ in E. simpl in E. apply Nat2Z.inj in E. subst h.
        apply Hi2. left.
      - rewrite lastZ_app in E. apply Nat2Z.inj in E. subst b.
        apply Hi2. right. apply elem_of_app. right. left. }
    rewrite Hhne, Htne.
    rewrite (zone_at_nat_Ok _ i zi) by (autorewrite with dev; exact Hzi).
    simpl. rewrite Hpi, Hni.
    assert (Hti : t <> i).
    { intros ->. apply Hi1. apply elem_of_app. right. left. }
    assert (Hhi : h <> i) by (intros ->; apply Hi2; left).
    assert (Hth : t <> h).
    { intros ->. apply (Hdis h).
      - apply elem_of_app. right. left.
      - right. left. }
    assert (Ht : exists zt, zones s !! t = Some zt).
    { eapply chain_lookup; [exact Hch1|]. apply elem_of_app. right. left. }
    destruct Ht as [zt Hzt].
    destruct Hch2 as [(zh & Hzh & Hph & Hnh) Hch2].
    apply NoDup_cons in Hnd2 as [Hhl Hnd2].
    rewrite (upd_zone_nat h _ _ zh) by (autorewrite with dev; exact Hzh).
    simpl.
    rewrite (zone_at_nat_Ok _ i zi)
      by (autorewrite with dev;
          rewrite list_lookup_insert_ne by exact Hhi; exact Hzi).
    simpl. rewrite Hpi, Hni.
    rewrite (upd_zone_nat t _ _ zt)
      by (autorewrite with dev;
          rewrite list_lookup_insert_ne by congruence; exact Hzt).
    simpl.
    erewrite Hfin; [|autorewrite with dev; reflexivity|
                    rewrite !list_lookup_insert_ne by congruence; exact Hzi].
    eexists. split; [reflexivity|].
    match goal with |- links_only s ?X /\ _ => set (s' := X) end.
    assert (Hzs' : zones s'
      = <[i := zone_set_prev 0 (zone_set_next 0 zi)]>
          (<[t := zone_set_next (Z.of_nat h) zt]>
             (<[h := zone_set_prev (Z.of_nat t) zh]> (zones s)))).
    { unfold s'. autorewrite with dev. reflexivity. }
    assert (Hlk : links_only s s').
    { split; [unfold s'; simpl; autorewrite with dev; reflexivity|].
      rewrite Hzs'.
      rewrite (zone_data_insert_links _ i zi);
        [|rewrite !list_lookup_insert_ne by congruence; exact Hzi|reflexivity].
      rewrite (zone_data_insert_links _ t zt);
        [|rewrite !list_lookup_insert_ne by congruence; exact Hzt|reflexivity].
      apply (zone_data_insert_links _ h zh); [exact Hzh|reflexivity]. }
    split; [exact Hlk|].
    assert (Hht : h ∉ l1' ++ [t]).
    { intros Hin. apply (Hdis h Hin). right. left. }
    assert (Htl2 : t ∉ h :: l2').
    { intros Hin. apply (Hdis t).
      - apply elem_of_app. right. left.
      - right. exact Hin. }
    apply (remove_lists_ok s s' A L i (l1' ++ [t]) (h :: l2')); try assumption.
    + intros L' Hne. unfold s'. rewrite !get_list_set_zones.
      rewrite !get_set_list_ne by congruence. reflexivity.
    + rewrite Hzs'. unfold s'. autorewrite with dev.
      constructor; simpl.
      * destruct l1'; reflexivity.
      * rewrite lastZ_app_cons. rewrite !lastZ_cons. reflexivity.
      * rewrite !length_app. simpl. f_equal.
      * apply chain_app. rewrite lastZ_app. split.
        -- apply chain_frame; [exact Hi1|].
           apply (chain_set_next _ _ _ _ (Z.of_nat i)).
           ++ exact Hnd1.
           ++ rewrite list_lookup_insert_ne by congruence. exact Hzt.
           ++ apply chain_frame; [exact Hht|exact Hch1].
        -- apply (chain_frame _ _ (h :: l2')); [exact Hi2|].
           apply (chain_frame _ _ (h :: l2')); [exact Htl2|].
           apply (chain_set_prev _ (Z.of_nat i)); [exact Hhl|exact Hzh|].
           simpl. split; [|exact Hch2]. exists zh. auto.
      * apply NoDup_app. split; [exact Hnd1|]. split.
        -- intros x Hx Hx'. apply (Hdis x Hx). right. exact Hx'.
        -- apply NoDup_cons. split; assumption.
    + intros j Hj. rewrite Hzs'. rewrite EA in Hj.
      rewrite !elem_of_app, !elem_of_cons in Hj.
      rewrite !list_lookup_insert_ne by (intros ->; tauto). reflexivity.
    + rewrite Hzs'. intros zi'. apply Hzi0.
      rewrite !list_lookup_insert_ne by congruence. exact Hzi.
Qed.

(** A sequence without the zone [i]. *)
Definition seq_del (i : nat) (l : list nat) : list nat :=
  filter (fun x => x <> i) l.

Lemma seq_del_not_in i l : i ∉ l -> seq_del i l = l.
Proof.
  intros Hi. unfold seq_del. induction l as [|a l IH]; [reflexivity|].
  apply not_elem_of_cons in Hi as [Hne Hi].
  rewrite filter_cons_True by congruence. rewrite IH by exact Hi. reflexivity.
Qed.

Lemma seq_del_split i l1 l2 :
  NoDup (l1 ++ i :: l2) -> seq_del i (l1 ++ i :: l2) = l1 ++ l2.
Proof.
  intros Hnd. apply NoDup_app in Hnd as (_ & Hdis & Hnd2).
  apply NoDup_cons in Hnd2 as [Hi2 _].
  unfold seq_del. rewrite filter_app, filter_cons_False by tauto.
  fold (seq_del i l1). fold (seq_del i l2).
  rewrite !seq_del_not_in; [reflexivity|exact Hi2|].
  intros Hin. apply (Hdis i Hin). left.
Qed.

Lemma elem_of_seq_del i l x : x ∈ seq_del i l <-> x ∈ l /\ x <> i.
Proof. unfold seq_del. rewrite list_elem_of_filter. tauto. Qed.

Lemma lists_ok_ext ex s A A' :
  (forall L, A L = A' L) -> lists_ok ex s A -> lists_ok ex s A'.
Proof.
  intros HA [H1 H2 H3 H4 H5]. constructor.
  - intros L. rewrite <- HA. apply H1.
  - intros i z L. rewrite <- HA. apply H2.
  - intros i L. rewrite <- HA. apply H3.
  - intros i z Hz Hout. apply (H4 i z Hz). intros L. rewrite HA. apply Hout.
  - exact H5.
Qed.

(** A zone of a sequence does not have two null links. *)
Lemma in_list_links ex s A L i z :
  lists_ok ex s A -> zones s !! i = Some z -> i ∈ A L ->
  zbc_zone_not_in_list z = false.
Proof.
  intros Hok Hz Hin.
  destruct (lo_repr _ _ _ Hok L) as [_ _ _ Hch Hnd].
  apply list_elem_of_split in Hin as (l1 & l2 & EA). rewrite EA in Hch, Hnd.
  apply chain_app in Hch as [_ [(z' & Hz' & Hp & Hn) _]].
  rewrite Hz in Hz'. inversion Hz'; subst z'.
  unfold zbc_zone_not_in_list. apply andb_false_iff.
  destruct (Z.eqb_spec (z_prev z) 0) as [E1|]; [|left; reflexivity].
  destruct (Z.eqb_spec (z_next z) 0) as [E2|]; [|right; reflexivity].
  exfalso. rewrite Hp in E1. rewrite Hn in E2.
  destruct (snoc_or_nil l1) as [->|(l1' & t & ->)].
  - unfold lastZ in E1. simpl in E1. discriminate.
  - rewrite lastZ_app in E1. destruct l2 as [|h l2']; simpl in E2.
    + discriminate.
    + assert (t = h) by lia. subst h.
      apply NoDup_app in Hnd as (_ & Hdis & _).
      apply (Hdis t).
      * apply elem_of_app. right. left.
      * right. left.
Qed.

(** [zbc_unlink_zone] takes the zone out of the sequence it is in. *)
Lemma zbc_unlink_zone_spec s A i z :
  lists_ok None s A ->
  zones s !! i = Some z ->
  exists s', zbc_unlink_zone s (Z.of_nat i) = Ok s' /\
             links_only s s' /\
             lists_ok (Some i) s' (fun L => seq_del i (A L)).
Proof.
  intros Hok Hz. unfold zbc_unlink_zone.
  rewrite (zone_at_nat_Ok _ _ _ Hz). simpl.
  assert (Hn : None <> Some i) by discriminate.
  destruct (zbc_zone_not_in_list z) eqn:Enl.
  - (* in no list *)
    exists s. split; [reflexivity|]. split; [apply links_only_refl|].
    assert (Hni : forall L, i ∉ A L).
    { intros L Hin. rewrite (in_list_links _ _ _ _ _ _ Hok Hz Hin) in Enl.
      discriminate. }
    apply (lists_ok_ext _ _ A).
    { intros L. symmetry. apply seq_del_not_in, Hni. }
    destruct Hok as [H1 H2 H3 H4 H5]. constructor; try assumption.
    + intros j zj L Hj Hex. apply H2; [exact Hj|discriminate].
    + intros j L E. inversion E; subst j. apply Hni.
  - (* in the list of its condition *)
    assert (Hin : exists L, i ∈ A L).
    { destruct (decide (i ∈ A imp_open_zones)); [eauto|].
      destruct (decide (i ∈ A exp_open_zones)); [eauto|].
      destruct (decide (i ∈ A closed_zones)); [eauto|].
      destruct (decide (i ∈ A seq_active_zones)); [eauto|].
      exfalso. destruct (lo_out _ _ _ Hok i z Hz) as [E1 E2].
      - intros []; assumption.
      - unfold zbc_zone_not_in_list in Enl. rewrite E1, E2 in Enl.
        discriminate. }
    destruct Hin as [L Hin].
    pose proof (proj1 (lo_mem _ _ _ Hok i z L Hz Hn) Hin) as HL.
    pose proof Hin as Hin'.
    apply list_elem_of_split in Hin' as (l1 & l2 & EA).
    destruct (zbc_remove_zone_spec s A L i l1 l2 Hok EA)
      as (s' & Hrm & Hlk & Hok').
    exists s'. split.
    { destruct (z_cond z); simpl in HL; inversion HL; subst L; exact Hrm. }
    split; [exact Hlk|].
    apply (lists_ok_ext _ _ (<[L := l1 ++ l2]> A)); [|exact Hok'].
    intros L'. destruct (decide (L = L')) as [<-|Hne].
    + rewrite fn_lookup_insert, EA. symmetry. apply seq_del_split.
      rewrite <- EA. apply (lr_nodup _ _ _ (lo_repr _ _ _ Hok L)).
    + rewrite fn_lookup_insert_ne by exact Hne. symmetry.
      apply seq_del_not_in.
      apply (lists_ok_disjoint _ _ _ L L' i Hok Hne Hin).
Qed.

(** ** Zone transitions on sequences *)

(** The data of all the zones. *)
Definition zdata (s : zbc_dev) := zone_data <$> zones s.

(** The sequences after the zone [x] has left its sequence and has been
    put at the head ([true]) or at the tail ([false]) of the list [T],
    if any. *)
Definition amove (x : nat) (T : option (zone_list_id * bool))
    (A : zone_list_id -> list nat) : zone_list_id -> list nat :=
  fun L =>
    match T with
    | Some (T, at_head) =>
        if decide (T = L)
        then (if at_head then x :: seq_del x (A L) else seq_del x (A L) ++ [x])
        else seq_del x (A L)
    | None => seq_del x (A L)
    end.

(** [lists_ok] depends on the zones and the list heads only. *)
Lemma lists_ok_rest ex s s' A :
  zones s' = zones s -> (forall L, get_list s' L = get_list s L) ->
  lists_ok ex s A -> lists_ok ex s' A.
Proof.
  intros Hz Hl [H1 H2 H3 H4 H5]. constructor; rewrite ?Hz; try assumption.
  intros L. rewrite Hl. apply H1.
Qed.

(** Writing data of the zone that is out of the lists. *)
Lemma lists_ok_upd_ex s A x z f :
  lists_ok (Some x) s A -> zones s !! x = Some z ->
  z_prev (f z) = z_prev z -> z_next (f z) = z_next z ->
  lists_ok (Some x) (set_zones (<[x := f z]> (zones s)) s) A.
Proof.
  intros [H1 H2 H3 H4 H5] Hz Hp Hn.
  assert (Hx : (x < length (zones s))%nat) by (eapply lookup_lt_Some, Hz).
  constructor; simpl.
  - intros L. rewrite get_list_set_zones.
    destruct (H1 L) as [G1 G2 G3 G4 G5]. constructor; try assumption.
    apply (chain_frame_gen (zones s)); [|exact G4].
    intros j Hj. apply list_lookup_insert_ne. intros <-.
    apply (H3 x L eq_refl Hj).
  - intros j zj L Hj Hex.
    rewrite list_lookup_insert_ne in Hj by congruence.
    apply H2; assumption.
  - exact H3.
  - intros j zj Hj Hout. destruct (decide (x = j)) as [<-|Hne].
    + rewrite list_lookup_insert_eq in Hj by exact Hx. inversion Hj; subst zj.
      rewrite Hp, Hn. apply (H4 x z Hz Hout).
    + rewrite list_lookup_insert_ne in Hj by exact Hne.
      apply (H4 j zj Hj Hout).
  - rewrite length_insert. exact H5.
Qed.

(** Writing data other than the condition of any zone. *)
Lemma lists_ok_upd_data ex s A x z f :
  lists_ok ex s A -> zones s !! x = Some z ->
  z_prev (f z) = z_prev z -> z_next (f z) = z_next z ->
  z_cond (f z) = z_cond z ->
  lists_ok ex (set_zones (<[x := f z]> (zones s)) s) A.
Proof.
  intros [H1 H2 H3 H4 H5] Hz Hp Hn Hc.
  assert (Hx : (x < length (zones s))%nat) by (eapply lookup_lt_Some, Hz).
  constructor; simpl.
  - intros L. rewrite get_list_set_zones.
    destruct (H1 L) as [G1 G2 G3 G4 G5]. constructor; try assumption.
    apply (chain_data (zones s)); [|exact G4].
    intros j zj Hj. destruct (decide (x = j)) as [<-|Hne].
    + exists (f z). rewrite list_lookup_insert_eq by exact Hx.
      rewrite Hz in Hj. inversion Hj; subst zj. auto.
    + exists zj. rewrite list_lookup_insert_ne by exact Hne. auto.
  - intros j zj L Hj Hex. destruct (decide (x = j)) as [<-|Hne].
    + rewrite list_lookup_insert_eq in Hj by exact Hx. inversion Hj; subst zj.
      rewrite Hc. apply H2; assumption.
    + rewrite list_lookup_insert_ne in Hj by exact Hne. apply H2; assumption.
  - exact H3.
  - intros j zj Hj Hout. destruct (decide (x = j)) as [<-|Hne].
    + rewrite list_lookup_insert_eq in Hj by exact Hx. inversion Hj; subst zj.
      rewrite Hp, Hn. apply (H4 x z Hz Hout).
    + rewrite list_lookup_insert_ne in Hj by exact Hne.
      apply (H4 j zj Hj Hout).
  - rewrite length_insert. exact H5.
Qed.

(** The zone that is out of the lists stays out when its condition has
    no list. *)
Lemma lists_ok_done s A x z :
  lists_ok (Some x) s A -> zones s !! x = Some z ->
  cond_list (z_cond z) = None ->
  lists_ok None s A.
Proof.
  intros [H1 H2 H3 H4 H5] Hz Hc. constructor; try assumption.
  - intros j zj L Hj _. destruct (decide (x = j)) as [<-|Hne].
    + rewrite Hz in Hj. inversion Hj; subst zj. rewrite Hc. split.
      * intros Hin. exfalso. apply (H3 x L eq_refl Hin).
      * discriminate.
    + apply H2; [exact Hj|congruence].
  - intros j L E. discriminate.
Qed.

Lemma seq_del_idem x l : seq_del x (seq_del x l) = seq_del x l.
Proof.
  apply seq_del_not_in. rewrite elem_of_seq_del. tauto.
Qed.

(** * Write rules of the first zone of a WRITE *)

(** The small host-managed device after FINISH ZONE of the zone at LBA 8:
    that zone is sequential write required and full. *)
Definition hm_full_dev : zbc_dev :=
  match zbc_out_zone hm_dev 8 0 ZBC_SA_FINISH_ZONE false with
  | Ok (_, s) => s
  | _ => hm_dev
  end.

(** A zone of that device. *)
Definition hm_full_zone (i : Z) : zbc_zone :=
  match zone_at hm_full_dev i with
  | Ok z => z
  | _ => zero_zone
  end.

(** A data-out buffer of [n] bytes. *)
Definition out_buf (n : nat) : list iovec := [mk_iovec (repeat 0 n) (Z.of_nat n)].

(** The first clause of the write rules as they are worded: a WRITE whose
    first zone is sequential write required and full ends with
    INVALID_FIELD_IN_CDB. *)
Definition write_to_full_is_invalid_field : Prop :=
  forall s iov lba len zi z r,
    zbc_mt_nz_t (dev_type (geom s)) = false ->
    zbc_get_zone s lba false = Ok (Some zi) -> zone_at s zi = Ok z ->
    z_type z = ZBC_ZONE_TYPE_SEQWRITE_REQ -> z_cond z = ZBC_ZONE_COND_FULL ->
    zbc_write s iov lba len = Ok r ->
    res_sts r = zbc_set_sense ILLEGAL_REQUEST ASC_INVALID_FIELD_IN_CDB.

(** The second clause as it is worded: a WRITE whose first zone is
    sequential write required and whose start LBA is not the write pointer
    ends with UNALIGNED_WRITE. *)
Definition write_off_wp_is_unaligned : Prop :=
  forall s iov lba len zi z r,
    zbc_mt_nz_t (dev_type (geom s)) = false ->
    zbc_get_zone s lba false = Ok (Some zi) -> zone_at s zi = Ok z ->
    z_type z = ZBC_ZONE_TYPE_SEQWRITE_REQ -> lba <> z_wp z ->
    zbc_write s iov lba len = Ok r ->
    res_sts r = zbc_set_sense ILLEGAL_REQUEST ASC_UNALIGNED_WRITE_COMMAND.

(** FINISH ZONE at LBA 8 of the fresh device succeeds. *)
Lemma hm_full_dev_finish :
  zbc_out_zone hm_dev 8 0 ZBC_SA_FINISH_ZONE false = Ok (TCMU_STS_OK, hm_full_dev).
Proof. vm_compute. reflexivity. Qed.

(** A WRITE of nine LBAs at LBA 8 starts in the full zone and crosses its
    end: it ends with WRITE_BOUNDARY_VIOLATION; a WRITE of one LBA at LBA 8
    is off the write pointer of the full zone, 16, and ends with
    INVALID_FIELD_IN_CDB. *)
Lemma write_to_full_zone_counterexample :
  exists z,
    zbc_get_zone hm_full_dev 8 false = Ok (Some 1) /\
    zone_at hm_full_dev 1 = Ok z /\
    z_type z = ZBC_ZONE_TYPE_SEQWRITE_REQ /\ z_cond z = ZBC_ZONE_COND_FULL /\
    8 <> z_wp z /\
    zbc_write hm_full_dev (out_buf 4608) 8 9
    = Ok (mk_result (zbc_set_sense ILLEGAL_REQUEST ASC_WRITE_BOUNDARY_VIOLATION)
                    (incr_write_rule_fails hm_full_dev) (out_buf 4608) []) /\
    zbc_write hm_full_dev (out_buf 512) 8 1
    = Ok (mk_result (zbc_set_sense ILLEGAL_REQUEST ASC_INVALID_FIELD_IN_CDB)
                    (incr_write_rule_fails hm_full_dev) (out_buf 512) []) /\
    ~ write_to_full_is_invalid_field /\ ~ write_off_wp_is_unaligned.
Proof.
  assert (Hnz : zbc_mt_nz_t (dev_type (geom hm_full_dev)) = false)
    by (vm_compute; reflexivity).
  assert (Hz : zone_at hm_full_dev 1 = Ok (hm_full_zone 1))
    by (vm_compute; reflexivity).
  assert (Hg : zbc_get_zone hm_full_dev 8 false = Ok (Some 1))
    by (vm_compute; reflexivity).
  assert (Ht : z_type (hm_full_zone 1) = ZBC_ZONE_TYPE_SEQWRITE_REQ)
    by (vm_compute; reflexivity).
  assert (Hc : z_cond (hm_full_zone 1) = ZBC_ZONE_COND_FULL)
    by (vm_compute; reflexivity).
  assert (Hne : 8 <> z_wp (hm_full_zone 1))
    by (vm_compute; discriminate).
  assert (Hw9 : zbc_write hm_full_dev (out_buf 4608) 8 9
    = Ok (mk_result (zbc_set_sense ILLEGAL_REQUEST ASC_WRITE_BOUNDARY_VIOLATION)
                    (incr_write_rule_fails hm_full_dev) (out_buf 4608) []))
    by (vm_compute; reflexivity).
  assert (Hw1 : zbc_write hm_full_dev (out_buf 512) 8 1
    = Ok (mk_result (zbc_set_sense ILLEGAL_REQUEST ASC_INVALID_FIELD_IN_CDB)
                    (incr_write_rule_fails hm_full_dev) (out_buf 512) []))
    by (vm_compute; reflexivity).
  exists (hm_full_zone 1).
  split; [exact Hg|]. split; [exact Hz|]. split; [exact Ht|].
  split; [exact Hc|]. split; [exact Hne|]. split; [exact Hw9|].
  split; [exact Hw1|]. split.
  - intros H.
    pose proof (H hm_full_dev (out_buf 4608) 8 9 1 _ _ Hnz Hg Hz Ht Hc Hw9) as E.
    clear - E. simpl in E. unfold zbc_set_sense in E. inversion E.
  - intros H.
    pose proof (H hm_full_dev (out_buf 512) 8 1 1 _ _ Hnz Hg Hz Ht Hne Hw1) as E.
    clear - E. simpl in E. unfold zbc_set_sense in E. inversion E.
Qed.

(** C4, amended: a WRITE to a zoned device that passes the range and
    buffer checks, whose first zone is not offline, inactive or read-only
    and, if it is sequential write required, is not left by the transfer,
    ends with INVALID_FIELD_IN_CDB if that zone is sequential write required and
    full; with UNALIGNED_WRITE if it is sequential write required, not full, and the
    start LBA is not its write pointer; with UNALIGNED_WRITE if it is
    sequential or before required, not full, and the start LBA is above its
    write pointer.  In each case the device is as before but for the
    counter of failed write rules, the buffers are untouched and no file
    system call has been made. *)
Theorem write_rule_failures (s : zbc_dev) (iov : list iovec) (lba len zi : Z)
    (z : zbc_zone) :
  zbc_mt_nz_t (dev_type (geom s)) = false ->
  zbc_check_rdwr s iov lba len = None ->
  zbc_get_zone s lba false = Ok (Some zi) -> zone_at s zi = Ok z ->
  zbc_zone_offline z = false -> zbc_zone_inactive z = false ->
  zbc_zone_rdonly z = false ->
  (zbc_zone_seq_req z = true ->
   wrap64 (lba + len) <= wrap64 (z_start z + z_len z)) ->
  let fails asc :=
    zbc_write s iov lba len
    = Ok (mk_result (zbc_set_sense ILLEGAL_REQUEST asc)
                    (incr_write_rule_fails s) iov []) in
  (zbc_zone_seq_req z = true -> zbc_zone_full z = true ->
   fails ASC_INVALID_FIELD_IN_CDB) /\
  (zbc_zone_seq_req z = true -> zbc_zone_full z = false -> lba <> z_wp z ->
   fails ASC_UNALIGNED_WRITE_COMMAND) /\
  (zbc_zone_sobr z = true -> zbc_zone_full z = false -> lba > z_wp z ->
   fails ASC_UNALIGNED_WRITE_COMMAND).
Proof.
  intros Hnz Hchk Hg Hz Hoff Hina Hro Hin fails.
  assert (Hstep : forall sk asc,
             zbc_zone_ok_to_write s z lba len (z_type z) = Some (sk, asc) ->
             zbc_write s iov lba len
             = Ok (mk_result (zbc_set_sense sk asc)
                             (incr_write_rule_fails s) iov [])).
  { intros sk asc Hok. unfold zbc_write, zbc_write_zoned.
    rewrite Hnz, Hchk. simpl.
    unfold zbc_rdwr_check_zones. simpl. rewrite Hg. simpl. rewrite Hz. simpl.
    rewrite Hok. reflexivity. }
  assert (Hty : bool_decide (z_type z = z_type z) = true)
    by (apply bool_decide_eq_true; reflexivity).
  unfold fails. repeat split.
  - intros Hsr Hfull. apply Hstep. unfold zbc_zone_ok_to_write.
    assert (Hgap : zbc_zone_gap z = false).
    { unfold zbc_zone_gap, zbc_zone_seq_req in *.
      apply bool_decide_eq_true in Hsr. apply bool_decide_eq_false. congruence. }
    rewrite Hgap, Hoff, Hina, Hro, Hty, Hsr, Hfull. simpl.
    specialize (Hin Hsr).
    replace (wrap64 (lba + len) >? wrap64 (z_start z + z_len z)) with false
      by (symmetry; rewrite Z.gtb_ltb; apply Z.ltb_ge; exact Hin).
    reflexivity.
  - intros Hsr Hfull Hne. apply Hstep. unfold zbc_zone_ok_to_write.
    assert (Hgap : zbc_zone_gap z = false).
    { unfold zbc_zone_gap, zbc_zone_seq_req in *.
      apply bool_decide_eq_true in Hsr. apply bool_decide_eq_false. congruence. }
    rewrite Hgap, Hoff, Hina, Hro, Hty, Hsr, Hfull. simpl.
    specialize (Hin Hsr).
    replace (wrap64 (lba + len) >? wrap64 (z_start z + z_len z)) with false
      by (symmetry; rewrite Z.gtb_ltb; apply Z.ltb_ge; exact Hin).
    replace (lba =? z_wp z) with false by (symmetry; apply Z.eqb_neq; exact Hne).
    reflexivity.
  - intros Hso Hfull Hgt. apply Hstep. unfold zbc_zone_ok_to_write.
    assert (Hgap : zbc_zone_gap z = false).
    { unfold zbc_zone_gap, zbc_zone_sobr in *.
      apply bool_decide_eq_true in Hso. apply bool_decide_eq_false. congruence. }
    assert (Hsr : zbc_zone_seq_req z = false).
    { unfold zbc_zone_seq_req, zbc_zone_sobr in *.
      apply bool_decide_eq_true in Hso. apply bool_decide_eq_false. congruence. }
    rewrite Hgap, Hoff, Hina, Hro, Hty, Hsr, Hso, Hfull. simpl.
    replace (lba >? z_wp z) with true
      by (symmetry; rewrite Z.gtb_ltb; apply Z.ltb_lt; lia).
    reflexivity.
Qed.

(** The three cases on the small device: the full zone at LBA 8, the empty
    zone at LBA 16 written at LBA 17. *)
Lemma write_rule_failures_witness :
  zbc_write hm_full_dev (out_buf 512) 8 1
  = Ok (mk_result (zbc_set_sense ILLEGAL_REQUEST ASC_INVALID_FIELD_IN_CDB)
                  (incr_write_rule_fails hm_full_dev) (out_buf 512) []) /\
  zbc_write hm_full_dev (out_buf 512) 17 1
  = Ok (mk_result (zbc_set_sense ILLEGAL_REQUEST ASC_UNALIGNED_WRITE_COMMAND)
                  (incr_write_rule_fails hm_full_dev) (out_buf 512) []).
Proof.
  assert (Hnz : zbc_mt_nz_t (dev_type (geom hm_full_dev)) = false)
    by (vm_compute; reflexivity).
  assert (Hchk : forall lba, lba = 8 \/ lba = 17 ->
            zbc_check_rdwr hm_full_dev (out_buf 512) lba 1 = None)
    by (intros lba [->| ->]; vm_compute; reflexivity).
  split.
  - assert (Hg : zbc_get_zone hm_full_dev 8 false = Ok (Some 1))
      by (vm_compute; reflexivity).
    assert (Hz : zone_at hm_full_dev 1 = Ok (hm_full_zone 1))
      by (vm_compute; reflexivity).
    assert (H1 : zbc_zone_offline (hm_full_zone 1) = false)
      by (vm_compute; reflexivity).
    assert (H2 : zbc_zone_inactive (hm_full_zone 1) = false)
      by (vm_compute; reflexivity).
    assert (H3 : zbc_zone_rdonly (hm_full_zone 1) = false)
      by (vm_compute; reflexivity).
    assert (H4 : zbc_zone_seq_req (hm_full_zone 1) = true ->
                 wrap64 (8 + 1)
                 <= wrap64 (z_start (hm_full_zone 1) + z_len (hm_full_zone 1)))
      by (intros _; vm_compute; discriminate).
    assert (H5 : zbc_zone_seq_req (hm_full_zone 1) = true)
      by (vm_compute; reflexivity).
    assert (H6 : zbc_zone_full (hm_full_zone 1) = true)
      by (vm_compute; reflexivity).
    exact (proj1 (write_rule_failures hm_full_dev (out_buf 512) 8 1 1
                    (hm_full_zone 1) Hnz (Hchk 8 (or_introl eq_refl)) Hg Hz
                    H1 H2 H3 H4) H5 H6).
  - assert (Hg : zbc_get_zone hm_full_dev 17 false = Ok (Some 2))
      by (vm_compute; reflexivity).
    assert (Hz : zone_at hm_full_dev 2 = Ok (hm_full_zone 2))
      by (vm_compute; reflexivity).
    assert (H1 : zbc_zone_offline (hm_full_zone 2) = false)
      by (vm_compute; reflexivity).
    assert (H2 : zbc_zone_inactive (hm_full_zone 2) = false)
      by (vm_compute; reflexivity).
    assert (H3 : zbc_zone_rdonly (hm_full_zone 2) = false)
      by (vm_compute; reflexivity).
    assert (H4 : zbc_zone_seq_req (hm_full_zone 2) = true ->
                 wrap64 (17 + 1)
                 <= wrap64 (z_start (hm_full_zone 2) + z_len (hm_full_zone 2)))
      by (intros _; vm_compute; discriminate).
    assert (H5 : zbc_zone_seq_req (hm_full_zone 2) = true)
      by (vm_compute; reflexivity).
    assert (H6 : zbc_zone_full (hm_full_zone 2) = false)
      by (vm_compute; reflexivity).
    assert (H7 : 17 <> z_wp (hm_full_zone 2))
      by (vm_compute; discriminate).
    exact (proj1 (proj2 (write_rule_failures hm_full_dev (out_buf 512) 17 1 2
                    (hm_full_zone 2) Hnz (Hchk 17 (or_intror eq_refl)) Hg Hz
                    H1 H2 H3 H4)) H5 H6 H7).
Defined.

(** * REPORT ZONES *)

(** ** Big-endian fields *)

(** The [n] bytes of [val], the most significant first. *)
Definition be_bytes (n : nat) (val : Z) : list Z :=
  map (fun k => Z.land (Z.shiftr val (8 * (Z.of_nat n - 1 - Z.of_nat k))) 255)
      (seq 0 n).

Definition zbc_cpbe16 (val : Z) : list Z := be_bytes 2 val.
Definition zbc_cpbe32 (val : Z) : list Z := be_bytes 4 val.
Definition zbc_cpbe48 (val : Z) : list Z := be_bytes 6 (Z.land val 0xffffffffffff).
Definition zbc_cpbe64 (val : Z) : list Z := be_bytes 8 val.

(** The number that a big-endian field holds. *)
Definition be_value (buf : list Z) : Z :=
  fold_left (fun acc b => acc * 256 + b) buf 0.

Definition zbc_rdbe32 (buf : list Z) : Z := be_value (take 4 buf).
Definition zbc_rdbe64 (buf : list Z) : Z := be_value (take 8 buf).

(** [memcpy(&data[off], bytes, ...)] on a local array. *)
Definition put (off : nat) (bytes data : list Z) : list Z :=
  take off data ++ bytes ++ drop (off + length bytes) data.

(** Modelled from the spec: the copy-into-iovec primitive of the target
    framework, [tcmu_memcpy_into_iovec].  It stores the bytes of [src]
    into the scatter list as far as there is room, advances the entries
    past the stored bytes and returns the number of bytes stored. *)
Fixpoint tcmu_memcpy_into_iovec (iov : list iovec) (src : list Z)
  : Z * list iovec :=
  match iov with
  | [] => (0, [])
  | v :: rest =>
      let len := Z.of_nat (length src) in
      if len =? 0 then (0, iov)
      else
        let to_copy := Z.min (iov_len v) len in
        if to_copy <=? 0 then
          let '(n, rest') := tcmu_memcpy_into_iovec rest src in
          (n, v :: rest')
        else
          let v' := mk_iovec (iov_base v ++ take (Z.to_nat to_copy) src)
                             (iov_len v - to_copy) in
          let '(n, rest') :=
            tcmu_memcpy_into_iovec rest (drop (Z.to_nat to_copy) src) in
          (to_copy + n, v' :: rest')
  end.

(** ** Reporting options *)

Definition ZBC_RZ_RO_ALL : Z := 0x00.
Definition ZBC_RZ_RO_EMPTY : Z := 0x01.
Definition ZBC_RZ_RO_IMP_OPEN : Z := 0x02.
Definition ZBC_RZ_RO_EXP_OPEN : Z := 0x03.
Definition ZBC_RZ_RO_CLOSED : Z := 0x04.
Definition ZBC_RZ_RO_FULL : Z := 0x05.
Definition ZBC_RZ_RO_READONLY : Z := 0x06.
Definition ZBC_RZ_RO_OFFLINE : Z := 0x07.
Definition ZBC_RZ_RO_INACTIVE : Z := 0x08.
Definition ZBC_RZ_RO_RWP_RECMND : Z := 0x10.
Definition ZBC_RZ_RO_NON_SEQ : Z := 0x11.
Definition ZBC_RZ_RO_GAP : Z := 0x3e.
Definition ZBC_RZ_RO_NOT_WP : Z := 0x3f.
Definition ZBC_RZ_RO_PARTIAL : Z := 0x80.

Definition ZBC_ZONE_DESCRIPTOR_OFFSET : Z := 64.
Definition ZBC_ZONE_DESCRIPTOR_LENGTH : Z := 64.

(** [zbc_should_report_zone]. *)
Definition zbc_should_report_zone (z : zbc_zone) (ro : Z) : bool :=
  let options := Z.land ro (wrap8 (Z.lnot ZBC_RZ_RO_PARTIAL)) in
  if options =? ZBC_RZ_RO_ALL then true
  else if options =? ZBC_RZ_RO_EMPTY then zbc_zone_empty z
  else if options =? ZBC_RZ_RO_IMP_OPEN then zbc_zone_imp_open z
  else if options =? ZBC_RZ_RO_EXP_OPEN then zbc_zone_exp_open z
  else if options =? ZBC_RZ_RO_CLOSED then zbc_zone_closed z
  else if options =? ZBC_RZ_RO_FULL then zbc_zone_full z
  else if options =? ZBC_RZ_RO_READONLY then zbc_zone_rdonly z
  else if options =? ZBC_RZ_RO_OFFLINE then zbc_zone_offline z
  else if options =? ZBC_RZ_RO_INACTIVE then zbc_zone_inactive z
  else if options =? ZBC_RZ_RO_RWP_RECMND then zbc_zone_rwp z
  else if options =? ZBC_RZ_RO_NON_SEQ then zbc_zone_non_seq z
  else if options =? ZBC_RZ_RO_GAP then zbc_zone_gap z
  else if options =? ZBC_RZ_RO_NOT_WP then zbc_zone_not_wp z
  else false.

(** The reporting options that [zbc_report_zones] lets through. *)
Definition rz_option_known (ro : Z) : bool :=
  (ro =? ZBC_RZ_RO_ALL) || (ro =? ZBC_RZ_RO_EMPTY)
  || (ro =? ZBC_RZ_RO_IMP_OPEN) || (ro =? ZBC_RZ_RO_EXP_OPEN)
  || (ro =? ZBC_RZ_RO_CLOSED) || (ro =? ZBC_RZ_RO_FULL)
  || (ro =? ZBC_RZ_RO_INACTIVE) || (ro =? ZBC_RZ_RO_READONLY)
  || (ro =? ZBC_RZ_RO_OFFLINE) || (ro =? ZBC_RZ_RO_RWP_RECMND)
  || (ro =? ZBC_RZ_RO_NON_SEQ) || (ro =? ZBC_RZ_RO_NOT_WP).

(** The first pass of [zbc_report_zones]: count the zones. *)
Fixpoint rz_count_loop (fuel : nat) (s : zbc_dev) (partial : bool)
    (ro zone lba len nr_zones : Z) : res Z :=
  if negb (lba <? logical_capacity (geom s)) then Ok nr_zones
  else
    match fuel with
    | O => Fuel
    | S fuel' =>
        z ← zone_at s zone;
        let lba' := wrap64 (z_start z + z_len z) in
        if zbc_should_report_zone z ro then
          if partial && (len <? ZBC_ZONE_DESCRIPTOR_LENGTH) then Ok nr_zones
          else
            let len' := if len >? ZBC_ZONE_DESCRIPTOR_LENGTH
                        then len - ZBC_ZONE_DESCRIPTOR_LENGTH else 0 in
            rz_count_loop fuel' s partial ro (zone + 1) lba' len'
                          (wrap32 (nr_zones + 1))
        else rz_count_loop fuel' s partial ro (zone + 1) lba' len nr_zones
    end.

(** The zone descriptor of REPORT ZONES. *)
Definition zone_descriptor (z : zbc_zone) : list Z :=
  let data := repeat 0 (Z.to_nat ZBC_ZONE_DESCRIPTOR_LENGTH) in
  let data := put 0 [Z.land (zone_type_code (z_type z)) 0x0f] data in
  let b1 := Z.land (Z.shiftl (zone_cond_code (z_cond z)) 4) 0xf0 in
  let b1 := if z_reset z then Z.lor b1 0x01 else b1 in
  let b1 := if z_non_seq z then Z.lor b1 0x02 else b1 in
  let data := put 1 [b1] data in
  let data := put 8 (zbc_cpbe64 (z_len z)) data in
  let data := put 16 (zbc_cpbe64 (z_start z)) data in
  put 24 (zbc_cpbe64 (z_wp z)) data.

(** The second pass: store the descriptors. *)
Fixpoint rz_emit_loop (fuel : nat) (s : zbc_dev) (ro zone lba len : Z)
    (iov : list iovec) : res (list iovec) :=
  if negb ((lba <? logical_capacity (geom s))
           && (len >=? ZBC_ZONE_DESCRIPTOR_LENGTH)) then Ok iov
  else
    match fuel with
    | O => Fuel
    | S fuel' =>
        z ← zone_at s zone;
        let lba' := wrap64 (z_start z + z_len z) in
        if zbc_should_report_zone z ro then
          let '(_, iov') := tcmu_memcpy_into_iovec iov (zone_descriptor z) in
          rz_emit_loop fuel' s ro (zone + 1) lba'
                       (wrap64 (len - ZBC_ZONE_DESCRIPTOR_LENGTH)) iov'
        else rz_emit_loop fuel' s ro (zone + 1) lba' len iov
    end.

(** The header of REPORT ZONES. *)
Definition rz_header (s : zbc_dev) (nr_zones : Z) : list Z :=
  let data := repeat 0 (Z.to_nat ZBC_ZONE_DESCRIPTOR_LENGTH) in
  let data := put 0 (zbc_cpbe32 (wrap32 (nr_zones * ZBC_ZONE_DESCRIPTOR_LENGTH)))
                  data in
  put 8 (zbc_cpbe64 (wrap64 (logical_capacity (geom s) - 1))) data.

(** [zbc_report_zones]; [len] is the allocation length of the command. *)
Definition zbc_report_zones (s : zbc_dev) (iov : list iovec) (partial : bool)
    (ro start_lba len : Z) : res (tcmu_sts * list iovec) :=
  if start_lba >=? logical_capacity (geom s) then
    Ok (zbc_set_sense ILLEGAL_REQUEST ASC_LBA_OUT_OF_RANGE, iov)
  else if negb (rz_option_known ro) then
    Ok (zbc_set_sense ILLEGAL_REQUEST ASC_INVALID_FIELD_IN_CDB, iov)
  else
    let len1 := if len >? ZBC_ZONE_DESCRIPTOR_OFFSET
                then len - ZBC_ZONE_DESCRIPTOR_OFFSET else 0 in
    zp ← zbc_get_zone s start_lba false;
    match zp with
    | None => Ok (zbc_set_sense ILLEGAL_REQUEST ASC_INVALID_FIELD_IN_CDB, iov)
    | Some zone =>
        nr_zones ← rz_count_loop (walk_fuel s) s partial ro zone start_lba
                                 len1 0;
        let '(copied, iov1) :=
          tcmu_memcpy_into_iovec iov (rz_header s nr_zones) in
        if copied <? ZBC_ZONE_DESCRIPTOR_OFFSET then Ok (TCMU_STS_OK, iov1)
        else
          let len2 := tcmu_iovec_length iov1 in
          zp2 ← zbc_get_zone s start_lba false;
          match zp2 with
          | None => Oob
          | Some zone2 =>
              iov2 ← rz_emit_loop (walk_fuel s) s ro zone2 start_lba len2 iov1;
              Ok (TCMU_STS_OK, iov2)
          end
    end.

(** [zbc_scsi_report_zones]: the fields of the command. *)
Definition zbc_scsi_report_zones (s : zbc_dev) (iov : list iovec)
    (lba len cdb14 : Z) : res (tcmu_sts * list iovec) :=
  let partial := negb (Z.land cdb14 ZBC_RZ_RO_PARTIAL =? 0) in
  let ro := wrap8 (Z.land cdb14 (Z.lnot ZBC_RZ_RO_PARTIAL)) in
  zbc_report_zones s iov partial ro lba len.

(** An empty data-in buffer list with the given room. *)
Definition in_buf (lens : list Z) : list iovec := map (mk_iovec []) lens.

(** The bytes that a data-in buffer list holds. *)
Definition iov_data (iov : list iovec) : list Z := concat (map iov_base iov).


(** Deciding a comparison of the code from the arithmetic facts at hand. *)
Ltac cmp_dec :=
  rewrite ?Z.geb_leb, ?Z.gtb_ltb;
  first [ apply Z.leb_le | apply Z.leb_gt | apply Z.ltb_lt | apply Z.ltb_ge
        | apply Z.eqb_eq | apply Z.eqb_neq ];
  lia.

Ltac cmp_is b := match goal with
  | |- context [?a >=? ?c] => replace (a >=? c) with b by (symmetry; cmp_dec)
  | |- context [?a >? ?c] => replace (a >? c) with b by (symmetry; cmp_dec)
  | |- context [?a <=? ?c] => replace (a <=? c) with b by (symmetry; cmp_dec)
  | |- context [?a <? ?c] => replace (a <? c) with b by (symmetry; cmp_dec)
  | |- context [?a =? ?c] => replace (a =? c) with b by (symmetry; cmp_dec)
  end.

(** ** The geometry of the zones *)

(** The zones tile the logical capacity: zone [i] starts at [i] times
    the zone size and is one zone size long. *)
Record geom_ok (s : zbc_dev) : Prop := mk_geom_ok {
  go_log2 : 0 <= zone_log2 (geom s);
  go_zsize : zone_size (geom s) = 2 ^ zone_log2 (geom s);
  go_nr : nr_zones (geom s) = Z.of_nat (length (zones s));
  go_nr32 : nr_zones (geom s) <= UINT_MAX;
  go_cap : logical_capacity (geom s) = nr_zones (geom s) * zone_size (geom s);
  go_cap64 : logical_capacity (geom s) < 2 ^ 64;
  go_zone : forall (i : nat) (z : zbc_zone), zones s !! i = Some z ->
            z_start z = Z.of_nat i * zone_size (geom s)
            /\ z_len z = zone_size (geom s);
}.

Lemma geom_ok_zsize_pos s : geom_ok s -> 0 < zone_size (geom s).
Proof.
  intros G. rewrite (go_zsize s G). apply Z.pow_pos_nonneg; [lia|].
  apply (go_log2 s G).
Qed.

(** The zone number of an LBA below the capacity. *)
Lemma geom_ok_zno s lba :
  geom_ok s -> 0 <= lba < logical_capacity (geom s) ->
  wrap32 (Z.shiftr lba (zone_log2 (geom s))) = lba / zone_size (geom s)
  /\ 0 <= lba / zone_size (geom s) < nr_zones (geom s).
Proof.
  intros G Hl. pose proof (geom_ok_zsize_pos s G) as Hp.
  rewrite Z.shiftr_div_pow2 by apply (go_log2 s G).
  rewrite <- (go_zsize s G).
  assert (Hr : 0 <= lba / zone_size (geom s) < nr_zones (geom s)).
  { split; [apply Z.div_pos; lia|].
    apply Z.div_lt_upper_bound; [lia|]. rewrite (go_cap s G) in Hl. lia. }
  split; [|exact Hr]. apply wrap32_small.
  pose proof (go_nr32 s G). unfold UINT_MAX in *. lia.
Qed.

Lemma geom_ok_get_zone s lba :
  geom_ok s -> 0 <= lba < logical_capacity (geom s) ->
  zbc_get_zone s lba false = Ok (Some (lba / zone_size (geom s)))
  /\ (Z.to_nat (lba / zone_size (geom s)) < length (zones s))%nat.
Proof.
  intros G Hl. destruct (geom_ok_zno s lba G Hl) as [Hz Hr].
  assert (Hlt : (Z.to_nat (lba / zone_size (geom s)) < length (zones s))%nat).
  { rewrite (go_nr s G) in Hr. lia. }
  split; [|exact Hlt].
  unfold zbc_get_zone. rewrite Hz.
  replace (lba / zone_size (geom s) >=? nr_zones (geom s)) with false
    by (symmetry; cmp_dec).
  destruct (lookup_lt_is_Some_2 (zones s) _ Hlt) as [z Hzz].
  replace (lba / zone_size (geom s))
    with (Z.of_nat (Z.to_nat (lba / zone_size (geom s)))) at 1 by lia.
  rewrite (zone_at_nat_Ok s _ z Hzz). reflexivity.
Qed.

(** ** The zones that REPORT ZONES reports *)

(** The zones at or after an LBA: those that end above it. *)
Definition zones_from (s : zbc_dev) (start_lba : Z) : list zbc_zone :=
  List.filter (fun z => start_lba <? z_start z + z_len z) (zones s).

(** The zones at or after an LBA that match the reporting option. *)
Definition reported_zones (s : zbc_dev) (ro start_lba : Z) : list zbc_zone :=
  List.filter (fun z => zbc_should_report_zone z ro) (zones_from s start_lba).

Lemma filter_end_drop (size lba : Z) (zs : list zbc_zone) (base : Z) :
  0 < size -> 0 <= lba ->
  (forall (j : nat) z, zs !! j = Some z ->
     z_start z + z_len z = (base + Z.of_nat j + 1) * size) ->
  List.filter (fun z => lba <? z_start z + z_len z) zs
  = drop (Z.to_nat (lba / size - base)) zs.
Proof.
  intros Hs Hl. revert base. induction zs as [|z r IH]; intros base Hz.
  - rewrite drop_nil. reflexivity.
  - simpl. pose proof (Hz 0%nat z eq_refl) as H0. simpl in H0.
    assert (Hr : forall (j : nat) z0, r !! j = Some z0 ->
              z_start z0 + z_len z0 = (base + 1 + Z.of_nat j + 1) * size).
    { intros j z0 Hj. rewrite (Hz (S j) z0 Hj). f_equal. lia. }
    specialize (IH (base + 1) Hr).
    destruct (Z_lt_dec lba ((base + 1) * size)) as [Hlt|Hge].
    + assert (Hd : lba / size - base <= 0).
      { assert (lba / size < base + 1)
          by (apply Z.div_lt_upper_bound; lia). lia. }
      replace (lba <? z_start z + z_len z) with true
        by (symmetry; apply Z.ltb_lt; lia).
      replace (Z.to_nat (lba / size - base)) with 0%nat by lia.
      rewrite IH. replace (Z.to_nat (lba / size - (base + 1))) with 0%nat by lia.
      reflexivity.
    + assert (Hd : base + 1 <= lba / size)
        by (apply Z.div_le_lower_bound; lia).
      replace (lba <? z_start z + z_len z) with false
        by (symmetry; apply Z.ltb_ge; lia).
      replace (Z.to_nat (lba / size - base))
        with (S (Z.to_nat (lba / size - (base + 1)))) by lia.
      simpl. exact IH.
Qed.

Lemma zones_from_drop s lba :
  geom_ok s -> 0 <= lba ->
  zones_from s lba = drop (Z.to_nat (lba / zone_size (geom s))) (zones s).
Proof.
  intros G Hl. unfold zones_from.
  rewrite (filter_end_drop (zone_size (geom s)) lba (zones s) 0).
  - rewrite Z.sub_0_r. reflexivity.
  - apply geom_ok_zsize_pos, G.
  - exact Hl.
  - intros j z Hj. destruct (go_zone s G j z Hj) as [-> ->]. lia.
Qed.

(** What the counting pass computes over the zones that are left. *)
Fixpoint count_spec (partial : bool) (ro : Z) (zs : list zbc_zone)
    (len nr : Z) : Z :=
  match zs with
  | [] => nr
  | z :: r =>
      if zbc_should_report_zone z ro then
        if partial && (len <? ZBC_ZONE_DESCRIPTOR_LENGTH) then nr
        else count_spec partial ro r
               (if len >? ZBC_ZONE_DESCRIPTOR_LENGTH
                then len - ZBC_ZONE_DESCRIPTOR_LENGTH else 0) (nr + 1)
      else count_spec partial ro r len nr
  end.

Definition nr_matching (ro : Z) (zs : list zbc_zone) : Z :=
  Z.of_nat (length (List.filter (fun z => zbc_should_report_zone z ro) zs)).

Lemma nr_matching_bounds ro zs :
  0 <= nr_matching ro zs <= Z.of_nat (length zs).
Proof.
  unfold nr_matching. split; [lia|].
  apply Nat2Z.inj_le, List.filter_length_le.
Qed.

Lemma count_spec_all ro zs len nr :
  count_spec false ro zs len nr = nr + nr_matching ro zs.
Proof.
  revert len nr. unfold nr_matching.
  induction zs as [|z r IH]; intros len nr; simpl; [lia|].
  destruct (zbc_should_report_zone z ro); simpl.
  - rewrite IH. lia.
  - apply IH.
Qed.

Lemma count_spec_partial ro zs len nr :
  0 <= len ->
  count_spec true ro zs len nr = nr + Z.min (nr_matching ro zs) (len / 64).
Proof.
  revert len nr. unfold nr_matching, ZBC_ZONE_DESCRIPTOR_LENGTH.
  induction zs as [|z r IH]; intros len nr Hl; simpl.
  - assert (0 <= len / 64) by (apply Z.div_pos; lia). lia.
  - unfold ZBC_ZONE_DESCRIPTOR_LENGTH.
    destruct (zbc_should_report_zone z ro); simpl.
    + destruct (Z.ltb_spec len 64) as [Hlt|Hge].
      * rewrite Z.div_small by lia. lia.
      * assert (Hd : len / 64 = (len - 64) / 64 + 1).
        { replace len with ((len - 64) + 1 * 64) at 1 by lia.
          rewrite Z.div_add by lia. reflexivity. }
        destruct (Z.gtb_spec len 64) as [Hgt|Hle].
        -- rewrite IH by lia. lia.
        -- rewrite IH by lia. assert (len = 64) by lia. subst len.
           change ((64 - 64) / 64) with 0 in *. change (0 / 64) with 0. lia.
    + apply IH. exact Hl.
Qed.

(** The counting pass from zone [i] on. *)
Lemma rz_count_loop_spec s partial ro :
  geom_ok s ->
  forall (fuel i : nat) (lba len nr : Z),
    (length (drop i (zones s)) <= fuel)%nat ->
    (lba < logical_capacity (geom s) <-> (i < length (zones s))%nat) ->
    0 <= nr -> nr + Z.of_nat (length (drop i (zones s))) < 2 ^ 32 ->
    rz_count_loop fuel s partial ro (Z.of_nat i) lba len nr
    = Ok (count_spec partial ro (drop i (zones s)) len nr).
Proof.
  intros G. pose proof (geom_ok_zsize_pos s G) as Hp.
  induction fuel as [|fuel IH]; intros i lba len nr Hf Hl Hn Hb.
  - assert (Hi : (length (zones s) <= i)%nat)
      by (rewrite length_drop in Hf; lia).
    simpl. replace (lba <? logical_capacity (geom s)) with false
      by (symmetry; apply Z.ltb_ge; lia).
    simpl. rewrite drop_ge by exact Hi. reflexivity.
  - simpl. destruct (Z.ltb_spec lba (logical_capacity (geom s))) as [Hlt|Hge].
    + simpl. apply Hl in Hlt.
      destruct (lookup_lt_is_Some_2 (zones s) i Hlt) as [z Hz].
      rewrite (zone_at_nat_Ok s i z Hz). simpl.
      rewrite (drop_S _ z i Hz). simpl.
      rewrite (drop_S _ z i Hz) in Hf, Hb. simpl in Hf, Hb.
      destruct (go_zone s G i z Hz) as [Hst Hln].
      assert (Hend : wrap64 (z_start z + z_len z)
                     = Z.of_nat (S i) * zone_size (geom s)).
      { rewrite Hst, Hln. rewrite wrap64_small; [lia|].
        pose proof (go_cap64 s G) as Hc.
        rewrite (go_cap s G), (go_nr s G) in Hc. nia. }
      rewrite Hend.
      assert (Hl' : Z.of_nat (S i) * zone_size (geom s)
                    < logical_capacity (geom s)
                    <-> (S i < length (zones s))%nat).
      { rewrite (go_cap s G), (go_nr s G). split; intros; nia. }
      replace (Z.of_nat i + 1) with (Z.of_nat (S i)) by lia.
      destruct (zbc_should_report_zone z ro).
      * destruct (partial && (len <? ZBC_ZONE_DESCRIPTOR_LENGTH)); [reflexivity|].
        rewrite wrap32_small by lia.
        apply IH; [lia|exact Hl'|lia|lia].
      * apply IH; [lia|exact Hl'|lia|lia].
    + simpl. assert (Hi : (length (zones s) <= i)%nat).
      { destruct (le_lt_dec (length (zones s)) i) as [H|H]; [exact H|].
        apply Hl in H. lia. }
      rewrite drop_ge by exact Hi. reflexivity.
Qed.

(** ** Storing into the buffers *)

(** The room left in a buffer list. *)
Definition iov_room (iov : list iovec) : Z :=
  foldr (fun v acc => iov_len v + acc) 0 iov.

(** Buffers that hold nothing yet. *)
Definition iov_fresh (iov : list iovec) : Prop :=
  Forall (fun v => iov_base v = [] /\ 0 <= iov_len v) iov.

(** Buffers that are filled in order: the entries after the first one
    with room left hold nothing yet. *)
Fixpoint iov_ok (iov : list iovec) : Prop :=
  match iov with
  | [] => True
  | v :: r => 0 <= iov_len v /\ (iov_len v = 0 -> iov_ok r)
              /\ (0 < iov_len v -> iov_fresh r)
  end.

Lemma iov_fresh_ok iov : iov_fresh iov -> iov_ok iov.
Proof.
  induction 1 as [|v r [Hb Hl] Hr IH]; simpl; auto.
Qed.

Lemma iov_fresh_data iov : iov_fresh iov -> iov_data iov = [].
Proof.
  unfold iov_data. induction 1 as [|v r [Hb Hl] Hr IH]; simpl; [reflexivity|].
  rewrite Hb, IH. reflexivity.
Qed.

Lemma iov_fresh_room iov : iov_fresh iov -> 0 <= iov_room iov.
Proof.
  induction 1 as [|v r [Hb Hl] Hr IH]; simpl; lia.
Qed.

Lemma iov_ok_room iov : iov_ok iov -> 0 <= iov_room iov.
Proof.
  induction iov as [|v r IH]; simpl; [lia|]. intros (H0 & Hz & Hp).
  destruct (Z.eq_dec (iov_len v) 0) as [E|E].
  - specialize (IH (Hz E)). lia.
  - pose proof (iov_fresh_room r (Hp ltac:(lia))). lia.
Qed.

Lemma in_buf_fresh lens : Forall (fun l => 0 <= l) lens -> iov_fresh (in_buf lens).
Proof.
  unfold iov_fresh, in_buf. induction 1; simpl; constructor; auto.
Qed.

Lemma in_buf_room lens : iov_room (in_buf lens) = foldr Z.add 0 lens.
Proof. induction lens as [|l r IH]; simpl; [reflexivity|]. rewrite IH. reflexivity. Qed.

Lemma tcmu_memcpy_into_iovec_nil iov :
  tcmu_memcpy_into_iovec iov [] = (0, iov).
Proof. destruct iov; reflexivity. Qed.

(** The bytes are stored in order, as far as there is room. *)
Lemma tcmu_memcpy_into_iovec_spec iov : forall src,
  iov_ok iov ->
  let n := Z.min (Z.of_nat (length src)) (iov_room iov) in
  exists iov', tcmu_memcpy_into_iovec iov src = (n, iov')
    /\ iov_data iov' = iov_data iov ++ take (Z.to_nat n) src
    /\ iov_room iov' = iov_room iov - n
    /\ iov_ok iov'.
Proof.
  induction iov as [|v r IH]; intros src Hok n.
  - subst n. simpl. exists []. replace (Z.min (Z.of_nat (length src)) 0) with 0 by lia.
    simpl. repeat split; try reflexivity; try lia.
  - simpl in Hok. destruct Hok as (H0 & Hz & Hp).
    simpl tcmu_memcpy_into_iovec.
    destruct (Z.eqb_spec (Z.of_nat (length src)) 0) as [E|E].
    + assert (src = []) by (destruct src; simpl in E; [reflexivity|lia]).
      subst src. subst n. simpl length.
      assert (Hr : 0 <= iov_room (v :: r))
        by (apply iov_ok_room; simpl; auto).
      replace (Z.min (Z.of_nat 0) (iov_room (v :: r))) with 0 by lia.
      exists (v :: r). simpl. rewrite app_nil_r.
      split; [reflexivity|]. split; [reflexivity|]. split; [lia|].
      split; [lia|]. split; assumption.
    + destruct (Z.leb_spec (Z.min (iov_len v) (Z.of_nat (length src))) 0)
        as [Hle|Hgt].
      * assert (Hv : iov_len v = 0) by lia.
        destruct (IH src (Hz Hv)) as (r' & E1 & E2 & E3 & E4).
        rewrite E1. subst n. simpl iov_room. rewrite Hv. simpl.
        exists (v :: r'). split; [reflexivity|]. split; [|split].
        -- unfold iov_data in *. simpl. rewrite E2, app_assoc. reflexivity.
        -- simpl. rewrite E3, Hv. lia.
        -- simpl. rewrite Hv. split; [lia|]. split; [auto|lia].
      * set (tc := Z.min (iov_len v) (Z.of_nat (length src))) in *.
        assert (Hvp : 0 < iov_len v) by lia.
        pose proof (Hp Hvp) as Hfr.
        destruct (IH (drop (Z.to_nat tc) src) (iov_fresh_ok r Hfr))
          as (r' & E1 & E2 & E3 & E4).
        rewrite E1. pose proof (iov_fresh_room r Hfr) as Hrr.
        rewrite length_drop in *.
        set (n' := Z.min (Z.of_nat (length src - Z.to_nat tc)) (iov_room r)) in *.
        assert (Hn : n = tc + n') by (subst n n' tc; simpl iov_room; lia).
        rewrite Hn. eexists. split; [reflexivity|]. split; [|split].
        -- unfold iov_data in *. simpl. rewrite E2.
           change (concat (map iov_base r)) with (iov_data r).
           rewrite (iov_fresh_data r Hfr). simpl. rewrite app_nil_r.
           rewrite <- app_assoc. f_equal.
           rewrite Z2Nat.inj_add by (subst n' tc; lia).
           rewrite take_take_drop. reflexivity.
        -- simpl. rewrite E3. lia.
        -- simpl. split; [lia|]. split; [auto|].
           intros Hleft. assert (Hd : drop (Z.to_nat tc) src = []).
           { apply drop_ge. subst tc. lia. }
           rewrite Hd, tcmu_memcpy_into_iovec_nil in E1.
           inversion E1; subst r'. exact Hfr.
Qed.

Lemma tcmu_iovec_length_room iov :
  0 <= iov_room iov < 2 ^ 64 -> tcmu_iovec_length iov = iov_room iov.
Proof. intros H. unfold tcmu_iovec_length. apply wrap64_small. exact H. Qed.

(** ** The header and the descriptors *)

Lemma length_be_bytes n v : length (be_bytes n v) = n.
Proof. unfold be_bytes. rewrite length_map, length_seq. reflexivity. Qed.

Lemma length_put off bytes data :
  (off + length bytes <= length data)%nat ->
  length (put off bytes data) = length data.
Proof.
  intros H. unfold put. rewrite !length_app, length_take, length_drop. lia.
Qed.

Lemma length_put_eq off bytes data n :
  length data = n -> (off + length bytes <= n)%nat ->
  length (put off bytes data) = n.
Proof. intros <- H. apply length_put. exact H. Qed.

Lemma length_zone_descriptor z : length (zone_descriptor z) = 64%nat.
Proof.
  unfold zone_descriptor, zbc_cpbe64.
  repeat (apply length_put_eq; [|rewrite ?length_be_bytes; simpl; lia]).
  apply repeat_length.
Qed.

Lemma length_rz_header s nr : length (rz_header s nr) = 64%nat.
Proof.
  unfold rz_header, zbc_cpbe64, zbc_cpbe32.
  repeat (apply length_put_eq; [|rewrite ?length_be_bytes; simpl; lia]).
  apply repeat_length.
Qed.

Lemma be_value_be_bytes_4 v :
  0 <= v < 2 ^ 32 -> be_value (be_bytes 4 v) = v.
Proof.
  intros Hv. unfold be_value, be_bytes. simpl.
  change 255 with (Z.ones 8). rewrite !Z.land_ones by lia.
  rewrite !Z.shiftr_div_pow2 by lia.
  change (2 ^ 24) with 16777216. change (2 ^ 16) with 65536.
  change (2 ^ 8) with 256. change (2 ^ 0) with 1. rewrite Z.div_1_r.
  change (2 ^ 32) with 4294967296 in Hv.
  Z.to_euclidean_division_equations. lia.
Qed.

Lemma take_put_before n off bytes data :
  (n <= off <= length data)%nat -> take n (put off bytes data) = take n data.
Proof.
  intros H. unfold put. rewrite take_app_le by (rewrite length_take; lia).
  rewrite take_take. f_equal. lia.
Qed.

Lemma take_put_0 bytes data :
  take (length bytes) (put 0 bytes data) = bytes.
Proof. unfold put. simpl. apply take_app_length. Qed.

(** The ZONE LIST LENGTH field of the header. *)
Lemma rz_header_list_length s nr :
  0 <= nr * 64 < 2 ^ 32 -> zbc_rdbe32 (rz_header s nr) = 64 * nr.
Proof.
  intros H. unfold zbc_rdbe32, rz_header, ZBC_ZONE_DESCRIPTOR_LENGTH.
  rewrite wrap32_small by exact H.
  rewrite take_put_before.
  2:{ rewrite (length_put_eq _ _ _ 64%nat); [lia|apply repeat_length|].
      unfold zbc_cpbe32. rewrite length_be_bytes. simpl. lia. }
  pose proof (take_put_0 (zbc_cpbe32 (nr * 64)) (repeat 0 (Z.to_nat 64))) as E.
  unfold zbc_cpbe32 in E at 1. rewrite length_be_bytes in E. rewrite E.
  unfold zbc_cpbe32. rewrite be_value_be_bytes_4 by exact H. lia.
Qed.

(** The storing pass from zone [i] on. *)
Lemma rz_emit_loop_spec s ro :
  geom_ok s ->
  forall (fuel i : nat) (lba len : Z) (iov : list iovec),
    (length (drop i (zones s)) <= fuel)%nat ->
    (lba < logical_capacity (geom s) <-> (i < length (zones s))%nat) ->
    iov_ok iov -> len = iov_room iov -> len < 2 ^ 64 ->
    exists iov',
      rz_emit_loop fuel s ro (Z.of_nat i) lba len iov = Ok iov'
      /\ iov_data iov'
         = iov_data iov
           ++ concat (map zone_descriptor
                (take (Z.to_nat (len / 64))
                   (List.filter (fun z => zbc_should_report_zone z ro)
                      (drop i (zones s))))).
Proof.
  intros G. pose proof (geom_ok_zsize_pos s G) as Hp.
  induction fuel as [|fuel IH]; intros i lba len iov Hf Hl Hok Hlen H64.
  - assert (Hi : (length (zones s) <= i)%nat)
      by (rewrite length_drop in Hf; lia).
    simpl. replace (lba <? logical_capacity (geom s)) with false
      by (symmetry; apply Z.ltb_ge; lia).
    simpl. rewrite drop_ge by exact Hi. simpl. rewrite take_nil. simpl.
    rewrite app_nil_r. eauto.
  - simpl. destruct (Z.ltb_spec lba (logical_capacity (geom s))) as [Hlt|Hge].
    2:{ simpl. assert (Hi : (length (zones s) <= i)%nat).
        { destruct (le_lt_dec (length (zones s)) i) as [H|H]; [exact H|].
          apply Hl in H. lia. }
        rewrite drop_ge by exact Hi. simpl. rewrite take_nil. simpl.
        rewrite app_nil_r. eauto. }
    unfold ZBC_ZONE_DESCRIPTOR_LENGTH.
    destruct (Z.geb_spec len 64) as [Hge|Hsmall].
    2:{ simpl. pose proof (iov_ok_room iov Hok).
        rewrite Z.div_small by lia. simpl. rewrite app_nil_r. eauto. }
    simpl. apply Hl in Hlt.
    destruct (lookup_lt_is_Some_2 (zones s) i Hlt) as [z Hz].
    rewrite (zone_at_nat_Ok s i z Hz). simpl.
    rewrite (drop_S _ z i Hz). rewrite (drop_S _ z i Hz) in Hf. simpl in Hf.
    destruct (go_zone s G i z Hz) as [Hst Hln].
    assert (Hend : wrap64 (z_start z + z_len z)
                   = Z.of_nat (S i) * zone_size (geom s)).
    { rewrite Hst, Hln. rewrite wrap64_small; [lia|].
      pose proof (go_cap64 s G) as Hc.
      rewrite (go_cap s G), (go_nr s G) in Hc. nia. }
    rewrite Hend.
    assert (Hl' : Z.of_nat (S i) * zone_size (geom s)
                  < logical_capacity (geom s)
                  <-> (S i < length (zones s))%nat).
    { rewrite (go_cap s G), (go_nr s G). split; intros; nia. }
    replace (Z.of_nat i + 1) with (Z.of_nat (S i)) by lia.
    simpl List.filter.
    destruct (zbc_should_report_zone z ro).
    + destruct (tcmu_memcpy_into_iovec_spec iov (zone_descriptor z) Hok)
        as (iov1 & E1 & E2 & E3 & E4).
      rewrite length_zone_descriptor in E1, E2, E3.
      replace (Z.min (Z.of_nat 64) (iov_room iov)) with 64 in E1, E2, E3 by lia.
      rewrite E1.
      rewrite wrap64_small by lia.
      destruct (IH (S i) (Z.of_nat (S i) * zone_size (geom s)) (len - 64) iov1)
        as (iov2 & F1 & F2); [lia|exact Hl'|exact E4|lia|lia|].
      exists iov2. split; [exact F1|]. rewrite F2, E2.
      rewrite take_ge by (rewrite length_zone_descriptor; lia).
      rewrite <- app_assoc. f_equal.
      assert (Hd : len / 64 = (len - 64) / 64 + 1).
      { replace len with ((len - 64) + 1 * 64) at 1 by lia.
        rewrite Z.div_add by lia. reflexivity. }
      assert (Hq : 0 <= (len - 64) / 64) by (apply Z.div_pos; lia).
      rewrite Hd. replace (Z.to_nat ((len - 64) / 64 + 1))
        with (S (Z.to_nat ((len - 64) / 64))) by lia.
      reflexivity.
    + apply IH; [lia|exact Hl'|exact Hok|exact Hlen|exact H64].
Qed.

Lemma res_bind_Ok {A B : Type} (a : A) (k : A -> res B) : (Ok a ≫= k) = k a.
Proof. reflexivity. Qed.

(** A test of [geom_ok] that computes. *)
Fixpoint zones_tileb (size : Z) (i : Z) (zs : list zbc_zone) : bool :=
  match zs with
  | [] => true
  | z :: r => (z_start z =? i * size) && (z_len z =? size)
              && zones_tileb size (i + 1) r
  end.

Definition geom_okb (s : zbc_dev) : bool :=
  let g := geom s in
  (0 <=? zone_log2 g) && (zone_size g =? 2 ^ zone_log2 g)
  && (nr_zones g =? Z.of_nat (length (zones s)))
  && (nr_zones g <=? UINT_MAX)
  && (logical_capacity g =? nr_zones g * zone_size g)
  && (logical_capacity g <? 2 ^ 64)
  && zones_tileb (zone_size g) 0 (zones s).

Lemma zones_tileb_spec size zs : forall i,
  zones_tileb size i zs = true ->
  forall (j : nat) z, zs !! j = Some z ->
    z_start z = (i + Z.of_nat j) * size /\ z_len z = size.
Proof.
  induction zs as [|z0 r IH]; intros i H j z Hj; [discriminate|].
  simpl in H. apply andb_true_iff in H. destruct H as [H Hr].
  apply andb_true_iff in H. destruct H as [H1 H2].
  destruct j as [|j]; simpl in Hj.
  - inversion Hj; subst z0. split; [|lia].
    apply Z.eqb_eq in H1. rewrite H1. f_equal. lia.
  - destruct (IH (i + 1) Hr j z Hj) as [E1 E2]. split; [|exact E2].
    rewrite E1. f_equal. lia.
Qed.

Lemma geom_okb_spec s : geom_okb s = true -> geom_ok s.
Proof.
  unfold geom_okb. intros H.
  repeat (apply andb_true_iff in H; let H' := fresh "H" in destruct H as [H H']).
  constructor; try lia.
  intros i z Hz. destruct (zones_tileb_spec _ _ _ H0 i z Hz) as [E1 E2].
  split; [|exact E2]. rewrite E1. f_equal.
Qed.



(** * Formatting a Zone Domains device *)

(** ** Numbers of zones across the two kinds of domains *)

Definition float_of_Z (n : Z) : float := PrimFloat.of_uint63 (Uint63.of_Z n).

(** The conversion of a [double] to [int]: the value is truncated toward
    zero; it is undefined for a NaN, an infinity and a value that [int]
    does not hold. *)
Definition int_of_float (f : float) : res Z :=
  match Prim2SF f with
  | S754_zero _ => Ok 0
  | S754_finite sign m e =>
      let mag := if 0 <=? e then Z.pos m * 2 ^ e else Z.pos m / 2 ^ (- e) in
      let v := if sign then - mag else mag in
      if (- 2 ^ 31 <=? v) && (v <? 2 ^ 31) then Ok v else Oob
  | _ => Oob
  end.

(** [zbc_rescale_in_range]: rescale a value of [1:old_max] to
    [1:new_max], in double precision as the source does. *)
Definition zbc_rescale_in_range (val old_max new_max : Z) : res Z :=
  let min := float_of_Z 1 in
  let v := float_of_Z val in
  r ← int_of_float ((float_of_Z new_max - min) * (v - float_of_Z old_max)
                     / (float_of_Z old_max - min) + float_of_Z new_max)%float;
  Ok (if r <=? 0 then 1 else if r >? new_max then new_max else r).

(** The loops of [zbc_init_nr_zone_maps]. *)
Fixpoint nr_zone_map (n : nat) (i old_max new_max : Z) : res (list Z) :=
  match n with
  | O => Ok []
  | S n' =>
      v ← zbc_rescale_in_range (wrap32 (i + 1)) old_max new_max;
      rest ← nr_zone_map n' (i + 1) old_max new_max;
      Ok (wrap32 v :: rest)
  end.

(** ** Setters of the geometry, used by the formatter only *)

Definition set_geom (g : zbc_dev_geom) (s : zbc_dev) : zbc_dev :=
  mk_dev g (zones s) (realms s) (zl_imp_open s) (zl_exp_open s) (zl_closed s)
         (zl_seq_active s) (nr_imp_open s) (nr_exp_open s) (nr_empty_zones s)
         (stats s) (bs s).

Definition geom_set_domains (ds : list zbc_zone_domain) (g : zbc_dev_geom) :=
  mk_geom (dev_type g) (meta_size g) (lba_log2 g) (zone_size g) (zone_log2 g)
          (nr_zones g) (nr_open_zones g) ds (nr_domains g)
          (zone_type_to_dom g) (nr_realms g) (nr_cmr_realm_zones g)
          (nr_smr_realm_zones g) (wp_check g) (realms_feat_set g)
          (logical_capacity g) (cmr_nr_zones_to_smr g)
          (smr_nr_zones_to_cmr g).

Definition geom_set_zone_type_to_dom (m : list Z) (g : zbc_dev_geom) :=
  mk_geom (dev_type g) (meta_size g) (lba_log2 g) (zone_size g) (zone_log2 g)
          (nr_zones g) (nr_open_zones g) (domains g) (nr_domains g)
          m (nr_realms g) (nr_cmr_realm_zones g)
          (nr_smr_realm_zones g) (wp_check g) (realms_feat_set g)
          (logical_capacity g) (cmr_nr_zones_to_smr g)
          (smr_nr_zones_to_cmr g).

Definition geom_set_size (n cap : Z) (g : zbc_dev_geom) :=
  mk_geom (dev_type g) (meta_size g) (lba_log2 g) (zone_size g) (zone_log2 g)
          n (nr_open_zones g) (domains g) (nr_domains g)
          (zone_type_to_dom g) (nr_realms g) (nr_cmr_realm_zones g)
          (nr_smr_realm_zones g) (wp_check g) (realms_feat_set g)
          cap (cmr_nr_zones_to_smr g) (smr_nr_zones_to_cmr g).

Definition upd_domain (i : Z) (f : zbc_zone_domain -> zbc_zone_domain)
    (s : zbc_dev) : res zbc_dev :=
  d ← domain_at s i;
  Ok (set_geom (geom_set_domains (<[Z.to_nat i := f d]> (domains (geom s)))
                                 (geom s)) s).

Definition upd_realm (i : Z) (f : zbc_zone_realm -> zbc_zone_realm)
    (s : zbc_dev) : res zbc_dev :=
  r ← realm_at s i;
  Ok (set_realms (<[Z.to_nat i := f r]> (realms s)) s).

(** ** Realm items *)

(** [zbc_get_realm_item]: the entry of [ri] for a zone type. *)
Definition zbc_get_realm_item (r : zbc_zone_realm) (rt : zbc_zone_type)
  : res zbc_realm_item :=
  match r_ri r !! Z.to_nat (zone_type_code rt - 1) with
  | Some ri => Ok ri
  | None => Oob
  end.

Definition zbc_realm_start (r : zbc_zone_realm) (rt : zbc_zone_type) : res Z :=
  ri ← zbc_get_realm_item r rt; Ok (ri_start_lba ri).

Definition zbc_realm_length (r : zbc_zone_realm) (rt : zbc_zone_type) : res Z :=
  ri ← zbc_get_realm_item r rt; Ok (ri_length ri).

(** [zbc_realm_start_zone]: a pointer to the first zone of a type. *)
Definition zbc_realm_start_zone (r : zbc_zone_realm) (rt : zbc_zone_type)
  : res Z :=
  ri ← zbc_get_realm_item r rt; Ok (ri_start_zone ri).

Definition zbc_can_actv_realm_as (r : zbc_zone_realm) (rt : zbc_zone_type)
  : bool :=
  negb (Z.land (r_flags r) (Z.shiftl 1 (zone_type_code rt - 1)) =? 0).

Definition realm_set_item (rt : zbc_zone_type) (ri : zbc_realm_item)
    (r : zbc_zone_realm) : zbc_zone_realm :=
  mk_realm (r_number r) (r_type r) (r_flags r) (r_restr r)
           (<[Z.to_nat (zone_type_code rt - 1) := ri]> (r_ri r)).

Definition realm_set_flags (fl : Z) (r : zbc_zone_realm) : zbc_zone_realm :=
  mk_realm (r_number r) (r_type r) fl (r_restr r) (r_ri r).

Definition realm_set_number (n : Z) (r : zbc_zone_realm) : zbc_zone_realm :=
  mk_realm n (r_type r) (r_flags r) (r_restr r) (r_ri r).

(** ** The formatter *)

(** The part of the device that [zbc_format_meta_zd] computes before it
    writes the metadata. *)
Record zd_sizes : Type := mk_zd_sizes {
  zd_nr_conv_zones : Z;
  zd_nr_seq_zones : Z;
  zd_logical_cmr_capacity : Z;
  zd_logical_smr_capacity : Z;
  zd_smr_gain : Z;
}.

(** Zeroed entries of the metadata image.  The type of a zeroed entry
    is none of the zone types; it is written before it is read. *)
Definition zero_domain : zbc_zone_domain :=
  mk_domain 0 0 0 ZBC_ZONE_TYPE_GAP 0.
Definition zero_realm_item : zbc_realm_item := mk_realm_item 0 0 0.
Definition zero_realm : zbc_zone_realm :=
  mk_realm 0 ZBC_ZONE_TYPE_GAP 0 0
           (replicate (Z.to_nat ZBC_NR_ZONE_TYPES) zero_realm_item).

(** [zbc_init_domain]: the domain and the LBA after it. *)
Definition zbc_init_domain (g : zbc_dev_geom) (zs : zd_sizes)
    (t : zbc_zone_type) (start_lba flags : Z) : zbc_zone_domain * Z :=
  let next := if negb (Z.land flags ZBC_DFLG_SMR =? 0)
              then wrap64 (start_lba + zd_logical_smr_capacity zs)
              else wrap64 (start_lba + zd_logical_cmr_capacity zs) in
  (mk_domain start_lba (wrap64 (next - 1))
             (wrap32 (wrap64 (next - start_lba) / zone_size g)) t (wrap8 flags),
   next).

(** The zone loop of [zbc_init_zone_domains]: every zone is a gap zone. *)
Fixpoint init_gap_zones (zs : list zbc_zone) (size start_lba : Z)
  : list zbc_zone :=
  match zs with
  | [] => []
  | z :: rest =>
      mk_zone start_lba size ZBC_NO_WP 0 0 ZBC_ZONE_TYPE_GAP
              ZBC_ZONE_COND_NOT_WP (z_non_seq z) (z_reset z)
      :: init_gap_zones rest size (wrap64 (start_lba + size))
  end.

(** [zbc_init_zone_domains]. *)
Definition zbc_init_zone_domains (s : zbc_dev) (feat : zbc_dev_features)
    (zs : zd_sizes) : zbc_dev :=
  let g := geom s in
  let gap := wrap64 (domain_gap feat * zone_size g) in
  let step (on : bool) (t : zbc_zone_type) (flags : Z) (with_gap : bool)
           (acc : list zbc_zone_domain * Z) :=
    if on then
      let '(d, next) := zbc_init_domain g zs t (snd acc) flags in
      (fst acc ++ [d], if with_gap then wrap64 (next + gap) else snd acc)
    else acc in
  let acc := ([], 0) in
  let acc := step (actv_of_sobr feat) ZBC_ZONE_TYPE_SEQ_OR_BEF_REQ 0 true acc in
  let acc := step (actv_of_conv feat) ZBC_ZONE_TYPE_CONVENTIONAL 0 true acc in
  let acc := step (actv_of_seq_req feat) ZBC_ZONE_TYPE_SEQWRITE_REQ
                  ZBC_DFLG_SMR true acc in
  let acc := step (actv_of_seq_pref feat) ZBC_ZONE_TYPE_SEQWRITE_PREF
                  ZBC_DFLG_SMR false acc in
  let ds := fst acc in
  let nd := Z.of_nat (length ds) in
  let ds := ds ++ replicate (Z.to_nat ZBC_MAX_DOMAINS - length ds) zero_domain in
  let g' := mk_geom (dev_type g) (meta_size g) (lba_log2 g) (zone_size g)
                    (zone_log2 g) (nr_zones g) (nr_open_zones g) ds nd
                    (zone_type_to_dom g) (nr_realms g) (nr_cmr_realm_zones g)
                    (nr_smr_realm_zones g) (wp_check g) (realms_feat_set g)
                    (logical_capacity g) (cmr_nr_zones_to_smr g)
                    (smr_nr_zones_to_cmr g) in
  set_zones (take (Z.to_nat (nr_zones g)) (init_gap_zones (zones s) (zone_size g) 0)
             ++ drop (Z.to_nat (nr_zones g)) (zones s))
            (set_geom g' s).

(** The zone loop of [zbc_init_zones_zd]. *)
Fixpoint init_zones_zd_loop (n : nat) (s : zbc_dev) (zone : Z)
    (t : zbc_zone_type) (cond : zbc_zone_cond) : res zbc_dev :=
  match n with
  | O => Ok s
  | S n' =>
      s1 ← upd_zone zone (fun z => zone_set_cond cond (zone_set_type t z)) s;
      let s2 := if bool_decide (cond = ZBC_ZONE_COND_EMPTY)
                then set_nr_empty_zones (wrap32 (nr_empty_zones s1 + 1)) s1
                else s1 in
      s3 ← zbc_set_initial_wp s2 zone;
      init_zones_zd_loop n' s3 (zone + 1) t cond
  end.

(** [zbc_init_zones_zd] for realm [r] and domain [d] (indices); [false]
    is the error return. *)
Definition zbc_init_zones_zd (s : zbc_dev) (feat : zbc_dev_features) (r d : Z)
  : res (bool * zbc_dev) :=
  rl ← realm_at s r;
  dm ← domain_at s d;
  let cond :=
    if zbc_smr_domain dm then
      if bool_decide (d_type dm = initial_smr_type feat) && zbc_realm_seq rl
      then initial_smr_cond feat else ZBC_ZONE_COND_INACTIVE
    else
      if bool_decide (d_type dm = initial_cmr_type feat)
         && negb (zbc_realm_seq rl)
      then initial_cmr_cond feat else ZBC_ZONE_COND_INACTIVE in
  ri ← zbc_get_realm_item rl (d_type dm);
  zp ← zbc_get_zone s (ri_start_lba ri) false;
  match zp with
  | None => Ok (false, s)
  | Some zone =>
      s1 ← upd_realm r (realm_set_item (d_type dm)
                          (mk_realm_item (ri_start_lba ri) (ri_length ri)
                                         (wrap32 zone))) s;
      s2 ← init_zones_zd_loop (Z.to_nat (ri_length ri)) s1 zone (d_type dm) cond;
      Ok (true, s2)
  end.

(** The zone loop of [zbc_inject_zone_cond]. *)
Fixpoint inject_zd_loop (n : nat) (s : zbc_dev) (zone : Z)
    (cond : zbc_zone_cond) : res zbc_dev :=
  match n with
  | O => Ok s
  | S n' =>
      z ← zone_at s zone;
      let s1 := if zbc_zone_empty z
                   && negb (bool_decide (cond = ZBC_ZONE_COND_EMPTY))
                then set_nr_empty_zones (wrap32 (nr_empty_zones s - 1)) s
                else s in
      s2 ← zbc_unlink_zone s1 zone;
      s3 ← upd_zone zone (zone_set_cond cond) s2;
      s4 ← zbc_set_initial_wp s3 zone;
      inject_zd_loop n' s4 (zone + 1) cond
  end.

(** The domain loop of [zbc_inject_zone_cond]. *)
Fixpoint inject_domains_loop (n : nat) (s : zbc_dev) (i : Z)
    (zone_idx nr smr_zone_idx smr_nrz : Z) (cond : zbc_zone_cond)
  : res (bool * zbc_dev) :=
  match n with
  | O => Ok (true, s)
  | S n' =>
      d ← domain_at s i;
      let start_lba :=
        if zbc_smr_domain d
        then wrap64 (d_start_lba d + wrap64 (smr_zone_idx * zone_size (geom s)))
        else wrap64 (d_start_lba d + wrap64 (zone_idx * zone_size (geom s))) in
      let nrz := if zbc_smr_domain d then smr_nrz else nr in
      zp ← zbc_get_zone s start_lba false;
      match zp with
      | None => Ok (false, s)
      | Some zone =>
          if zone >? wrap32 (nr_zones (geom s) - nrz) then Ok (false, s)
          else
            s' ← inject_zd_loop (Z.to_nat nrz) s zone cond;
            inject_domains_loop n' s' (i + 1) zone_idx nr smr_zone_idx smr_nrz
                                cond
      end
  end.

(** [zbc_inject_zone_cond]. *)
Definition zbc_inject_zone_cond (s : zbc_dev) (zs : zd_sizes)
    (zone_idx : Z) (cond : zbc_zone_cond) (nr : Z) : res (bool * zbc_dev) :=
  let smr_zone_idx := wrap32 (zone_idx * zd_smr_gain zs) / 100 in
  let smr_nrz := wrap32 (nr * zd_smr_gain zs) / 100 in
  inject_domains_loop (Z.to_nat (nr_domains (geom s))) s 0 zone_idx nr
                      smr_zone_idx smr_nrz cond.

(** The loop of [zbc_trim_gap_zones]: the number of gap zones at the top. *)
Fixpoint trim_loop (n : nat) (s : zbc_dev) (zone to_trim : Z) : res Z :=
  match n with
  | O => Ok to_trim
  | S n' =>
      z ← zone_at s zone;
      if negb (zbc_zone_gap z) then Ok to_trim
      else trim_loop n' s (zone - 1) (wrap32 (to_trim + 1))
  end.

Definition zbc_trim_gap_zones (s : zbc_dev) : res zbc_dev :=
  let g := geom s in
  if nr_zones g =? 0 then Ok s
  else
    to_trim ← trim_loop (Z.to_nat (nr_zones g)) s (nr_zones g - 1) 0;
    Ok (set_geom (geom_set_size
                    (wrap32 (nr_zones g - to_trim))
                    (wrap64 (logical_capacity g
                             - wrap64 (to_trim * zone_size g))) g) s).

(** The realm loop of [zbc_init_zone_realms] for the domain [j]; [k]
    counts the realms that have zones in the domain and [cob] the
    realms at the bottom that are left without. *)
Fixpoint init_realms_loop (n : nat) (s : zbc_dev) (feat : zbc_dev_features)
    (j i k cob cmr_only_tcnt cr_sz sr_sz : Z) : res (bool * zbc_dev) :=
  match n with
  | O => Ok (true, s)
  | S n' =>
      d ← domain_at s j;
      r ← realm_at s i;
      let g := geom s in
      let smr := zbc_smr_domain d in
      let add_type :=
        if smr then (cob =? 0) && (i <=? cmr_only_tcnt) else true in
      let cob' := if smr && negb (cob =? 0) then wrap32 (cob - 1) else cob in
      let rsz := if smr then sr_sz else cr_sz in
      let rl := if smr then nr_smr_realm_zones g else nr_cmr_realm_zones g in
      if add_type then
        ri ← zbc_get_realm_item r (d_type d);
        s1 ← upd_realm i
               (fun r =>
                  realm_set_flags
                    (wrap8 (Z.lor (r_flags r)
                                  (Z.shiftl 1 (zone_type_code (d_type d) - 1))))
                    (realm_set_item (d_type d)
                       (mk_realm_item (wrap64 (d_start_lba d + wrap64 (k * rsz)))
                                      rl (ri_start_zone ri)) r)) s;
        match zbc_init_zones_zd s1 feat i j with
        | Ok (true, s2) =>
            init_realms_loop n' s2 feat j (i + 1) (wrap32 (k + 1)) cob'
                             cmr_only_tcnt cr_sz sr_sz
        | r => r
        end
      else
        s1 ← upd_domain j
               (fun d => mk_domain (d_start_lba d)
                           (wrap64 (d_end_lba d - wrap64 (rl * zone_size g)))
                           (wrap32 (d_nr_zones d - rl)) (d_type d) (d_flags d)) s;
        init_realms_loop n' s1 feat j (i + 1) k cob' cmr_only_tcnt cr_sz sr_sz
  end.

(** The domain loop of [zbc_init_zone_realms]. *)
Fixpoint init_realm_domains_loop (n : nat) (s : zbc_dev)
    (feat : zbc_dev_features) (j cmr_only_tcnt cr_sz sr_sz : Z)
  : res (bool * zbc_dev) :=
  match n with
  | O => Ok (true, s)
  | S n' =>
      match init_realms_loop (Z.to_nat (nr_realms (geom s))) s feat j 0 0
              (nr_bot_cmr feat) cmr_only_tcnt cr_sz sr_sz with
      | Ok (true, s1) =>
          init_realm_domains_loop n' s1 feat (j + 1) cmr_only_tcnt cr_sz sr_sz
      | r => r
      end
  end.

(** The first loop of [zbc_init_zone_realms]: numbers and types. *)
Fixpoint init_realm_ids (rs : list zbc_zone_realm) (i : Z) (t : zbc_zone_type)
  : list zbc_zone_realm :=
  match rs with
  | [] => []
  | r :: rest =>
      realm_set_type t (realm_set_number i r) :: init_realm_ids rest (i + 1) t
  end.

(** [zbc_init_zone_realms]; [false] is the error return. *)
Definition zbc_init_zone_realms (s : zbc_dev) (feat : zbc_dev_features)
    (zs : zd_sizes) : res (bool * zbc_dev) :=
  let g := geom s in
  let cmr_only_tcnt := wrap32 (nr_realms g - nr_top_cmr feat - 1) in
  d0 ← domain_at s 0;
  let t := if zbc_smr_domain d0 then initial_smr_type feat
           else initial_cmr_type feat in
  let s0 := if nr_realms g =? 0 then s
            else set_realms (init_realm_ids (realms s) 0 t) s in
  let cr_sz := wrap64 (Z.shiftl (nr_cmr_realm_zones g) (zone_log2 g)) in
  let sr_sz := wrap64 (Z.shiftl (nr_smr_realm_zones g) (zone_log2 g)) in
  '(ok, s1) ← init_realm_domains_loop (Z.to_nat (nr_domains g)) s0 feat 0
                cmr_only_tcnt cr_sz sr_sz;
  if negb ok then Ok (false, s1)
  else
    s2 ← zbc_trim_gap_zones s1;
    '(ok, s3) ←
      (if negb (nr_rdonly_zones feat =? 0) then
         let zone_idx := wrap32 (rdonly_zone_offset feat) in
         if wrap64 (zone_idx + nr_rdonly_zones feat) >=? zd_nr_conv_zones zs
         then Ok (false, s2)
         else zbc_inject_zone_cond s2 zs zone_idx ZBC_ZONE_COND_READONLY
                                   (wrap32 (nr_rdonly_zones feat))
       else Ok (true, s2));
    if negb ok then Ok (false, s3)
    else
      '(ok, s4) ←
        (if negb (nr_offline_zones feat =? 0) then
           let zone_idx := wrap32 (offline_zone_offset feat) in
           if wrap64 (zone_idx + nr_offline_zones feat) >=? zd_nr_conv_zones zs
           then Ok (false, s3)
           else zbc_inject_zone_cond s3 zs zone_idx ZBC_ZONE_COND_OFFLINE
                                     (wrap32 (nr_offline_zones feat))
         else Ok (true, s3));
      if negb ok then Ok (false, s4)
      else Ok (true, set_stats (set_min_empty_zones (nr_empty_zones s4)
                                                    (stats s4)) s4).

(** [zbc_init_domain_mapping]: the first domain of every zone type, -1
    if there is none. *)
Fixpoint find_domain (ds : list zbc_zone_domain) (t : zbc_zone_type) (j : Z)
  : Z :=
  match ds with
  | [] => -1
  | d :: rest => if bool_decide (d_type d = t) then j
                 else find_domain rest t (j + 1)
  end.

Definition zbc_init_domain_mapping (s : zbc_dev) : zbc_dev :=
  let ds := take (Z.to_nat (nr_domains (geom s))) (domains (geom s)) in
  set_geom (geom_set_zone_type_to_dom
              [find_domain ds ZBC_ZONE_TYPE_CONVENTIONAL 0;
               find_domain ds ZBC_ZONE_TYPE_SEQWRITE_REQ 0;
               find_domain ds ZBC_ZONE_TYPE_SEQWRITE_PREF 0;
               find_domain ds ZBC_ZONE_TYPE_SEQ_OR_BEF_REQ 0]
              (geom s)) s.

(** [zbc_format_meta_zd] for a feature profile; [None] is an error
    return.  The metadata image is new and zeroed, and [zbc_format_meta]
    has reset the count of empty zones. *)
Definition zbc_format_meta_zd (feat : zbc_dev_features) (cfg : zbc_dev_config)
    (pagesize : Z) (file : backstore) : res (option zbc_dev) :=
  let lba_size := cfg_lba_size cfg in
  let lba_log2 := zbc_log2 lba_size in
  if (lba_size =? 0) || (cfg_zone_size cfg / lba_size =? 0)
     || (cfg_smr_gain cfg =? 0) then Oob
  else
  let phys_capacity := cfg_phys_capacity cfg / lba_size in
  let zone_size := cfg_zone_size cfg / lba_size in
  let zone_log2 := zbc_log2 zone_size in
  let realm_size := cfg_realm_size cfg / lba_size in
  let smr_gain := cfg_smr_gain cfg in
  if realm_size >? phys_capacity / 2 then Ok None
  else if (realm_size <? wrap64 (zone_size * 2))
          || negb (realm_size mod zone_size =? 0) then Ok None
  else
  let nr_realms :=
    wrap32 (wrap64 (phys_capacity + realm_size - 1) / realm_size) in
  if nr_realms =? 0 then Oob
  else
  let phys_capacity := wrap64 (nr_realms * realm_size) in
  let smr_cap0 := phys_capacity in
  let cmr_cap0 := wrap64 (smr_cap0 * 100) / smr_gain in
  let nr_conv0 := wrap32 (Z.shiftr (wrap64 (cmr_cap0 + zone_size - 1)) zone_log2) in
  let nr_seq0 := wrap32 (Z.shiftr (wrap64 (smr_cap0 + zone_size - 1)) zone_log2) in
  let nr_cmr_realm_zones := nr_conv0 / nr_realms in
  let nr_smr_realm_zones := nr_seq0 / nr_realms in
  let nr_conv_zones := wrap32 (nr_cmr_realm_zones * nr_realms) in
  let nr_seq_zones := wrap32 (nr_smr_realm_zones * nr_realms) in
  (* zbc_calc_total_zd_capacity *)
  let smr_cap := wrap32 (Z.shiftl nr_seq_zones zone_log2) in
  let cmr_cap := wrap32 (Z.shiftl nr_conv_zones zone_log2) in
  let add (on : bool) (cap n : Z) (acc : Z * Z * Z) :=
    if on then (wrap64 (fst (fst acc) + cap), wrap32 (snd (fst acc) + n),
                wrap32 (snd acc + 1))
    else acc in
  let acc := add (actv_of_conv feat) cmr_cap nr_conv_zones (0, 0, 0) in
  let acc := add (actv_of_seq_req feat) smr_cap nr_seq_zones acc in
  let acc := add (actv_of_seq_pref feat) smr_cap nr_seq_zones acc in
  let acc := add (actv_of_sobr feat) cmr_cap nr_conv_zones acc in
  let total_cap := fst (fst acc) in
  let gapz := wrap32 (wrap32 (snd acc - 1) * domain_gap feat) in
  let logical_capacity := wrap64 (total_cap + wrap64 (gapz * zone_size)) in
  let nr_zones := wrap32 (snd (fst acc) + gapz) in
  cmr_map ← nr_zone_map (Z.to_nat nr_cmr_realm_zones) 0 nr_cmr_realm_zones
                        nr_smr_realm_zones;
  smr_map ← nr_zone_map (Z.to_nat nr_smr_realm_zones) 0 nr_smr_realm_zones
                        nr_cmr_realm_zones;
  let nr_open :=
    if cfg_open_num cfg >=? nr_seq_zones / 2
    then (if nr_seq_zones / 2 =? 0 then 1 else nr_seq_zones / 2)
    else cfg_open_num cfg in
  let wpc := match cfg_wp_check cfg with
             | Some b => b
             | None => initial_wp_check feat
             end in
  let msize := zbc_meta_size pagesize nr_realms nr_zones in
  let g := mk_geom ZBC_MT_ZONE_DOM msize lba_log2 zone_size zone_log2 nr_zones
                   nr_open [] 0 [] nr_realms nr_cmr_realm_zones
                   nr_smr_realm_zones wpc (cfg_realms_feat_set cfg)
                   logical_capacity cmr_map smr_map in
  let s0 := mk_dev g (replicate (Z.to_nat nr_zones) zero_zone)
                   (replicate (Z.to_nat nr_realms) zero_realm)
                   zbc_init_zone_list zbc_init_zone_list
                   zbc_init_zone_list zbc_init_zone_list
                   0 0 0 zero_stats
                   (mk_bs (wrap64 (msize + wrap64 (phys_capacity * lba_size)))
                          (bs_data file)) in
  let zs := mk_zd_sizes nr_conv_zones nr_seq_zones cmr_cap smr_cap smr_gain in
  let s1 := zbc_init_zone_domains s0 feat zs in
  match zbc_init_zone_realms s1 feat zs with
  | Ok (true, s2) => Ok (Some (zbc_init_domain_mapping s2))
  | Ok (false, _) => Ok None
  | Oob => Oob
  | Fuel => Fuel
  end.

(** The feature profile ZD_BARE_BONE of [zbc_opt_feat]. *)
Definition feat_ZD_BARE_BONE : zbc_dev_features :=
  mk_features ZBC_ZONE_TYPE_CONVENTIONAL ZBC_ZONE_COND_NOT_WP
              ZBC_ZONE_TYPE_SEQWRITE_REQ ZBC_ZONE_COND_EMPTY
              false true true false false 0 0 0 0 0 0 0.

(** A small Zone Domains device: 512-byte LBAs, zones of 8 LBAs, three
    realms of two zones, conventional and sequential write required
    domains of the same size, unrestricted reads. *)
Definition zd_cfg : zbc_dev_config :=
  mk_config (6 * 8 * 512) false 512 (8 * 512) None 2 (Some false)
            (2 * 8 * 512) 100 true.

Definition zd_dev : zbc_dev :=
  match zbc_format_meta_zd feat_ZD_BARE_BONE zd_cfg 4096 empty_file with
  | Ok (Some s) => s
  | _ => hm_dev
  end.

(** * Zone activation *)

Definition ZBC_ACTV_RES_HEADER_SIZE : Z := 64.
Definition ZBC_ACTV_RES_DESCRIPTOR_SIZE : Z := 24.

Definition ZBC_ACTV_ERR_NOT_INACTIVE : Z := 0x0001.
Definition ZBC_ACTV_ERR_NOT_EMPTY : Z := 0x0002.
Definition ZBC_ACTV_ERR_REALM_ALIGN : Z := 0x0004.
Definition ZBC_ACTV_ERR_MULTI_TYPES : Z := 0x0008.
Definition ZBC_ACTV_ERR_UNSUPP : Z := 0x0010.
Definition ZBC_ACTV_ERR_MULTI_DOMAINS : Z := 0x0020.

Definition ZBC_ACTV_STAT_NZP_VALID : Z := 0x80.
Definition ZBC_ACTV_STAT_ZIWUP_VALID : Z := 0x40.
Definition ZBC_ACTV_STAT_ACTIVATED : Z := 0x01.

(** The value of an [int] that holds the low 32 bits of a number. *)
Definition sint (x : Z) : Z := to_int32 (wrap32 x).

(** [struct zbc_za_results]; a list item holds the two descriptors of a
    realm. *)
Record zbc_za_results : Type := mk_za_results {
  recs : list (list Z * list Z);
  ziwup : Z;
  nr_desc : Z;
  error : Z;
}.

Definition zbc_init_actv_results : zbc_za_results :=
  mk_za_results [] ULLONG_MAX 0 0.

(** [zbc_get_zone_realm]: the realm of an LBA and the zone type of the
    domain of the LBA; the realm is -1 if there is none. *)
Fixpoint find_lba_domain (ds : list zbc_zone_domain) (lba : Z)
  : option zbc_zone_domain :=
  match ds with
  | [] => None
  | d :: rest => if (lba >=? d_start_lba d) && (lba <=? d_end_lba d)
                 then Some d else find_lba_domain rest lba
  end.

(** The binary search of [zbc_get_zone_realm]: the last realm looked at
    and its start LBA. *)
Fixpoint realm_search (fuel : nat) (s : zbc_dev) (zt : zbc_zone_type)
    (lba l h r rlba : Z) : res (Z * Z) :=
  if negb (l <=? h) then Ok (r, rlba)
  else
    match fuel with
    | O => Fuel
    | S fuel' =>
        let r := Z.quot (l + h) 2 in
        rl ← realm_at s r;
        rlba ← zbc_realm_start rl zt;
        if rlba =? lba then Ok (r, rlba)
        else if rlba <? lba then realm_search fuel' s zt lba (r + 1) h r rlba
        else realm_search fuel' s zt lba l (r - 1) r rlba
    end.

Definition zbc_get_zone_realm (s : zbc_dev) (lba : Z) (lowest : bool)
  : res (Z * zbc_zone_type) :=
  let g := geom s in
  match find_lba_domain (take (Z.to_nat (nr_domains g)) (domains g)) lba with
  | None => Ok (-1, ZBC_ZONE_TYPE_GAP)
  | Some d =>
      let zt := d_type d in
      let h := sint (nr_realms g - 1) in
      if negb (0 <=? h) then Oob
      else
        '(r, rlba) ← realm_search (S (Z.to_nat (nr_realms g))) s zt lba 0 h 0 0;
        '(r, rlba, bad) ←
          (if lba <? rlba then
             if r =? 0 then Ok (r, rlba, true)
             else
               rl ← realm_at s (r - 1);
               rlba ← zbc_realm_start rl zt;
               Ok (r - 1, rlba, false)
           else Ok (r, rlba, false));
        if bad : bool then Ok (-1, zt)
        else
          rl ← realm_at s r;
          rlen ← zbc_realm_length rl zt;
          if negb (rlen =? 0)
             && ((lba <? rlba)
                 || (lba >=? wrap64 (rlba + wrap32 (Z.shiftl rlen (zone_log2 g)))))
          then Ok (-1, zt)
          else if lowest && negb (lba =? rlba) then Ok (-1, zt)
          else Ok (r, zt)
  end.

(** [zbc_fill_actv_record]: the 24 bytes of an activation results
    descriptor. *)
Definition zbc_fill_actv_record (s : zbc_dev) (zone : Z) (cond : zbc_zone_cond)
    (nr : Z) : res (list Z) :=
  z ← zone_at s zone;
  dom ← zbc_get_zone_domain s zone;
  let buf := repeat 0 (Z.to_nat ZBC_ACTV_RES_DESCRIPTOR_SIZE) in
  let buf := put 0 [wrap8 (zone_type_code (z_type z))] buf in
  let buf := put 1 [wrap8 (Z.shiftl (zone_cond_code cond) 4)] buf in
  let buf := put 2 [wrap8 dom] buf in
  let buf := put 8 (zbc_cpbe64 nr) buf in
  Ok (put 16 (zbc_cpbe64 (z_start z)) buf).

Definition zbc_cmr_to_smr_zones (s : zbc_dev) (cmr_zones : Z) : res Z :=
  if cmr_zones =? 0 then Ok (-1)
  else match cmr_nr_zones_to_smr (geom s) !! Z.to_nat (cmr_zones - 1) with
       | Some v => Ok (sint v)
       | None => Oob
       end.

Definition zbc_smr_to_cmr_zones (s : zbc_dev) (smr_zones : Z) : res Z :=
  if smr_zones =? 0 then Ok (-1)
  else match smr_nr_zones_to_cmr (geom s) !! Z.to_nat (smr_zones - 1) with
       | Some v => Ok (sint v)
       | None => Oob
       end.

(** [zbc_get_deactv_realm_zones]: the result as the caller stores it,
    in an [unsigned int]. *)
Definition zbc_get_deactv_realm_zones (s : zbc_dev) (r : zbc_zone_realm)
    (offset length : Z) (new_type : zbc_zone_type) : res Z :=
  len ←
    (if negb (bool_decide (r_type r = new_type)) then
       old_dom ← zbc_domain_id s (r_type r);
       new_dom ← zbc_domain_id s new_type;
       if (old_dom <? 0) || (new_dom <? 0) then Ok None
       else
         od ← domain_at s old_dom;
         nd ← domain_at s new_dom;
         if zbc_smr_domain od && negb (zbc_smr_domain nd) then
           l ← zbc_cmr_to_smr_zones s length; Ok (Some (wrap32 l))
         else if negb (zbc_smr_domain od) && zbc_smr_domain nd then
           l ← zbc_smr_to_cmr_zones s length; Ok (Some (wrap32 l))
         else Ok (Some length)
     else Ok (Some length));
  match len with
  | None => Ok (wrap32 (-1))
  | Some length =>
      rlen ← zbc_realm_length r (r_type r);
      Ok (Z.min (wrap32 (rlen - offset)) length)
  end.

(** A loop over [n] zones that stops at the first zone for which [bad]
    holds: the start LBA of the zone where it stopped, and whether an
    earlier zone was [good]. *)
Fixpoint scan_zones (bad good : zbc_zone -> bool) (zs : list zbc_zone)
    (n : Z) (have : bool) : res (option Z * bool) :=
  if n <=? 0 then Ok (None, have)
  else match zs with
       | [] => Oob
       | z :: rest =>
           if bad z then Ok (Some (z_start z), have)
           else scan_zones bad good rest (n - 1) (have || good z)
       end.

Definition zones_from_index (s : zbc_dev) (zone : Z) : list zbc_zone :=
  if zone <? 0 then [] else drop (Z.to_nat zone) (zones s).

(** The result of a check of [zbc_chk_can_actv_realm]: passed, or the
    error bits and the zone ID with unmet prerequisites. *)
Definition chk_fail (err zi : Z) (actv_res : zbc_za_results)
  : bool * zbc_za_results :=
  (false, mk_za_results (recs actv_res) zi (nr_desc actv_res)
                        (wrap32 (Z.lor (error actv_res) err))).

(** [zbc_chk_can_actv_realm]. *)
Definition zbc_chk_can_actv_realm (s : zbc_dev) (r : zbc_zone_realm)
    (offset length : Z) (new_type : zbc_zone_type) (all : bool)
    (actv_res : zbc_za_results) : res (bool * zbc_za_results) :=
  if (negb all && negb (zbc_can_actv_realm_as r new_type))
     || (zbc_realm_nowp r && zbc_act_type_sobr new_type)
     || (zbc_realm_sobr r && zbc_act_type_nowp new_type)
     || (zbc_realm_seq_p r && zbc_act_type_seq_r new_type)
     || (zbc_realm_seq_r r && zbc_act_type_seq_p new_type)
  then
    zi ← zbc_realm_start r (r_type r);
    Ok (chk_fail ZBC_ACTV_ERR_UNSUPP zi actv_res)
  else
    (* the zones that are being deactivated *)
    z0 ← zbc_realm_start_zone r (r_type r);
    nr ← zbc_get_deactv_realm_zones s r offset length new_type;
    '(stop, have_zt) ←
      (if all then
         scan_zones (fun z => zbc_zone_closed z || zbc_zone_exp_open z
                              || zbc_zone_imp_open z || zbc_zone_full z)
                    (fun z => zbc_zone_empty z || zbc_zone_inactive z)
                    (zones_from_index s (z0 + offset)) nr false
       else
         scan_zones (fun z => negb (zbc_zone_conv z) && negb (zbc_zone_empty z)
                              && negb (zbc_zone_inactive z))
                    (fun _ => true)
                    (zones_from_index s (z0 + offset)) nr true);
    match stop with
    | Some zi => Ok (chk_fail ZBC_ACTV_ERR_NOT_EMPTY zi actv_res)
    | None =>
        if negb have_zt
        then Ok (chk_fail ZBC_ACTV_ERR_NOT_EMPTY ULLONG_MAX actv_res)
        else if negb (zbc_can_actv_realm_as r new_type) then Ok (true, actv_res)
        else
          (* the zones that are being activated *)
          z1 ← zbc_realm_start_zone r new_type;
          rlen ← zbc_realm_length r new_type;
          let nr := Z.min (wrap32 (rlen - offset)) length in
          '(stop, have_zt) ←
            (if all then
               scan_zones (fun z => zbc_zone_imp_open z || zbc_zone_full z)
                          (fun z => zbc_zone_inactive z || zbc_zone_empty z)
                          (zones_from_index s (z1 + offset)) nr false
             else
               scan_zones (fun z => negb (zbc_zone_conv z)
                                    && negb (zbc_zone_empty z)
                                    && negb (zbc_zone_rdonly z)
                                    && negb (zbc_zone_offline z)
                                    && negb (zbc_zone_inactive z))
                          (fun _ => true)
                          (zones_from_index s (z1 + offset)) nr true);
          match stop with
          | Some zi => Ok (chk_fail ZBC_ACTV_ERR_NOT_INACTIVE zi actv_res)
          | None =>
              if negb have_zt
              then Ok (chk_fail ZBC_ACTV_ERR_NOT_INACTIVE ULLONG_MAX actv_res)
              else Ok (true, actv_res)
          end
    end.

(** The zone loop of [zbc_deactivate_realm_zones]. *)
Fixpoint deactivate_loop (n : nat) (s : zbc_dev) (zone : Z)
    (cond : zbc_zone_cond) : res zbc_dev :=
  match n with
  | O => Ok s
  | S n' =>
      z ← zone_at s zone;
      if zbc_zone_rdonly z || zbc_zone_offline z
      then deactivate_loop n' s (zone + 1) cond
      else
        s1 ← zbc_unlink_zone s zone;
        s2 ← zbc_on_cond_change s1 zone cond;
        s3 ← upd_zone zone (zone_set_cond cond) s2;
        s4 ← zbc_set_initial_wp s3 zone;
        deactivate_loop n' s4 (zone + 1) cond
  end.

(** [zbc_deactivate_realm_zones]: the descriptor and the device. *)
Definition zbc_deactivate_realm_zones (s : zbc_dev) (r : zbc_zone_realm)
    (new_type : zbc_zone_type) (dry_run : bool) : res (list Z * zbc_dev) :=
  zone ← zbc_realm_start_zone r (r_type r);
  nr ← zbc_realm_length r (r_type r);
  '(dry_run, cond) ←
    (if bool_decide (new_type = r_type r) then
       z ← zone_at s zone; Ok (true, z_cond z)
     else Ok (dry_run, ZBC_ZONE_COND_INACTIVE));
  buf ← zbc_fill_actv_record s zone cond nr;
  if dry_run : bool then Ok (buf, s)
  else
    s' ← deactivate_loop (Z.to_nat nr) s zone cond;
    Ok (buf, s').

(** The zone loop of [zbc_activate_realm_zones]. *)
Fixpoint activate_loop (n : nat) (s : zbc_dev) (zone : Z)
    (cond : zbc_zone_cond) : res zbc_dev :=
  match n with
  | O => Ok s
  | S n' =>
      z ← zone_at s zone;
      if zbc_zone_rdonly z || zbc_zone_offline z
      then activate_loop n' s (zone + 1) cond
      else
        s1 ← zbc_unlink_zone s zone;
        z1 ← zone_at s1 zone;
        let s2 := if negb (bool_decide (z_cond z1 = ZBC_ZONE_COND_EMPTY))
                     && bool_decide (cond = ZBC_ZONE_COND_EMPTY)
                  then set_nr_empty_zones (wrap32 (nr_empty_zones s1 + 1)) s1
                  else s1 in
        s3 ← upd_zone zone (zone_set_cond cond) s2;
        s4 ← zbc_set_initial_wp s3 zone;
        activate_loop n' s4 (zone + 1) cond
  end.

(** [zbc_activate_realm_zones]. *)
Definition zbc_activate_realm_zones (s : zbc_dev) (r : zbc_zone_realm)
    (new_type : zbc_zone_type) (dry_run : bool) : res (list Z * zbc_dev) :=
  zone ← zbc_realm_start_zone r new_type;
  nr ← zbc_realm_length r new_type;
  '(dry_run, cond) ←
    (if bool_decide (new_type = r_type r) then
       z ← zone_at s zone; Ok (true, z_cond z)
     else if zbc_act_type_nowp new_type then Ok (dry_run, ZBC_ZONE_COND_NOT_WP)
     else Ok (dry_run, ZBC_ZONE_COND_EMPTY));
  buf ← zbc_fill_actv_record s zone cond nr;
  if dry_run : bool then Ok (buf, s)
  else
    s' ← activate_loop (Z.to_nat nr) s zone cond;
    Ok (buf, s').

(** [zbc_activate_realm] for the realm [i]: the return value (1 when a
    check failed), the results and the device.  The results list item is
    taken to be allocated. *)
Definition zbc_activate_realm (s : zbc_dev) (i : Z) (offset length : Z)
    (new_type : zbc_zone_type) (dry_run all : bool)
    (actv_res : zbc_za_results) : res (Z * zbc_za_results * zbc_dev) :=
  r ← realm_at s i;
  '(ok, actv_res) ← zbc_chk_can_actv_realm s r offset length new_type all
                                           actv_res;
  if negb ok then Ok (1, actv_res, s)
  else if negb (zbc_can_actv_realm_as r new_type) then Ok (0, actv_res, s)
  else
    rs_old ← zbc_realm_start r (r_type r);
    rs_new ← zbc_realm_start r new_type;
    let deac_1st := rs_old <? rs_new in
    let n1 := if negb (rs_old =? rs_new) then wrap32 (nr_desc actv_res + 1)
              else nr_desc actv_res in
    '(dbuf, s1) ← zbc_deactivate_realm_zones s r new_type dry_run;
    let n2 := wrap32 (n1 + 1) in
    '(abuf, s2) ← zbc_activate_realm_zones s1 r new_type dry_run;
    s3 ← (if negb dry_run then upd_realm i (realm_set_type new_type) s2
          else Ok s2);
    Ok (0,
        mk_za_results (recs actv_res
                       ++ [if deac_1st then (dbuf, abuf) else (abuf, dbuf)])
                      (ziwup actv_res) n2 (error actv_res),
        s3).

(** The loop of [zbc_zone_activate] that finds the realm after the last
    one of the range; [n] bounds [end] by the number of realms. *)
Fixpoint actv_end_loop (n : nat) (end_ nz sz : Z) : Z * Z :=
  match n with
  | O => (end_, nz)
  | S n' => if nz >? 0 then actv_end_loop n' (end_ + 1) (sint (nz - sz)) sz
            else (end_, nz)
  end.

(** The realm loop of [zbc_zone_activate]: whether every realm passed,
    the results and the device. *)
Fixpoint actv_realms_loop (n : nat) (s : zbc_dev) (i ofs nz sz : Z)
    (new_type : zbc_zone_type) (dry_run all : bool)
    (actv_res : zbc_za_results) : res (bool * zbc_za_results * zbc_dev) :=
  match n with
  | O => Ok (true, actv_res, s)
  | S n' =>
      '(ret, actv_res', s') ←
        zbc_activate_realm s i (wrap32 ofs) (wrap32 (Z.min nz sz)) new_type
                           dry_run all actv_res;
      if negb (ret =? 0) then Ok (false, actv_res', s')
      else actv_realms_loop n' s' (i + 1) 0 (sint (nz - sz + ofs)) sz new_type
                            dry_run all actv_res'
  end.

(** What [zbc_zone_activate] has settled when it starts on the realms. *)
Record actv_plan : Type := mk_actv_plan {
  ap_start_realm : Z;
  ap_end : Z;
  ap_ofs : Z;
  ap_sz : Z;
  ap_new_type : zbc_zone_type;
}.

(** The outcome of the first part of [zbc_zone_activate]: the command
    is rejected with a sense code, or a prerequisite of the whole range
    is unmet (error bits and zone ID), or the realms are to be gone
    through. *)
Inductive actv_start : Type :=
| ActvIllReq
| ActvUnmet (err zi : Z)
| ActvPlan (p : actv_plan).

(** The first part of [zbc_zone_activate], up to the realm loop; the
    start LBA and the number of zones are returned as ALL replaces
    them. *)
Definition actv_prepare (s : zbc_dev) (start_lba nrz domain_id alloc_len : Z)
    (all : bool) : res (actv_start * Z * Z) :=
  let g := geom s in
  if domain_id >=? nr_domains g then Ok (ActvIllReq, start_lba, nrz)
  else
    d ← domain_at s domain_id;
    let start_lba := if all then d_start_lba d else start_lba in
    let nrz := if all then d_nr_zones d else nrz in
    if (nrz =? 0) || (nrz >? nr_zones g)
       || (alloc_len <? ZBC_ACTV_RES_HEADER_SIZE)
    then Ok (ActvIllReq, start_lba, nrz)
    else
      zp ← zbc_get_zone s start_lba true;
      match zp with
      | None => Ok (ActvIllReq, start_lba, nrz)
      | Some zone =>
          if zone >? wrap32 (nr_zones g - nrz)
          then Ok (ActvIllReq, start_lba, nrz)
          else
            i ← zbc_get_zone_domain s zone;
            if i <? 0 then Ok (ActvIllReq, start_lba, nrz)
            else
              '(start_realm, addr_zt) ←
                zbc_get_zone_realm s start_lba (realms_feat_set g && negb all);
              if start_realm <? 0 then
                Ok (ActvUnmet ZBC_ACTV_ERR_REALM_ALIGN start_lba,
                    start_lba, nrz)
              else
                z ← zone_at s zone;
                let new_type := if all || negb (zbc_zone_inactive z)
                                then d_type d else addr_zt in
                e ← zbc_get_zone_domain s (zone + nrz - 1);
                if negb (i =? e) then
                  Ok (ActvUnmet ZBC_ACTV_ERR_MULTI_DOMAINS start_lba,
                      start_lba, nrz)
                else
                  ofs ← (if negb (realms_feat_set g) then
                           r ← realm_at s start_realm;
                           rs ← zbc_realm_start r (z_type z);
                           Ok (Z.shiftr (wrap64 (z_start z - rs)) (zone_log2 g))
                         else Ok 0);
                  di ← zbc_domain_id s addr_zt;
                  dd ← domain_at s di;
                  let sz := sint (if zbc_smr_domain dd
                                  then nr_smr_realm_zones g
                                  else nr_cmr_realm_zones g) in
                  let nz := sint nrz in
                  let '(end0, nz0) :=
                    if negb (ofs =? 0) then (start_realm + 1, sint (nz - sz + ofs))
                    else (start_realm, nz) in
                  let '(end_, nz1) :=
                    actv_end_loop (Z.to_nat (nr_realms g - end0)) end0 nz0 sz in
                  if realms_feat_set g && negb (nz1 =? 0) then
                    Ok (ActvUnmet ZBC_ACTV_ERR_REALM_ALIGN start_lba,
                        start_lba, nrz)
                  else
                    Ok (ActvPlan (mk_actv_plan start_realm end_ ofs sz new_type),
                        start_lba, nrz)
      end.

(** The header of the activation results. *)
Definition actv_header (nrz domain_id alloc_len : Z) (all nozsrc dry_run ok : bool)
    (actv_res : zbc_za_results) : list Z :=
  let hdr := repeat 0 (Z.to_nat ZBC_ACTV_RES_HEADER_SIZE) in
  let hdr := put 10 [wrap8 domain_id] hdr in
  let flags := Z.lor (if nozsrc then 0x02 else 0) (if all then 0x01 else 0) in
  let hdr := put 12 [flags] hdr in
  let status := if all then 0 else ZBC_ACTV_STAT_NZP_VALID in
  let hdr := if all then hdr else put 16 (zbc_cpbe32 (wrap32 (sint nrz))) hdr in
  let len := sint (alloc_len - ZBC_ACTV_RES_HEADER_SIZE) in
  let sz := sint (nr_desc actv_res * ZBC_ACTV_RES_DESCRIPTOR_SIZE) in
  let hdr := put 0 (zbc_cpbe32 (wrap32 sz)) hdr in
  let hdr := put 4 (zbc_cpbe32 (wrap32 (Z.min sz len))) hdr in
  let ziwup_valid := negb ok && negb (ziwup actv_res =? ULLONG_MAX) in
  let status :=
    if ok then (if negb dry_run then Z.lor status ZBC_ACTV_STAT_ACTIVATED
                else status)
    else if ziwup_valid then Z.lor status ZBC_ACTV_STAT_ZIWUP_VALID
    else status in
  let hdr := if ziwup_valid then put 24 (zbc_cpbe48 (ziwup actv_res)) hdr
             else hdr in
  let hdr := put 8 [wrap8 status] hdr in
  put 9 [wrap8 (error actv_res)] hdr.

(** The first output loop: the first descriptor of every list item while
    there is room; what is left of the count [i] and of the list. *)
Fixpoint emit_first (ds : list (list Z * list Z)) (i len : Z)
    (iov : list iovec) : Z * Z * list iovec :=
  match ds with
  | [] => (i, len, iov)
  | d :: rest =>
      if len <? ZBC_ACTV_RES_DESCRIPTOR_SIZE then (i, len, iov)
      else
        let '(sz, iov') := tcmu_memcpy_into_iovec iov (fst d) in
        emit_first rest (sint (i - 1)) (sint (len - sz)) iov'
  end.

(** The second output loop: the second descriptors, while the count is
    not used up. *)
Fixpoint emit_second (ds : list (list Z * list Z)) (i len : Z)
    (iov : list iovec) : list iovec :=
  match ds with
  | [] => iov
  | d :: rest =>
      if i =? 0 then iov
      else if len <? ZBC_ACTV_RES_DESCRIPTOR_SIZE then iov
      else
        let '(sz, iov') := tcmu_memcpy_into_iovec iov (snd d) in
        emit_second rest (sint (i - 1)) (sint (len - sz)) iov'
  end.

(** The last part of [zbc_zone_activate], from the label [outhdr]. *)
Definition actv_output (iov : list iovec) (nrz domain_id alloc_len : Z)
    (all nozsrc dry_run ok : bool) (actv_res : zbc_za_results) : list iovec :=
  let hdr := actv_header nrz domain_id alloc_len all nozsrc dry_run ok actv_res in
  let '(sz, iov1) := tcmu_memcpy_into_iovec iov hdr in
  if negb ok || (sz <? ZBC_ACTV_RES_HEADER_SIZE) then iov1
  else
    let len := sint (tcmu_iovec_length iov1) in
    let '(i, len', iov2) := emit_first (recs actv_res) (sint (nr_desc actv_res))
                                       len iov1 in
    emit_second (recs actv_res) i len' iov2.

(** [zbc_zone_activate]: ZONE ACTIVATE, and ZONE QUERY when [dry_run] is
    set. *)
Definition zbc_zone_activate (s : zbc_dev) (iov : list iovec)
    (start_lba nrz domain_id alloc_len : Z) (all nozsrc dry_run : bool)
  : res (tcmu_sts * zbc_dev * list iovec) :=
  '(st, start_lba', nrz') ← actv_prepare s start_lba nrz domain_id alloc_len all;
  match st with
  | ActvIllReq =>
      Ok (zbc_set_sense ILLEGAL_REQUEST ASC_INVALID_FIELD_IN_CDB, s, iov)
  | ActvUnmet err zi =>
      let actv_res := mk_za_results [] zi 0 err in
      Ok (TCMU_STS_OK, s,
          actv_output iov nrz' domain_id alloc_len all nozsrc dry_run false
                      actv_res)
  | ActvPlan p =>
      '(ok, actv_res, s') ←
        actv_realms_loop (Z.to_nat (ap_end p - ap_start_realm p)) s
                         (ap_start_realm p) (ap_ofs p) (sint nrz') (ap_sz p)
                         (ap_new_type p) dry_run all zbc_init_actv_results;
      Ok (TCMU_STS_OK, s',
          actv_output iov nrz' domain_id alloc_len all nozsrc dry_run ok
                      actv_res)
  end.

(** * Properties of zone activation *)

(** ** The checks and the realms of a command *)

(** How far [zbc_zone_activate] gets before it writes its output: [None]
    when the command is rejected with a sense code; else whether every
    prerequisite is met, the results and the device. *)
Definition actv_outcome (s : zbc_dev) (start_lba nrz domain_id alloc_len : Z)
    (all dry_run : bool) : res (option (bool * zbc_za_results * zbc_dev)) :=
  '(st, _, nrz') ← actv_prepare s start_lba nrz domain_id alloc_len all;
  match st with
  | ActvIllReq => Ok None
  | ActvUnmet err zi => Ok (Some (false, mk_za_results [] zi 0 err, s))
  | ActvPlan p =>
      r ← actv_realms_loop (Z.to_nat (ap_end p - ap_start_realm p)) s
                           (ap_start_realm p) (ap_ofs p) (sint nrz') (ap_sz p)
                           (ap_new_type p) dry_run all zbc_init_actv_results;
      Ok (Some r)
  end.

(** The number of zones that the header and the descriptors go by. *)
Definition actv_nr_zones (s : zbc_dev) (nrz domain_id : Z) (all : bool) : Z :=
  if all then
    match domain_at s domain_id with
    | Ok d => d_nr_zones d
    | _ => nrz
    end
  else nrz.

Lemma actv_prepare_nr_zones s start_lba nrz domain_id alloc_len all st lba' nrz' :
  actv_prepare s start_lba nrz domain_id alloc_len all = Ok (st, lba', nrz') ->
  st <> ActvIllReq ->
  nrz' = actv_nr_zones s nrz domain_id all.
Proof.
  unfold actv_prepare, actv_nr_zones. intros H Hst.
  destruct (domain_id >=? nr_domains (geom s)).
  { inversion H; subst. congruence. }
  destruct (domain_at s domain_id) as [d| |]; simpl in H; try discriminate.
  repeat match type of H with
  | (if ?b then _ else _) = _ => destruct b
  | (match ?m with Ok _ => _ | Oob => _ | Fuel => _ end) = _ =>
      destruct m; simpl in H; try discriminate
  | (?m ≫= _) = _ => destruct m; simpl in H; try discriminate
  | (match ?m with Some _ => _ | None => _ end) = _ => destruct m
  | (let '(_, _) := ?p in _) = _ => destruct p
  | Ok _ = Ok _ => inversion H; subst; clear H
  end; try congruence; try reflexivity.
Qed.

Lemma zbc_zone_activate_outcome s iov start_lba nrz domain_id alloc_len
    all nozsrc dry_run :
  zbc_zone_activate s iov start_lba nrz domain_id alloc_len all nozsrc dry_run
  = (o ← actv_outcome s start_lba nrz domain_id alloc_len all dry_run;
     match o with
     | None => Ok (zbc_set_sense ILLEGAL_REQUEST ASC_INVALID_FIELD_IN_CDB, s, iov)
     | Some (ok, ar, s') =>
         Ok (TCMU_STS_OK, s',
             actv_output iov (actv_nr_zones s nrz domain_id all) domain_id
                         alloc_len all nozsrc dry_run ok ar)
     end).
Proof.
  unfold zbc_zone_activate, actv_outcome.
  destruct (actv_prepare s start_lba nrz domain_id alloc_len all)
    as [[[st lba'] nrz']| |] eqn:Hp; simpl; try reflexivity.
  destruct st as [|err zi|p]; simpl.
  - reflexivity.
  - rewrite (actv_prepare_nr_zones _ _ _ _ _ _ _ _ _ Hp) by discriminate.
    reflexivity.
  - rewrite (actv_prepare_nr_zones _ _ _ _ _ _ _ _ _ Hp) by discriminate.
    destruct (actv_realms_loop _ _ _ _ _ _ _ _ _ _) as [[[ok ar] s']| |];
      reflexivity.
Qed.

(** ** ZONE QUERY leaves the device as it is *)

(** Split a hypothesis [(x ← m; k) = Ok b], naming the parts. *)
Ltac bind_as H x Hx := apply bind_Ok in H; destruct H as (x & Hx & H).

Lemma zbc_deactivate_realm_zones_dry s r new_type buf s' :
  zbc_deactivate_realm_zones s r new_type true = Ok (buf, s') -> s' = s.
Proof.
  unfold zbc_deactivate_realm_zones. intros H.
  bind_as H zone Hz. bind_as H nr Hn. bind_as H dc Hdc. destruct dc as [dr cond].
  assert (dr = true).
  { destruct (bool_decide _).
    - bind_as Hdc z Hzz. inversion Hdc; reflexivity.
    - inversion Hdc; reflexivity. }
  subst dr. bind_as H b Hb. inversion H; reflexivity.
Qed.

Lemma zbc_activate_realm_zones_dry s r new_type buf s' :
  zbc_activate_realm_zones s r new_type true = Ok (buf, s') -> s' = s.
Proof.
  unfold zbc_activate_realm_zones. intros H.
  bind_as H zone Hz. bind_as H nr Hn. bind_as H dc Hdc. destruct dc as [dr cond].
  assert (dr = true).
  { destruct (bool_decide _).
    - bind_as Hdc z Hzz. inversion Hdc; reflexivity.
    - destruct (zbc_act_type_nowp _); inversion Hdc; reflexivity. }
  subst dr. bind_as H b Hb. inversion H; reflexivity.
Qed.

Lemma zbc_activate_realm_dry s i offset length new_type all ar ret ar' s' :
  zbc_activate_realm s i offset length new_type true all ar = Ok (ret, ar', s') ->
  s' = s.
Proof.
  unfold zbc_activate_realm. intros H.
  bind_as H r Hr. bind_as H c Hc. destruct c as [ok ar0].
  destruct (negb ok); [inversion H; reflexivity|].
  destruct (negb (zbc_can_actv_realm_as r new_type)); [inversion H; reflexivity|].
  bind_as H rs_old Ho. bind_as H rs_new Hn. bind_as H d Hd. destruct d as [dbuf s1].
  bind_as H a Ha. destruct a as [abuf s2]. simpl in H. inversion H; subst.
  apply zbc_deactivate_realm_zones_dry in Hd. subst s1.
  apply zbc_activate_realm_zones_dry in Ha. exact Ha.
Qed.

Lemma actv_realms_loop_dry n : forall s i ofs nz sz new_type all ar ok ar' s',
  actv_realms_loop n s i ofs nz sz new_type true all ar = Ok (ok, ar', s') ->
  s' = s.
Proof.
  induction n as [|n IH]; intros s i ofs nz sz new_type all ar ok ar' s' H;
    simpl in H.
  - inversion H; reflexivity.
  - bind_as H x Hx. destruct x as [[ret ar1] s1].
    apply zbc_activate_realm_dry in Hx. subst s1.
    destruct (negb (ret =? 0)); [inversion H; reflexivity|].
    eapply IH, H.
Qed.

Lemma actv_outcome_dry s start_lba nrz domain_id alloc_len all ok ar s' :
  actv_outcome s start_lba nrz domain_id alloc_len all true
  = Ok (Some (ok, ar, s')) -> s' = s.
Proof.
  unfold actv_outcome. intros H. bind_as H x Hx. destruct x as [[st lba'] nrz'].
  destruct st as [|err zi|p].
  - discriminate.
  - inversion H; reflexivity.
  - bind_as H y Hy. destruct y as [[ok' ar'] s''].
    inversion H; subst. eapply actv_realms_loop_dry, Hy.
Qed.

(** ZONE QUERY changes nothing of the device. *)
Lemma zone_query_keeps_state s iov start_lba nrz domain_id alloc_len
    all nozsrc sts s' iov' :
  zbc_zone_activate s iov start_lba nrz domain_id alloc_len all nozsrc true
  = Ok (sts, s', iov') -> s' = s.
Proof.
  rewrite zbc_zone_activate_outcome. intros H. bind_as H o Ho.
  destruct o as [[[ok ar] s'']|].
  - inversion H; subst. eapply actv_outcome_dry, Ho.
  - inversion H; reflexivity.
Qed.

(** ** Unmet prerequisites *)

(** The error bits that an unmet prerequisite sets. *)
Definition unmet_code (err : Z) : Prop :=
  err = ZBC_ACTV_ERR_NOT_INACTIVE \/ err = ZBC_ACTV_ERR_NOT_EMPTY \/
  err = ZBC_ACTV_ERR_REALM_ALIGN \/ err = ZBC_ACTV_ERR_UNSUPP \/
  err = ZBC_ACTV_ERR_MULTI_DOMAINS.

Lemma zbc_chk_can_actv_realm_result s r offset length new_type all ar ok ar' :
  zbc_chk_can_actv_realm s r offset length new_type all ar = Ok (ok, ar') ->
  (ok = true /\ ar' = ar) \/
  (ok = false /\ exists err zi,
      unmet_code err /\
      ar' = mk_za_results (recs ar) zi (nr_desc ar)
                          (wrap32 (Z.lor (error ar) err))).
Proof.
  assert (Hf : forall err zi,
             unmet_code err ->
             Ok (chk_fail err zi ar) = Ok (ok, ar') ->
             (ok = true /\ ar' = ar) \/
             (ok = false /\ exists err zi,
                 unmet_code err /\
                 ar' = mk_za_results (recs ar) zi (nr_desc ar)
                                     (wrap32 (Z.lor (error ar) err)))).
  { intros err zi He E. unfold chk_fail in E. inversion E; subst.
    right. split; [reflexivity|]. exists err, zi. split; [exact He|reflexivity]. }
  assert (Hu : unmet_code ZBC_ACTV_ERR_UNSUPP)
    by (unfold unmet_code; auto).
  assert (He : unmet_code ZBC_ACTV_ERR_NOT_EMPTY)
    by (unfold unmet_code; auto).
  assert (Hi : unmet_code ZBC_ACTV_ERR_NOT_INACTIVE)
    by (unfold unmet_code; auto).
  unfold zbc_chk_can_actv_realm. intros H.
  match type of H with (if ?b then _ else _) = _ => destruct b end.
  { bind_as H zi Hzi. exact (Hf _ _ Hu H). }
  bind_as H z0 Hz0. bind_as H nr Hnr. bind_as H p Hp.
  destruct p as [stop have_zt].
  destruct stop as [zi|]; [exact (Hf _ _ He H)|].
  destruct (negb have_zt); [exact (Hf _ _ He H)|].
  destruct (negb (zbc_can_actv_realm_as r new_type)).
  { inversion H; subst. left. auto. }
  bind_as H z1 Hz1. bind_as H rlen Hrlen. bind_as H p2 Hp2.
  destruct p2 as [stop2 have2].
  destruct stop2 as [zi|]; [exact (Hf _ _ Hi H)|].
  destruct (negb have2); [exact (Hf _ _ Hi H)|].
  inversion H; subst. left. auto.
Qed.

Lemma zbc_activate_realm_result s i offset length new_type dry_run all ar
    ret ar' s' :
  zbc_activate_realm s i offset length new_type dry_run all ar
  = Ok (ret, ar', s') ->
  (ret = 0 /\ error ar' = error ar /\ ziwup ar' = ziwup ar) \/
  (ret = 1 /\ s' = s /\ exists err zi,
      unmet_code err /\
      ar' = mk_za_results (recs ar) zi (nr_desc ar)
                          (wrap32 (Z.lor (error ar) err))).
Proof.
  unfold zbc_activate_realm. intros H.
  bind_as H r Hr. bind_as H c Hc. destruct c as [ok ar0].
  apply zbc_chk_can_actv_realm_result in Hc.
  destruct Hc as [[-> ->]|[-> (err & zi & Herr & ->)]]; simpl in H.
  - left. destruct (negb (zbc_can_actv_realm_as r new_type)).
    + inversion H; subst. auto.
    + bind_as H rs_old Ho. bind_as H rs_new Hn. bind_as H d Hd.
      destruct d as [dbuf s1]. bind_as H a Ha. destruct a as [abuf s2].
      bind_as H s3 Hs3. inversion H; subst. simpl. auto.
  - right. inversion H; subst. eauto 10.
Qed.

Lemma unmet_code_wrap32 err : unmet_code err -> wrap32 (Z.lor 0 err) = err.
Proof.
  intros [-> | [-> | [-> | [-> | ->] ] ] ]; reflexivity.
Qed.

Lemma actv_realms_loop_result n :
  forall s i ofs nz sz new_type dry_run all ar ok ar' s',
  error ar = 0 -> ziwup ar = ULLONG_MAX ->
  actv_realms_loop n s i ofs nz sz new_type dry_run all ar = Ok (ok, ar', s') ->
  if ok then error ar' = 0 /\ ziwup ar' = ULLONG_MAX
  else unmet_code (error ar').
Proof.
  induction n as [|n IH];
    intros s i ofs nz sz new_type dry_run all ar ok ar' s' He Hz H; simpl in H.
  - inversion H; subst. auto.
  - bind_as H x Hx. destruct x as [[ret ar1] s1].
    apply zbc_activate_realm_result in Hx.
    destruct Hx as [(-> & E1 & E2)|(-> & -> & err & zi & Herr & ->)]; simpl in H.
    + eapply IH; [| |exact H]; congruence.
    + inversion H; subst. simpl. rewrite He.
      rewrite unmet_code_wrap32 by exact Herr. exact Herr.
Qed.

Lemma actv_prepare_unmet s start_lba nrz domain_id alloc_len all err zi lba' nrz' :
  actv_prepare s start_lba nrz domain_id alloc_len all
  = Ok (ActvUnmet err zi, lba', nrz') ->
  unmet_code err.
Proof.
  unfold actv_prepare, unmet_code. intros H.
  destruct (domain_id >=? nr_domains (geom s)); [discriminate|].
  repeat match type of H with
  | (if ?b then _ else _) = _ => destruct b
  | (?m ≫= _) = _ =>
      let x := fresh "x" in let Hx := fresh "Hx" in bind_as H x Hx
  | (match ?m with Some _ => _ | None => _ end) = _ => destruct m
  | (let '(_, _) := ?p in _) = _ => destruct p
  | Ok _ = Ok _ => inversion H; subst; clear H
  end; auto 10.
Qed.

(** The results of a command that got past the checks of the command
    descriptor: error bits are set exactly when a prerequisite is
    unmet. *)
Lemma actv_outcome_error s start_lba nrz domain_id alloc_len all dry_run
    ok ar s' :
  actv_outcome s start_lba nrz domain_id alloc_len all dry_run
  = Ok (Some (ok, ar, s')) ->
  if ok then error ar = 0 /\ ziwup ar = ULLONG_MAX else unmet_code (error ar).
Proof.
  unfold actv_outcome. intros H. bind_as H x Hx. destruct x as [[st lba'] nrz'].
  destruct st as [|err zi|p].
  - discriminate.
  - inversion H; subst. simpl. eapply actv_prepare_unmet, Hx.
  - bind_as H y Hy. destruct y as [[ok' ar'] s''].
    inversion H; subst.
    eapply actv_realms_loop_result; [| |exact Hy]; reflexivity.
Qed.

(** A realm loop that stops at an unmet prerequisite has gone through
    some of the realms before it, all of them with success. *)
Lemma actv_realms_loop_unmet n :
  forall s i ofs nz sz new_type dry_run all ar ar' s',
  actv_realms_loop n s i ofs nz sz new_type dry_run all ar = Ok (false, ar', s') ->
  exists k ar_k, (k < n)%nat /\
    actv_realms_loop k s i ofs nz sz new_type dry_run all ar = Ok (true, ar_k, s').
Proof.
  induction n as [|n IH];
    intros s i ofs nz sz new_type dry_run all ar ar' s' H; simpl in H.
  - discriminate.
  - bind_as H x Hx. destruct x as [[ret ar1] s1].
    pose proof (zbc_activate_realm_result _ _ _ _ _ _ _ _ _ _ _ Hx) as Hr.
    destruct Hr as [(-> & _)|(-> & -> & _)]; simpl in H.
    + apply IH in H. destruct H as (k & ar_k & Hk & Hl).
      exists (S k), ar_k. split; [lia|]. simpl. rewrite Hx. simpl. exact Hl.
    + inversion H; subst. exists O, ar. split; [lia|]. reflexivity.
Qed.

(** ** The header of the results *)

Lemma length_actv_header nrz domain_id alloc_len all nozsrc dry_run ok ar :
  length (actv_header nrz domain_id alloc_len all nozsrc dry_run ok ar) = 64%nat.
Proof.
  unfold actv_header.
  destruct all, (negb ok && negb (ziwup ar =? ULLONG_MAX));
    rewrite ?length_put_eq; try reflexivity;
    rewrite ?length_put_eq; try reflexivity.
Qed.

(** Byte 9 of the header holds the error bits. *)
Lemma actv_header_error nrz domain_id alloc_len all nozsrc dry_run ok ar :
  nth 9 (actv_header nrz domain_id alloc_len all nozsrc dry_run ok ar) 0
  = wrap8 (error ar).
Proof.
  unfold actv_header.
  destruct all, (negb ok && negb (ziwup ar =? ULLONG_MAX)); reflexivity.
Qed.

(** Byte 8 of the header of a command with an unmet prerequisite: the
    ACTIVATED bit is clear and ZIWUP VALID tells whether a zone was
    identified. *)
Lemma actv_header_status_unmet nrz domain_id alloc_len all nozsrc dry_run ar :
  let status := nth 8 (actv_header nrz domain_id alloc_len all nozsrc dry_run
                                   false ar) 0 in
  Z.land status ZBC_ACTV_STAT_ACTIVATED = 0 /\
  Z.land status ZBC_ACTV_STAT_ZIWUP_VALID
  = (if ziwup ar =? ULLONG_MAX then 0 else ZBC_ACTV_STAT_ZIWUP_VALID).
Proof.
  unfold actv_header. simpl negb. rewrite andb_true_l.
  destruct all, (ziwup ar =? ULLONG_MAX); split; reflexivity.
Qed.

(** Bytes 24 to 29 of the header hold the zone ID when there is one. *)
Lemma actv_header_ziwup nrz domain_id alloc_len all nozsrc dry_run ar :
  ziwup ar <> ULLONG_MAX ->
  take 6 (drop 24 (actv_header nrz domain_id alloc_len all nozsrc dry_run
                               false ar))
  = zbc_cpbe48 (ziwup ar).
Proof.
  intros H. apply Z.eqb_neq in H. unfold actv_header. simpl negb.
  rewrite andb_true_l, H. destruct all; reflexivity.
Qed.

(** What a command with an unmet prerequisite stores: the header, as far
    as there is room, and nothing else. *)
Lemma actv_output_unmet iov nrz domain_id alloc_len all nozsrc dry_run ar :
  iov_ok iov ->
  iov_data (actv_output iov nrz domain_id alloc_len all nozsrc dry_run false ar)
  = iov_data iov
    ++ take (Z.to_nat (iov_room iov))
            (actv_header nrz domain_id alloc_len all nozsrc dry_run false ar).
Proof.
  intros Hok. unfold actv_output.
  destruct (tcmu_memcpy_into_iovec_spec iov
              (actv_header nrz domain_id alloc_len all nozsrc dry_run false ar)
              Hok) as (iov' & E & Hd & _ & _).
  rewrite E. simpl. rewrite Hd, length_actv_header.
  f_equal. destruct (Z.le_gt_cases 64 (iov_room iov)) as [L|L].
  - rewrite Z.min_l by lia.
    rewrite !take_ge; [reflexivity| |]; rewrite length_actv_header; lia.
  - rewrite Z.min_r by lia. reflexivity.
Qed.

(** * Further properties of the code *)

(** ** Big-endian fields read back *)

Definition zbc_rdbe16 (buf : list Z) : Z := be_value (take 2 buf).

Definition zbc_rdbe48 (buf : list Z) : Z :=
  Z.land (be_value (take 6 buf)) 0xffffffffffff.

Lemma be_bytes_S n v :
  be_bytes (S n) v = be_bytes n (Z.shiftr v 8) ++ [Z.land v 255].
Proof.
  unfold be_bytes. rewrite seq_S, map_app. simpl. f_equal.
  - apply map_ext_in. intros k Hk. apply in_seq in Hk.
    rewrite Z.shiftr_shiftr by lia. do 2 f_equal. lia.
  - do 3 f_equal. replace (_ - _ - _) with 0 by lia. reflexivity.
Qed.

Lemma be_value_snoc l b : be_value (l ++ [b]) = be_value l * 256 + b.
Proof. unfold be_value. rewrite fold_left_app. reflexivity. Qed.

(** The bytes of a field hold the value modulo the size of the field. *)
Lemma be_value_be_bytes n : forall v,
  be_value (be_bytes n v) = v mod 2 ^ (8 * Z.of_nat n).
Proof.
  induction n as [|n IH]; intros v.
  - simpl. rewrite Z.mod_1_r. reflexivity.
  - rewrite be_bytes_S, be_value_snoc, IH.
    change 255 with (Z.ones 8). rewrite Z.land_ones by lia.
    rewrite Z.shiftr_div_pow2 by lia.
    replace (8 * Z.of_nat (S n)) with (8 + 8 * Z.of_nat n) by lia.
    rewrite Z.pow_add_r by lia.
    rewrite Z.rem_mul_r by lia.
    change (2 ^ 8) with 256. lia.
Qed.

Lemma take_be_bytes_app n v rest : take n (be_bytes n v ++ rest) = be_bytes n v.
Proof.
  rewrite take_app_le by (rewrite length_be_bytes; lia).
  apply take_ge. rewrite length_be_bytes. lia.
Qed.

(** X1: a field stored by [zbc_cpbe16], [zbc_cpbe32], [zbc_cpbe48] or
    [zbc_cpbe64] and read back by the matching [zbc_rdbe] function, with
    any bytes after it, gives the value truncated to the width of the
    field: storing and reading back is the identity on the values that
    the field can hold. *)
Theorem rdbe_cpbe_round_trip (v : Z) (rest : list Z) :
  zbc_rdbe16 (zbc_cpbe16 v ++ rest) = v mod 2 ^ 16 /\
  zbc_rdbe32 (zbc_cpbe32 v ++ rest) = v mod 2 ^ 32 /\
  zbc_rdbe48 (zbc_cpbe48 v ++ rest) = v mod 2 ^ 48 /\
  zbc_rdbe64 (zbc_cpbe64 v ++ rest) = v mod 2 ^ 64.
Proof.
  unfold zbc_rdbe16, zbc_rdbe32, zbc_rdbe48, zbc_rdbe64,
         zbc_cpbe16, zbc_cpbe32, zbc_cpbe48, zbc_cpbe64.
  rewrite !take_be_bytes_app, !be_value_be_bytes.
  repeat split; try reflexivity.
  change 0xffffffffffff with (Z.ones 48). rewrite !Z.land_ones by lia.
  change (8 * Z.of_nat 6) with 48. rewrite !Z.mod_mod by lia. reflexivity.
Qed.

(** ** The zone of an LBA *)

(** X2: on a device whose zones tile the capacity, [zbc_get_zone] gives
    for an LBA below the capacity the zone that holds it; when the lowest
    LBA of a zone is asked for, it gives that zone for the start LBA of
    the zone and the null pointer for any other LBA of the zone.  For an
    LBA at or above the capacity whose zone number fits in 32 bits it
    gives the null pointer. *)
Theorem zbc_get_zone_holds_lba (s : zbc_dev) (lba : Z) :
  geom_ok s ->
  0 <= lba < 2 ^ 32 * zone_size (geom s) ->
  if lba <? logical_capacity (geom s) then
    exists zi z,
      zbc_get_zone s lba false = Ok (Some zi) /\
      zone_at s zi = Ok z /\
      z_start z <= lba < z_start z + z_len z /\
      zbc_get_zone s lba true
      = Ok (if lba =? z_start z then Some zi else None)
  else
    forall lowest, zbc_get_zone s lba lowest = Ok None.
Proof.
  intros G Hl. pose proof (geom_ok_zsize_pos s G) as Hp.
  destruct (Z.ltb_spec lba (logical_capacity (geom s))) as [Hc|Hc].
  - assert (Hr : 0 <= lba < logical_capacity (geom s)) by lia.
    destruct (geom_ok_zno s lba G Hr) as [Hz Hn].
    destruct (geom_ok_get_zone s lba G Hr) as [Hg Hlt].
    destruct (lookup_lt_is_Some_2 (zones s) _ Hlt) as [z Hzz].
    pose proof (zone_at_nat_Ok s _ z Hzz) as Hat.
    rewrite Z2Nat.id in Hat by lia.
    destruct (go_zone s G _ z Hzz) as [Hs Hlen].
    rewrite Z2Nat.id in Hs by lia.
    exists (lba / zone_size (geom s)), z.
    split; [exact Hg|]. split; [exact Hat|]. split.
    + rewrite Hs, Hlen.
      pose proof (Z.mul_div_le lba (zone_size (geom s)) Hp).
      pose proof (Z.mul_succ_div_gt lba (zone_size (geom s)) Hp). lia.
    + unfold zbc_get_zone. rewrite Hz.
      replace (lba / zone_size (geom s) >=? nr_zones (geom s)) with false
        by (symmetry; cmp_dec).
      rewrite Hat. simpl. destruct (lba =? z_start z); reflexivity.
  - intros lowest. unfold zbc_get_zone.
    assert (Hq : nr_zones (geom s) <= lba / zone_size (geom s) < 2 ^ 32).
    { split.
      - apply Z.div_le_lower_bound; [lia|]. rewrite (go_cap s G) in Hc. lia.
      - apply Z.div_lt_upper_bound; lia. }
    rewrite Z.shiftr_div_pow2 by apply (go_log2 s G).
    rewrite <- (go_zsize s G). pose proof (go_nr s G) as Hnr.
    rewrite wrap32_small by lia.
    replace (lba / zone_size (geom s) >=? nr_zones (geom s)) with true
      by (symmetry; cmp_dec).
    reflexivity.
Qed.

Lemma zbc_get_zone_holds_lba_witness :
  (exists zi z,
     zbc_get_zone hm_dev 13 false = Ok (Some zi) /\
     zone_at hm_dev zi = Ok z /\
     z_start z <= 13 < z_start z + z_len z /\
     zbc_get_zone hm_dev 13 true = Ok (if 13 =? z_start z then Some zi else None))
  /\ (forall lowest, zbc_get_zone hm_dev 48 lowest = Ok None).
Proof.
  assert (G : geom_ok hm_dev) by (apply geom_okb_spec; vm_compute; reflexivity).
  split.
  - assert (H : 0 <= 13 < 2 ^ 32 * zone_size (geom hm_dev))
      by (vm_compute; split; [discriminate|reflexivity]).
    exact (zbc_get_zone_holds_lba hm_dev 13 G H).
  - assert (H : 0 <= 48 < 2 ^ 32 * zone_size (geom hm_dev))
      by (vm_compute; split; [discriminate|reflexivity]).
    exact (zbc_get_zone_holds_lba hm_dev 48 G H).
Defined.

(** ** Deciding that the lists of a device are given sequences *)

Fixpoint chainb (zs : list zbc_zone) (p : Z) (l : list nat) (n : Z) : bool :=
  match l with
  | [] => true
  | i :: l' =>
      match zs !! i with
      | Some z => (z_prev z =? p) && (z_next z =? hdZ l' n)
      | None => false
      end && chainb zs (Z.of_nat i) l' n
  end.

Definition list_reprb (zs : list zbc_zone) (zl : zbc_zone_list) (l : list nat)
  : bool :=
  (zl_head zl =? hdZ l ZBC_LIST_NIL) && (zl_tail zl =? lastZ l ZBC_LIST_NIL)
  && (zl_size zl =? Z.of_nat (length l))
  && chainb zs ZBC_LIST_NIL l ZBC_LIST_NIL && bool_decide (NoDup l).

Definition all_lists : list zone_list_id :=
  [imp_open_zones; exp_open_zones; closed_zones; seq_active_zones].

Definition zone_placedb (ex : option nat) (A : zone_list_id -> list nat)
    (i : nat) (z : zbc_zone) : bool :=
  forallb (fun L =>
             bool_decide (ex = Some i)
             || eqb (bool_decide (i ∈ A L))
                    (bool_decide (cond_list (z_cond z) = Some L))) all_lists
  && (existsb (fun L => bool_decide (i ∈ A L)) all_lists
      || ((z_prev z =? 0) && (z_next z =? 0))).

Definition lists_okb (ex : option nat) (s : zbc_dev)
    (A : zone_list_id -> list nat) : bool :=
  forallb (fun L => list_reprb (zones s) (get_list s L) (A L)) all_lists
  && forallb (fun i => match zones s !! i with
                       | Some z => zone_placedb ex A i z
                       | None => true
                       end) (seq 0 (length (zones s)))
  && match ex with
     | Some i => forallb (fun L => bool_decide (i ∉ A L)) all_lists
     | None => true
     end
  && (Z.of_nat (length (zones s)) <=? UINT_MAX).

Lemma all_lists_complete L : In L all_lists.
Proof. destruct L; simpl; auto. Qed.

Lemma chainb_spec zs l : forall p n, chainb zs p l n = true -> chain zs p l n.
Proof.
  induction l as [|i l IH]; intros p n H; simpl in *; [exact I|].
  apply andb_prop in H. destruct H as [H1 H2].
  destruct (zs !! i) as [z|] eqn:E; [|discriminate].
  apply andb_prop in H1. destruct H1 as [Hp Hn].
  apply Z.eqb_eq in Hp, Hn. split; [|apply IH; exact H2].
  exists z. auto.
Qed.

Lemma list_reprb_spec zs zl l : list_reprb zs zl l = true -> list_repr zs zl l.
Proof.
  unfold list_reprb. intros H.
  repeat (apply andb_prop in H; destruct H as [H ?]).
  constructor.
  - apply Z.eqb_eq. assumption.
  - apply Z.eqb_eq. assumption.
  - apply Z.eqb_eq. assumption.
  - apply chainb_spec. assumption.
  - eapply bool_decide_eq_true_1. eassumption.
Qed.

Lemma lists_okb_spec ex s A : lists_okb ex s A = true -> lists_ok ex s A.
Proof.
  unfold lists_okb. intros H.
  apply andb_prop in H. destruct H as [H Hlen].
  apply andb_prop in H. destruct H as [H Hex].
  apply andb_prop in H. destruct H as [Hrepr Hz].
  rewrite forallb_forall in Hrepr, Hz.
  assert (Hzone : forall i z, zones s !! i = Some z -> zone_placedb ex A i z = true).
  { intros i z Hi. specialize (Hz i). rewrite Hi in Hz. apply Hz.
    apply in_seq. apply lookup_lt_Some in Hi. lia. }
  constructor.
  - intros L. apply list_reprb_spec, Hrepr, all_lists_complete.
  - intros i z L Hi Hne. specialize (Hzone i z Hi).
    unfold zone_placedb in Hzone. apply andb_prop in Hzone.
    destruct Hzone as [Hm _]. rewrite forallb_forall in Hm.
    specialize (Hm L (all_lists_complete L)).
    apply orb_prop in Hm. destruct Hm as [Hm|Hm].
    + apply bool_decide_eq_true_1 in Hm. contradiction.
    + apply eqb_prop in Hm.
      split; intros Hx.
      * eapply bool_decide_eq_true_1. rewrite <- Hm.
        apply bool_decide_eq_true_2. exact Hx.
      * eapply bool_decide_eq_true_1. rewrite Hm.
        apply bool_decide_eq_true_2. exact Hx.
  - intros i L E. subst ex. rewrite forallb_forall in Hex.
    eapply bool_decide_eq_true_1. apply Hex, all_lists_complete.
  - intros i z Hi Hout. specialize (Hzone i z Hi).
    unfold zone_placedb in Hzone. apply andb_prop in Hzone.
    destruct Hzone as [_ Ho]. apply orb_prop in Ho. destruct Ho as [Ho|Ho].
    + apply existsb_exists in Ho. destruct Ho as (L & _ & HL).
      apply bool_decide_eq_true_1 in HL. destruct (Hout L HL).
    + apply andb_prop in Ho. destruct Ho as [Hp Hn].
      apply Z.eqb_eq in Hp, Hn. auto.
  - apply Z.leb_le. exact Hlen.
Qed.

(** The sequences of the lists of the small host-managed device. *)
Definition hm_lists (L : zone_list_id) : list nat :=
  match L with
  | seq_active_zones => [1; 2; 3; 4; 5]%nat
  | _ => []
  end.

Lemma hm_dev_lists_ok : lists_ok None hm_dev hm_lists.
Proof. apply lists_okb_spec. vm_compute. reflexivity. Qed.

(** ** The primitives of the zone lists *)

(** The small host-managed device with zone 3 taken out of its list. *)
Definition hm_unlinked_dev : zbc_dev :=
  match zbc_unlink_zone hm_dev 3 with
  | Ok s => s
  | _ => hm_dev
  end.

Definition hm_unlinked_lists (L : zone_list_id) : list nat :=
  match L with
  | seq_active_zones => [1; 2; 4; 5]%nat
  | _ => []
  end.

(** The zone [i] of a device that has that many zones. *)
Definition zone_of (s : zbc_dev) (i : nat) : zbc_zone :=
  match zones s !! i with
  | Some z => z
  | None => zero_zone
  end.

Lemma hm_unlinked_dev_lists_ok :
  lists_ok (Some 3%nat) hm_unlinked_dev hm_unlinked_lists.
Proof. apply lists_okb_spec. vm_compute. reflexivity. Qed.

(** X3: [zbc_add_zone_tail] on a zone that is in no list, for the list
    of the condition of the zone, while the lists of the device are
    well-formed doubly linked lists that hold the other zones by their
    conditions: the zone becomes the last one of that list, after the
    zones that the list held, in their order; the other lists keep their
    zones; nothing but links, list heads and list sizes changes; and
    every zone is then in the list of its condition. *)
Theorem zbc_add_zone_tail_appends (s : zbc_dev) (A : zone_list_id -> list nat)
    (L : zone_list_id) (i : nat) (z : zbc_zone) :
  lists_ok (Some i) s A ->
  zones s !! i = Some z ->
  cond_list (z_cond z) = Some L ->
  exists s', zbc_add_zone_tail s L (Z.of_nat i) = Ok s' /\
             links_only s s' /\
             lists_ok None s' (<[L := A L ++ [i]]> A).
Proof. apply zbc_add_zone_tail_spec. Qed.

Lemma zbc_add_zone_tail_appends_witness :
  exists s', zbc_add_zone_tail hm_unlinked_dev seq_active_zones 3 = Ok s' /\
             links_only hm_unlinked_dev s' /\
             lists_ok None s'
               (<[seq_active_zones := [1; 2; 4; 5; 3]%nat]> hm_unlinked_lists).
Proof.
  assert (Hz : zones hm_unlinked_dev !! 3%nat
               = Some (zone_of hm_unlinked_dev 3))
    by (vm_compute; reflexivity).
  assert (Hc : cond_list (z_cond (zone_of hm_unlinked_dev 3))
               = Some seq_active_zones)
    by (vm_compute; reflexivity).
  exact (zbc_add_zone_tail_appends hm_unlinked_dev hm_unlinked_lists
           seq_active_zones 3 _ hm_unlinked_dev_lists_ok Hz Hc).
Defined.

(** X4: [zbc_add_zone_head] under the same conditions: the zone becomes
    the first one of the list, before the zones that the list held. *)
Theorem zbc_add_zone_head_prepends (s : zbc_dev) (A : zone_list_id -> list nat)
    (L : zone_list_id) (i : nat) (z : zbc_zone) :
  lists_ok (Some i) s A ->
  zones s !! i = Some z ->
  cond_list (z_cond z) = Some L ->
  exists s', zbc_add_zone_head s L (Z.of_nat i) = Ok s' /\
             links_only s s' /\
             lists_ok None s' (<[L := i :: A L]> A).
Proof. apply zbc_add_zone_head_spec. Qed.

Lemma zbc_add_zone_head_prepends_witness :
  exists s', zbc_add_zone_head hm_unlinked_dev seq_active_zones 3 = Ok s' /\
             links_only hm_unlinked_dev s' /\
             lists_ok None s'
               (<[seq_active_zones := [3; 1; 2; 4; 5]%nat]> hm_unlinked_lists).
Proof.
  assert (Hz : zones hm_unlinked_dev !! 3%nat
               = Some (zone_of hm_unlinked_dev 3))
    by (vm_compute; reflexivity).
  assert (Hc : cond_list (z_cond (zone_of hm_unlinked_dev 3))
               = Some seq_active_zones)
    by (vm_compute; reflexivity).
  exact (zbc_add_zone_head_prepends hm_unlinked_dev hm_unlinked_lists
           seq_active_zones 3 _ hm_unlinked_dev_lists_ok Hz Hc).
Defined.

(** X5: [zbc_remove_zone] on a zone of a list, while the lists of the
    device are well-formed and hold every zone by its condition: the
    zone leaves the list, the zones before it and after it stay in their
    order, the other lists keep their zones, the links of the zone are
    set to zero (as the zones that were out of the lists keep theirs),
    and nothing but links, list heads and list sizes changes. *)
Theorem zbc_remove_zone_takes_out (s : zbc_dev) (A : zone_list_id -> list nat)
    (L : zone_list_id) (i : nat) (l1 l2 : list nat) :
  lists_ok None s A ->
  A L = l1 ++ i :: l2 ->
  exists s', zbc_remove_zone s L (Z.of_nat i) = Ok s' /\
             links_only s s' /\
             lists_ok (Some i) s' (<[L := l1 ++ l2]> A).
Proof. apply zbc_remove_zone_spec. Qed.

Lemma zbc_remove_zone_takes_out_witness :
  exists s', zbc_remove_zone hm_dev seq_active_zones 3 = Ok s' /\
             links_only hm_dev s' /\
             lists_ok (Some 3%nat) s'
               (<[seq_active_zones := [1; 2]%nat ++ [4; 5]%nat]> hm_lists).
Proof.
  exact (zbc_remove_zone_takes_out hm_dev hm_lists seq_active_zones 3
           [1; 2]%nat [4; 5]%nat hm_dev_lists_ok eq_refl).
Defined.

(** X6: [zbc_unlink_zone] on any zone of a device whose lists are
    well-formed and hold every zone by its condition: the zone is taken
    out of the list that holds it, and nothing happens when no list
    holds it (a conventional, inactive, read-only or offline zone);
    the other zones keep their places and their order, and nothing but
    links, list heads and list sizes changes. *)
Theorem zbc_unlink_zone_takes_out (s : zbc_dev) (A : zone_list_id -> list nat)
    (i : nat) (z : zbc_zone) :
  lists_ok None s A ->
  zones s !! i = Some z ->
  exists s', zbc_unlink_zone s (Z.of_nat i) = Ok s' /\
             links_only s s' /\
             lists_ok (Some i) s' (fun L => seq_del i (A L)) /\
             (cond_list (z_cond z) = None -> s' = s).
Proof.
  intros Hok Hz.
  destruct (zbc_unlink_zone_spec s A i z Hok Hz) as (s' & E & Hl & Hok').
  exists s'. split; [exact E|]. split; [exact Hl|]. split; [exact Hok'|].
  intros Hc. unfold zbc_unlink_zone in E.
  rewrite (zone_at_nat_Ok _ _ _ Hz) in E. simpl in E.
  destruct (zbc_zone_not_in_list z); [congruence|].
  destruct (z_cond z); simpl in Hc; try discriminate; congruence.
Qed.

Lemma zbc_unlink_zone_takes_out_witness :
  (exists s', zbc_unlink_zone hm_dev 3 = Ok s' /\
              links_only hm_dev s' /\
              lists_ok (Some 3%nat) s' (fun L => seq_del 3 (hm_lists L))) /\
  zbc_unlink_zone hm_dev 0 = Ok hm_dev.
Proof.
  split.
  - assert (Hz : zones hm_dev !! 3%nat = Some (zone_of hm_dev 3))
      by (vm_compute; reflexivity).
    destruct (zbc_unlink_zone_takes_out hm_dev hm_lists 3 _
                hm_dev_lists_ok Hz) as (s' & E & Hl & Hok & _).
    exists s'. auto.
  - assert (Hz : zones hm_dev !! 0%nat = Some (zone_of hm_dev 0))
      by (vm_compute; reflexivity).
    assert (Hc : cond_list (z_cond (zone_of hm_dev 0)) = None)
      by (vm_compute; reflexivity).
    destruct (zbc_unlink_zone_takes_out hm_dev hm_lists 0 _
                hm_dev_lists_ok Hz) as (s' & E & _ & _ & Hs).
    rewrite <- (Hs Hc) at 2. exact E.
Defined.

(** ** ZONE ACTIVATE and ZONE QUERY *)

(** The value of a result, or a default when there is none. *)
Definition ok_or {A : Type} (d : A) (r : res A) : A :=
  match r with
  | Ok a => a
  | _ => d
  end.

(** The device and the data-in buffers that a command leaves. *)
Definition dev_after (s : zbc_dev) (r : res (tcmu_sts * zbc_dev * list iovec))
  : zbc_dev :=
  match r with
  | Ok (_, s', _) => s'
  | _ => s
  end.

Definition data_in_after (r : res (tcmu_sts * zbc_dev * list iovec))
  : list iovec :=
  match r with
  | Ok (_, _, iov) => iov
  | _ => []
  end.

(** The results and the device of an outcome. *)
Definition results_of (o : res (option (bool * zbc_za_results * zbc_dev)))
  : zbc_za_results :=
  match o with
  | Ok (Some (_, ar, _)) => ar
  | _ => zbc_init_actv_results
  end.

Definition device_of (s : zbc_dev)
    (o : res (option (bool * zbc_za_results * zbc_dev))) : zbc_dev :=
  match o with
  | Ok (Some (_, _, s')) => s'
  | _ => s
  end.

(** X7: ZONE QUERY, whatever its input and its result, leaves the
    device as it was: the zones, the realms, the lists, the counters,
    the statistics and the backing file. *)
Theorem zone_query_leaves_device (s : zbc_dev) (iov : list iovec)
    (start_lba nrz domain_id alloc_len : Z) (all nozsrc : bool)
    (sts : tcmu_sts) (s' : zbc_dev) (iov' : list iovec) :
  zbc_zone_activate s iov start_lba nrz domain_id alloc_len all nozsrc true
  = Ok (sts, s', iov') ->
  s' = s.
Proof. apply zone_query_keeps_state. Qed.

Lemma zone_query_leaves_device_witness :
  exists iov',
    zbc_zone_activate zd_dev (in_buf [512]) 48 4 1 512 false true true
    = Ok (TCMU_STS_OK, zd_dev, iov').
Proof.
  pose (r := zbc_zone_activate zd_dev (in_buf [512]) 48 4 1 512 false true true).
  assert (E : zbc_zone_activate zd_dev (in_buf [512]) 48 4 1 512 false true true
              = Ok (TCMU_STS_OK, dev_after zd_dev r, data_in_after r))
    by (vm_compute; reflexivity).
  exists (data_in_after r).
  rewrite <- (zone_query_leaves_device _ _ _ _ _ _ _ _ _ _ _ E) at 2.
  exact E.
Defined.

(** The Zone Domains device with its realms 0 and 1 activated as
    sequential write required. *)
Definition zd_swr_dev : zbc_dev :=
  match zbc_zone_activate zd_dev (in_buf [512]) 48 4 1 512 false true false with
  | Ok (_, s, _) => s
  | _ => zd_dev
  end.

(** The same device after OPEN ZONE at LBA 64, the start of the first
    sequential zone of realm 1. *)
Definition zd_open_dev : zbc_dev :=
  match zbc_out_zone zd_swr_dev 64 0 ZBC_SA_OPEN_ZONE false with
  | Ok (_, s) => s
  | _ => zd_swr_dev
  end.

(** ZONE ACTIVATE of the conventional zones of the realms 0 and 1 of
    that device: the results, and the device that it leaves. *)
Definition zd_unmet_results : zbc_za_results :=
  results_of (actv_outcome zd_open_dev 0 4 0 512 false false).

Definition zd_partial_dev : zbc_dev :=
  device_of zd_open_dev (actv_outcome zd_open_dev 0 4 0 512 false false).

Lemma zd_unmet_outcome :
  actv_outcome zd_open_dev 0 4 0 512 false false
  = Ok (Some (false, zd_unmet_results, zd_partial_dev)).
Proof. vm_compute. reflexivity. Qed.

(** X8: when ZONE ACTIVATE or ZONE QUERY gets past the checks of the
    command descriptor and a prerequisite of the activation is unmet,
    the command ends with OK and no sense data.  It stores the 64-byte
    header, as far as the data-in buffers have room, and no descriptor.
    Byte 9 of the header holds the error bit of the prerequisite (not
    inactive, not empty, realm alignment, unsupported or multiple
    domains); in byte 8 the ACTIVATED bit is clear and the ZIWUP VALID
    bit is set exactly when a zone was identified, and bytes 24 to 29
    then hold its start LBA.  ZONE QUERY leaves the device as it was. *)
Theorem activation_unmet_prerequisite (s : zbc_dev) (iov : list iovec)
    (start_lba nrz domain_id alloc_len : Z) (all nozsrc dry_run : bool)
    (ar : zbc_za_results) (s' : zbc_dev) :
  actv_outcome s start_lba nrz domain_id alloc_len all dry_run
  = Ok (Some (false, ar, s')) ->
  iov_ok iov ->
  let hdr := actv_header (actv_nr_zones s nrz domain_id all) domain_id alloc_len
                         all nozsrc dry_run false ar in
  exists out,
    zbc_zone_activate s iov start_lba nrz domain_id alloc_len all nozsrc dry_run
    = Ok (TCMU_STS_OK, s', out) /\
    iov_data out = iov_data iov ++ take (Z.to_nat (iov_room iov)) hdr /\
    length hdr = 64%nat /\
    unmet_code (error ar) /\
    nth 9 hdr 0 = error ar /\
    Z.land (nth 8 hdr 0) ZBC_ACTV_STAT_ACTIVATED = 0 /\
    Z.land (nth 8 hdr 0) ZBC_ACTV_STAT_ZIWUP_VALID
    = (if ziwup ar =? ULLONG_MAX then 0 else ZBC_ACTV_STAT_ZIWUP_VALID) /\
    (ziwup ar <> ULLONG_MAX -> take 6 (drop 24 hdr) = zbc_cpbe48 (ziwup ar)) /\
    (dry_run = true -> s' = s).
Proof.
  intros Ho Hok hdr.
  pose proof (actv_outcome_error _ _ _ _ _ _ _ _ _ _ Ho) as He. simpl in He.
  eexists. split.
  { rewrite zbc_zone_activate_outcome, Ho. reflexivity. }
  split; [apply actv_output_unmet; exact Hok|].
  split; [apply length_actv_header|].
  split; [exact He|].
  split.
  { subst hdr. rewrite actv_header_error.
    destruct He as [-> | [-> | [-> | [-> | ->] ] ] ]; reflexivity. }
  destruct (actv_header_status_unmet (actv_nr_zones s nrz domain_id all)
              domain_id alloc_len all nozsrc dry_run ar) as [H1 H2].
  split; [exact H1|]. split; [exact H2|].
  split; [apply actv_header_ziwup|].
  intros ->. eapply actv_outcome_dry, Ho.
Qed.

Lemma activation_unmet_prerequisite_witness :
  exists s' out,
    zbc_zone_activate zd_open_dev (in_buf [512]) 0 4 0 512 false true false
    = Ok (TCMU_STS_OK, s', out) /\
    length (iov_data out) = 64%nat /\
    nth 9 (iov_data out) 0 = ZBC_ACTV_ERR_NOT_EMPTY /\
    zbc_rdbe48 (drop 24 (iov_data out)) = 64.
Proof.
  assert (He : error zd_unmet_results = ZBC_ACTV_ERR_NOT_EMPTY)
    by (vm_compute; reflexivity).
  assert (Hz : ziwup zd_unmet_results = 64) by (vm_compute; reflexivity).
  assert (Hok : iov_ok (in_buf [512])).
  { apply iov_fresh_ok, in_buf_fresh. repeat constructor. lia. }
  destruct (activation_unmet_prerequisite zd_open_dev (in_buf [512])
              0 4 0 512 false true false zd_unmet_results zd_partial_dev
              zd_unmet_outcome Hok)
    as (out & E & Hd & Hl & _ & H9 & _ & _ & Hw & _).
  exists zd_partial_dev, out. split; [exact E|].
  assert (Hn : ziwup zd_unmet_results <> ULLONG_MAX)
    by (rewrite Hz; discriminate).
  specialize (Hw Hn).
  rewrite Hd. change (iov_data (in_buf [512])) with (@nil Z).
  change (Z.to_nat (iov_room (in_buf [512]))) with 512%nat.
  rewrite app_nil_l, take_ge by lia.
  split; [exact Hl|]. split; [rewrite H9; exact He|].
  unfold zbc_rdbe48. rewrite Hw, Hz. reflexivity.
Defined.

(** X9: the device after a ZONE ACTIVATE or ZONE QUERY with an unmet
    prerequisite.  When the prerequisite is one of the whole range
    (realm alignment, multiple domains), the device is as it was.  When
    it is one of a realm, the device is as the realms of the range
    before that one have left it, each of them gone through with
    success: ZONE ACTIVATE does not undo the realms that it has
    activated before it meets the unmet prerequisite. *)
Theorem activation_unmet_state (s : zbc_dev)
    (start_lba nrz domain_id alloc_len : Z) (all dry_run : bool)
    (ar : zbc_za_results) (s' : zbc_dev)
    (st : actv_start) (lba' nrz' : Z) :
  actv_outcome s start_lba nrz domain_id alloc_len all dry_run
  = Ok (Some (false, ar, s')) ->
  actv_prepare s start_lba nrz domain_id alloc_len all = Ok (st, lba', nrz') ->
  match st with
  | ActvPlan p =>
      exists k ar_k,
        (k < Z.to_nat (ap_end p - ap_start_realm p))%nat /\
        actv_realms_loop k s (ap_start_realm p) (ap_ofs p) (sint nrz') (ap_sz p)
                         (ap_new_type p) dry_run all zbc_init_actv_results
        = Ok (true, ar_k, s')
  | _ => s' = s
  end.
Proof.
  unfold actv_outcome. intros Ho Hp. rewrite Hp in Ho. simpl in Ho.
  destruct st as [|err zi|p].
  - discriminate.
  - inversion Ho; reflexivity.
  - bind_as Ho r Hr. destruct r as [[ok ar1] s1]. inversion Ho; subst.
    eapply actv_realms_loop_unmet, Hr.
Qed.

Lemma activation_unmet_state_witness :
  exists ar_1,
    actv_realms_loop 1 zd_open_dev 0 0 4 2 ZBC_ZONE_TYPE_CONVENTIONAL
                     false false zbc_init_actv_results
    = Ok (true, ar_1, zd_partial_dev) /\
    r_type <$> realms zd_open_dev !! 0%nat = Some ZBC_ZONE_TYPE_SEQWRITE_REQ /\
    r_type <$> realms zd_partial_dev !! 0%nat = Some ZBC_ZONE_TYPE_CONVENTIONAL.
Proof.
  assert (Hr : r_type <$> realms zd_partial_dev !! 0%nat
               = Some ZBC_ZONE_TYPE_CONVENTIONAL)
    by (vm_compute; reflexivity).
  assert (Hw : r_type <$> realms zd_open_dev !! 0%nat
               = Some ZBC_ZONE_TYPE_SEQWRITE_REQ)
    by (vm_compute; reflexivity).
  assert (Hp : actv_prepare zd_open_dev 0 4 0 512 false
               = Ok (ActvPlan (mk_actv_plan 0 2 0 2 ZBC_ZONE_TYPE_CONVENTIONAL),
                     0, 4))
    by (vm_compute; reflexivity).
  pose proof (activation_unmet_state zd_open_dev 0 4 0 512 false false
                zd_unmet_results zd_partial_dev _ 0 4 zd_unmet_outcome Hp) as H.
  cbv beta iota in H. destruct H as (k & ar_k & Hk & Hl).
  change (Z.to_nat (ap_end (mk_actv_plan 0 2 0 2 ZBC_ZONE_TYPE_CONVENTIONAL)
                    - ap_start_realm
                        (mk_actv_plan 0 2 0 2 ZBC_ZONE_TYPE_CONVENTIONAL)))
    with 2%nat in Hk.
  change (sint 4) with 4 in Hl.
  cbn [ap_start_realm ap_ofs ap_sz ap_new_type] in Hl.
  assert (k = 0 \/ k = 1)%nat as [-> | ->] by lia.
  - exfalso. cbn [actv_realms_loop] in Hl.
    apply (f_equal (fun r => match r with
                             | Ok (_, _, x) => r_type <$> realms x !! 0%nat
                             | _ => None
                             end)) in Hl.
    cbv beta iota in Hl. rewrite Hr, Hw in Hl. discriminate.
  - exists ar_k. split; [exact Hl|]. split; [exact Hw|exact Hr].
Defined.

(** X10: ZONE ACTIVATE and ZONE QUERY end with ILLEGAL REQUEST, INVALID
    FIELD IN CDB, storing nothing and leaving the device as it was, when
    the domain ID is not one of the device, when the number of zones
    (that of the domain with ALL) is zero or larger than the number of
    zones of the device, when the allocation length is shorter than the
    64-byte header, and when the start LBA (that of the domain with ALL)
    is not the start LBA of a zone. *)
Theorem activation_rejected (s : zbc_dev) (iov : list iovec)
    (start_lba nrz domain_id alloc_len : Z) (all nozsrc dry_run : bool) :
  domain_id >= nr_domains (geom s) \/
  (exists d, domain_at s domain_id = Ok d /\
     let n := if all then d_nr_zones d else nrz in
     let lba := if all then d_start_lba d else start_lba in
     n = 0 \/ n > nr_zones (geom s) \/ alloc_len < ZBC_ACTV_RES_HEADER_SIZE \/
     zbc_get_zone s lba true = Ok None) ->
  zbc_zone_activate s iov start_lba nrz domain_id alloc_len all nozsrc dry_run
  = Ok (zbc_set_sense ILLEGAL_REQUEST ASC_INVALID_FIELD_IN_CDB, s, iov).
Proof.
  intros H. unfold zbc_zone_activate, actv_prepare.
  destruct (Z.geb_spec domain_id (nr_domains (geom s))) as [Hd|Hd];
    [reflexivity|].
  destruct H as [H|(d & Ed & H)]; [lia|].
  rewrite Ed. simpl.
  set (n := if all then d_nr_zones d else nrz) in *.
  set (lba := if all then d_start_lba d else start_lba) in *.
  destruct ((n =? 0) || (n >? nr_zones (geom s))
            || (alloc_len <? ZBC_ACTV_RES_HEADER_SIZE)) eqn:Ec; [reflexivity|].
  apply orb_false_elim in Ec. destruct Ec as [Ec E3].
  apply orb_false_elim in Ec. destruct Ec as [E1 E2].
  apply Z.eqb_neq in E1. rewrite Z.gtb_ltb in E2. apply Z.ltb_ge in E2.
  apply Z.ltb_ge in E3.
  destruct H as [H|[H|[H|H] ] ]; try lia.
  rewrite H. reflexivity.
Qed.

Lemma activation_rejected_witness :
  zbc_zone_activate zd_dev (in_buf [512]) 48 4 2 512 false true false
  = Ok (zbc_set_sense ILLEGAL_REQUEST ASC_INVALID_FIELD_IN_CDB, zd_dev,
        in_buf [512]) /\
  zbc_zone_activate zd_dev (in_buf [512]) 49 4 1 512 false true true
  = Ok (zbc_set_sense ILLEGAL_REQUEST ASC_INVALID_FIELD_IN_CDB, zd_dev,
        in_buf [512]).
Proof.
  split.
  - apply activation_rejected. left. vm_compute. discriminate.
  - apply activation_rejected. right.
    assert (Hd : domain_at zd_dev 1 = Ok (ok_or zero_domain (domain_at zd_dev 1)))
      by (vm_compute; reflexivity).
    eexists. split; [exact Hd|].
    right. right. right. vm_compute. reflexivity.
Defined.

(** The output loops only add bytes after those that the buffers
    hold. *)
Lemma emit_first_appends ds : forall i len iov,
  iov_ok iov ->
  exists extra,
    iov_data (emit_first ds i len iov).2 = iov_data iov ++ extra /\
    iov_ok (emit_first ds i len iov).2.
Proof.
  induction ds as [|d ds IH]; intros i len iov Hok; simpl.
  - exists []. rewrite app_nil_r. auto.
  - destruct (len <? ZBC_ACTV_RES_DESCRIPTOR_SIZE).
    + exists []. rewrite app_nil_r. auto.
    + destruct (tcmu_memcpy_into_iovec_spec iov (fst d) Hok)
        as (iov' & E & Hd & _ & Hok').
      rewrite E.
      destruct (IH (sint (i - 1))
                   (sint (len - Z.min (Z.of_nat (length d.1)) (iov_room iov)))
                   iov' Hok') as (extra & He & Hok2).
      eexists. split; [|exact Hok2]. rewrite He, Hd, <- app_assoc. reflexivity.
Qed.

Lemma emit_second_appends ds : forall i len iov,
  iov_ok iov ->
  exists extra, iov_data (emit_second ds i len iov) = iov_data iov ++ extra.
Proof.
  induction ds as [|d ds IH]; intros i len iov Hok; simpl.
  - exists []. rewrite app_nil_r. auto.
  - destruct (i =? 0); [exists []; rewrite app_nil_r; auto|].
    destruct (len <? ZBC_ACTV_RES_DESCRIPTOR_SIZE).
    + exists []. rewrite app_nil_r. auto.
    + destruct (tcmu_memcpy_into_iovec_spec iov (snd d) Hok)
        as (iov' & E & Hd & _ & Hok').
      rewrite E.
      destruct (IH (sint (i - 1))
                   (sint (len - Z.min (Z.of_nat (length d.2)) (iov_room iov)))
                   iov' Hok') as (extra & He).
      eexists. rewrite He, Hd, <- app_assoc. reflexivity.
Qed.

(** The output of a command starts with the header. *)
Lemma actv_output_header iov nrz domain_id alloc_len all nozsrc dry_run ok ar :
  iov_ok iov -> 64 <= iov_room iov ->
  exists extra,
    iov_data (actv_output iov nrz domain_id alloc_len all nozsrc dry_run ok ar)
    = iov_data iov
      ++ actv_header nrz domain_id alloc_len all nozsrc dry_run ok ar ++ extra.
Proof.
  intros Hok Hr. unfold actv_output.
  destruct (tcmu_memcpy_into_iovec_spec iov
              (actv_header nrz domain_id alloc_len all nozsrc dry_run ok ar)
              Hok) as (iov' & E & Hd & _ & Hok').
  rewrite E. rewrite length_actv_header in Hd.
  rewrite Z.min_l in Hd by lia.
  rewrite take_ge in Hd by (rewrite length_actv_header; lia).
  destruct (negb ok || _).
  - exists []. rewrite app_nil_r. exact Hd.
  - destruct (emit_first (recs ar) (sint (nr_desc ar))
                (sint (tcmu_iovec_length iov')) iov') as [[i len'] iov2] eqn:E1.
    destruct (emit_first_appends (recs ar) (sint (nr_desc ar))
                (sint (tcmu_iovec_length iov')) iov' Hok') as (x1 & H1 & Hok2).
    rewrite E1 in H1, Hok2. simpl in H1, Hok2.
    destruct (emit_second_appends (recs ar) i len' iov2 Hok2) as (x2 & H2).
    exists (x1 ++ x2). rewrite H2, H1, Hd, <- !app_assoc. reflexivity.
Qed.

(** Byte 8 of the header of a command whose prerequisites are met. *)
Lemma actv_header_status_met nrz domain_id alloc_len all nozsrc dry_run ar :
  let status := nth 8 (actv_header nrz domain_id alloc_len all nozsrc dry_run
                                   true ar) 0 in
  Z.land status ZBC_ACTV_STAT_ACTIVATED
  = (if dry_run then 0 else ZBC_ACTV_STAT_ACTIVATED) /\
  Z.land status ZBC_ACTV_STAT_ZIWUP_VALID = 0 /\
  Z.land status ZBC_ACTV_STAT_NZP_VALID
  = (if all then 0 else ZBC_ACTV_STAT_NZP_VALID).
Proof.
  unfold actv_header. simpl negb. rewrite andb_false_l.
  destruct all, dry_run; repeat split; reflexivity.
Qed.

(** X11: when every prerequisite of a ZONE ACTIVATE or ZONE QUERY is
    met, the command ends with OK, and data-in buffers with room for the
    header get the 64-byte header first: no error bit in byte 9; in byte
    8 the ACTIVATED bit is set by ZONE ACTIVATE and clear for ZONE QUERY,
    ZIWUP VALID is clear and NZP VALID is set unless ALL is; the domain
    ID in byte 10. *)
Theorem activation_met_header (s : zbc_dev) (iov : list iovec)
    (start_lba nrz domain_id alloc_len : Z) (all nozsrc dry_run : bool)
    (ar : zbc_za_results) (s' : zbc_dev) :
  actv_outcome s start_lba nrz domain_id alloc_len all dry_run
  = Ok (Some (true, ar, s')) ->
  iov_ok iov -> 64 <= iov_room iov ->
  exists out hdr extra,
    zbc_zone_activate s iov start_lba nrz domain_id alloc_len all nozsrc dry_run
    = Ok (TCMU_STS_OK, s', out) /\
    iov_data out = iov_data iov ++ hdr ++ extra /\
    length hdr = 64%nat /\
    nth 9 hdr 0 = 0 /\
    Z.land (nth 8 hdr 0) ZBC_ACTV_STAT_ACTIVATED
    = (if dry_run then 0 else ZBC_ACTV_STAT_ACTIVATED) /\
    Z.land (nth 8 hdr 0) ZBC_ACTV_STAT_ZIWUP_VALID = 0 /\
    Z.land (nth 8 hdr 0) ZBC_ACTV_STAT_NZP_VALID
    = (if all then 0 else ZBC_ACTV_STAT_NZP_VALID) /\
    nth 10 hdr 0 = wrap8 domain_id.
Proof.
  intros Ho Hok Hr.
  pose proof (actv_outcome_error _ _ _ _ _ _ _ _ _ _ Ho) as He. simpl in He.
  destruct He as [He _].
  destruct (actv_output_header iov (actv_nr_zones s nrz domain_id all)
              domain_id alloc_len all nozsrc dry_run true ar Hok Hr)
    as (extra & Hd).
  eexists. eexists. exists extra. split.
  { rewrite zbc_zone_activate_outcome, Ho. reflexivity. }
  split; [exact Hd|]. split; [apply length_actv_header|].
  split; [rewrite actv_header_error, He; reflexivity|].
  destruct (actv_header_status_met (actv_nr_zones s nrz domain_id all)
              domain_id alloc_len all nozsrc dry_run ar) as (H1 & H2 & H3).
  split; [exact H1|]. split; [exact H2|]. split; [exact H3|].
  unfold actv_header.
  destruct all, (negb true && negb (ziwup ar =? ULLONG_MAX)); reflexivity.
Qed.

Lemma activation_met_header_witness :
  exists out hdr extra,
    zbc_zone_activate zd_dev (in_buf [512]) 48 4 1 512 false true false
    = Ok (TCMU_STS_OK, zd_swr_dev, out) /\
    iov_data out = hdr ++ extra /\
    length hdr = 64%nat /\
    nth 9 hdr 0 = 0 /\
    Z.land (nth 8 hdr 0) ZBC_ACTV_STAT_ACTIVATED = ZBC_ACTV_STAT_ACTIVATED.
Proof.
  pose (ar := results_of (actv_outcome zd_dev 48 4 1 512 false false)).
  assert (Ho : actv_outcome zd_dev 48 4 1 512 false false
               = Ok (Some (true, ar, zd_swr_dev)))
    by (vm_compute; reflexivity).
  assert (Hok : iov_ok (in_buf [512])).
  { apply iov_fresh_ok, in_buf_fresh. repeat constructor. lia. }
  assert (Hr : 64 <= iov_room (in_buf [512])) by (vm_compute; discriminate).
  destruct (activation_met_header zd_dev (in_buf [512]) 48 4 1 512
              false true false ar zd_swr_dev Ho Hok Hr)
    as (out & hdr & extra & E & Hd & Hl & H9 & H8 & _).
  exists out, hdr, extra. auto.
Defined.

(** ** REPORT ZONES: rejected commands and the zone descriptor *)

(** X12: REPORT ZONES with a start LBA at or above the capacity ends
    with ILLEGAL REQUEST, LBA OUT OF RANGE, whatever the reporting
    option; with a start LBA below the capacity and a reporting option
    that is not one of the twelve that [zbc_report_zones] lets through,
    it ends with ILLEGAL REQUEST, INVALID FIELD IN CDB.  The option for
    gap zones (3Eh) is one of those rejected, although
    [zbc_should_report_zone] would match gap zones for it.  Nothing is
    stored in either case. *)
Theorem report_zones_rejected (s : zbc_dev) (iov : list iovec)
    (partial : bool) (ro start_lba len : Z) :
  (start_lba >= logical_capacity (geom s) ->
   zbc_report_zones s iov partial ro start_lba len
   = Ok (zbc_set_sense ILLEGAL_REQUEST ASC_LBA_OUT_OF_RANGE, iov)) /\
  (start_lba < logical_capacity (geom s) ->
   rz_option_known ro = false ->
   zbc_report_zones s iov partial ro start_lba len
   = Ok (zbc_set_sense ILLEGAL_REQUEST ASC_INVALID_FIELD_IN_CDB, iov)) /\
  rz_option_known ZBC_RZ_RO_GAP = false /\
  (forall z, zbc_should_report_zone z ZBC_RZ_RO_GAP = zbc_zone_gap z).
Proof.
  unfold zbc_report_zones. repeat split.
  - intros H.
    replace (start_lba >=? logical_capacity (geom s)) with true
      by (symmetry; rewrite Z.geb_leb; apply Z.leb_le; lia).
    reflexivity.
  - intros H Hk.
    replace (start_lba >=? logical_capacity (geom s)) with false
      by (symmetry; rewrite Z.geb_leb; apply Z.leb_gt; lia).
    rewrite Hk. reflexivity.
Qed.

Lemma report_zones_rejected_witness :
  zbc_report_zones hm_dev (in_buf [512]) false ZBC_RZ_RO_ALL 48 512
  = Ok (zbc_set_sense ILLEGAL_REQUEST ASC_LBA_OUT_OF_RANGE, in_buf [512]) /\
  zbc_report_zones hm_dev (in_buf [512]) false ZBC_RZ_RO_GAP 0 512
  = Ok (zbc_set_sense ILLEGAL_REQUEST ASC_INVALID_FIELD_IN_CDB, in_buf [512]).
Proof.
  destruct (report_zones_rejected hm_dev (in_buf [512]) false ZBC_RZ_RO_ALL
              48 512) as (H1 & _).
  destruct (report_zones_rejected hm_dev (in_buf [512]) false ZBC_RZ_RO_GAP
              0 512) as (_ & H2 & _).
  split.
  - apply H1. vm_compute. discriminate.
  - apply H2; vm_compute; reflexivity.
Defined.

(** The fields of a zone descriptor, from byte 8 on. *)
Lemma zone_descriptor_fields z :
  drop 8 (zone_descriptor z)
  = zbc_cpbe64 (z_len z) ++ zbc_cpbe64 (z_start z) ++ zbc_cpbe64 (z_wp z)
    ++ repeat 0 32.
Proof.
  unfold zone_descriptor. destruct (z_reset z), (z_non_seq z); reflexivity.
Qed.

Lemma zbc_rdbe64_cpbe64 v rest :
  0 <= v < 2 ^ 64 -> zbc_rdbe64 (zbc_cpbe64 v ++ rest) = v.
Proof.
  intros Hv. unfold zbc_rdbe64, zbc_cpbe64.
  rewrite take_be_bytes_app, be_value_be_bytes.
  apply Z.mod_small. exact Hv.
Qed.

Lemma drop_cpbe64_app v rest : drop 8 (zbc_cpbe64 v ++ rest) = rest.
Proof.
  unfold zbc_cpbe64. rewrite drop_app_length'; [reflexivity|].
  symmetry. apply length_be_bytes.
Qed.

(** X13: the 64-byte zone descriptor of REPORT ZONES can be read back:
    byte 0 holds the zone type, the upper half of byte 1 the zone
    condition, bits 0 and 1 of byte 1 the reset and non-sequential
    attributes, and the 64-bit fields at bytes 8, 16 and 24 the length,
    the start LBA and the write pointer of the zone. *)
Theorem zone_descriptor_reads_back (z : zbc_zone) :
  0 <= z_len z < 2 ^ 64 -> 0 <= z_start z < 2 ^ 64 -> 0 <= z_wp z < 2 ^ 64 ->
  let d := zone_descriptor z in
  length d = 64%nat /\
  nth 0 d 0 = zone_type_code (z_type z) /\
  Z.shiftr (nth 1 d 0) 4 = zone_cond_code (z_cond z) /\
  Z.testbit (nth 1 d 0) 0 = z_reset z /\
  Z.testbit (nth 1 d 0) 1 = z_non_seq z /\
  zbc_rdbe64 (drop 8 d) = z_len z /\
  zbc_rdbe64 (drop 16 d) = z_start z /\
  zbc_rdbe64 (drop 24 d) = z_wp z.
Proof.
  intros Hl Hs Hw d. subst d.
  split; [apply length_zone_descriptor|].
  split; [unfold zone_descriptor;
          destruct (z_reset z), (z_non_seq z), (z_type z); reflexivity|].
  split; [unfold zone_descriptor;
          destruct (z_reset z), (z_non_seq z), (z_cond z); reflexivity|].
  split; [unfold zone_descriptor;
          destruct (z_reset z), (z_non_seq z), (z_cond z); reflexivity|].
  split; [unfold zone_descriptor;
          destruct (z_reset z), (z_non_seq z), (z_cond z); reflexivity|].
  pose proof (zone_descriptor_fields z) as Hf.
  split; [rewrite Hf; apply zbc_rdbe64_cpbe64; exact Hl|].
  replace (drop 16 (zone_descriptor z))
    with (drop 8 (drop 8 (zone_descriptor z))) by (rewrite drop_drop; reflexivity).
  replace (drop 24 (zone_descriptor z))
    with (drop 8 (drop 8 (drop 8 (zone_descriptor z))))
    by (rewrite !drop_drop; reflexivity).
  rewrite Hf, !drop_cpbe64_app.
  split; [apply zbc_rdbe64_cpbe64; exact Hs|].
  apply zbc_rdbe64_cpbe64. exact Hw.
Qed.

Lemma zone_descriptor_reads_back_witness :
  let d := zone_descriptor (hm_full_zone 1) in
  nth 0 d 0 = 2 /\ Z.shiftr (nth 1 d 0) 4 = 14 /\
  zbc_rdbe64 (drop 8 d) = 8 /\ zbc_rdbe64 (drop 16 d) = 8 /\
  zbc_rdbe64 (drop 24 d) = 16.
Proof.
  assert (Hl : 0 <= z_len (hm_full_zone 1) < 2 ^ 64)
    by (vm_compute; split; [discriminate|reflexivity]).
  assert (Hs : 0 <= z_start (hm_full_zone 1) < 2 ^ 64)
    by (vm_compute; split; [discriminate|reflexivity]).
  assert (Hw : 0 <= z_wp (hm_full_zone 1) < 2 ^ 64)
    by (vm_compute; split; [discriminate|reflexivity]).
  destruct (zone_descriptor_reads_back (hm_full_zone 1) Hl Hs Hw)
    as (_ & H0 & H1 & _ & _ & H8 & H16 & H24).
  cbv zeta. rewrite H0, H1, H8, H16, H24. repeat split; vm_compute; reflexivity.
Defined.

(** ** READ *)

Lemma read_zoned_loop_dev fuel : forall s lba len iov io r,
  read_zoned_loop fuel s lba len iov io = Ok r -> res_dev r = s.
Proof.
  induction fuel as [|fuel IH]; intros s lba len iov io r H; simpl in H.
  - destruct (len =? 0); [inversion H; reflexivity|discriminate].
  - destruct (len =? 0); [inversion H; reflexivity|].
    bind_as H zp Hzp. destruct zp as [zone|]; [|inversion H; reflexivity].
    bind_as H z Hz. bind_as H x Hx. destruct x as [[ret iov'] ev].
    destruct ret as [e|bytes]; [inversion H; reflexivity|].
    destruct (bytes <=? 0); [inversion H; reflexivity|].
    eapply IH, H.
Qed.

Lemma rdwr_check_loop_read fuel : forall s lba nr_lbas first sts s1,
  rdwr_check_loop fuel s true lba nr_lbas first = Ok (sts, s1) ->
  s1 = s \/ (s1 = incr_read_rule_fails s /\ sts <> TCMU_STS_OK).
Proof.
  induction fuel as [|fuel IH]; intros s lba nr_lbas first sts s1 H; simpl in H.
  - discriminate.
  - bind_as H zp Hzp. destruct zp as [zone|]; [|inversion H; auto].
    bind_as H z Hz.
    destruct (zbc_zone_ok_to_read s z lba nr_lbas _) as [[sk asc]|].
    + inversion H; subst. right. split; [reflexivity|discriminate].
    + destruct (_ >? 0); [eapply IH, H|inversion H; auto].
Qed.

(** X14: READ changes nothing of the device but, when a zone check of
    the read rules fails, the count of failed read rules: the zones,
    their conditions and write pointers, the realms, the lists, the
    counters of open and empty zones and the backing file are as they
    were, whatever the status of the command.  A command that failed a
    read rule has stored nothing and has not read the file. *)
Theorem read_keeps_device (s : zbc_dev) (iov : list iovec) (lba len : Z)
    (r : cmd_result) :
  zbc_read s iov lba len = Ok r ->
  res_dev r = s \/
  (res_dev r = incr_read_rule_fails s /\ res_sts r <> TCMU_STS_OK /\
   res_iov r = iov /\ res_io r = []).
Proof.
  unfold zbc_read. destruct (negb _).
  - unfold zbc_read_zoned.
    destruct (zbc_check_rdwr s iov lba len); [intros H; inversion H; auto|].
    intros H. bind_as H x Hx. destruct x as [sts s1].
    apply rdwr_check_loop_read in Hx.
    destruct sts.
    + destruct Hx as [->|[_ Hx] ]; [|congruence].
      left. eapply read_zoned_loop_dev, H.
    + inversion H; subst; simpl.
      destruct Hx as [->|[-> Hx] ]; auto.
    + inversion H; subst; simpl.
      destruct Hx as [->|[-> Hx] ]; auto.
  - unfold zbc_read_nz.
    destruct (zbc_check_rdwr s iov lba len); [intros H; inversion H; auto|].
    intros H. bind_as H ofs Ho.
    destruct (preadv _ _ _) as [ret iov']. inversion H; auto.
Qed.

Lemma read_keeps_device_witness :
  (exists r, zbc_read hm_full_dev (in_buf [512]) 0 1 = Ok r
             /\ res_sts r = TCMU_STS_OK /\ res_dev r = hm_full_dev) /\
  (exists r, zbc_read hm_full_dev (in_buf [512]) 16 1 = Ok r
             /\ res_sts r
                = zbc_set_sense ILLEGAL_REQUEST ASC_ATTEMPT_TO_READ_INVALID_DATA
             /\ res_dev r = incr_read_rule_fails hm_full_dev).
Proof.
  pose (d := mk_result TCMU_STS_OK hm_full_dev [] []).
  split.
  - pose (r := ok_or d (zbc_read hm_full_dev (in_buf [512]) 0 1)).
    assert (E : zbc_read hm_full_dev (in_buf [512]) 0 1 = Ok r)
      by (vm_compute; reflexivity).
    assert (Hs : res_sts r = TCMU_STS_OK) by (vm_compute; reflexivity).
    exists r. split; [exact E|]. split; [exact Hs|].
    destruct (read_keeps_device _ _ _ _ _ E) as [H|(_ & H & _)];
      [exact H|congruence].
  - pose (r := ok_or d (zbc_read hm_full_dev (in_buf [512]) 16 1)).
    assert (E : zbc_read hm_full_dev (in_buf [512]) 16 1 = Ok r)
      by (vm_compute; reflexivity).
    assert (Hs : res_sts r
                 = zbc_set_sense ILLEGAL_REQUEST ASC_ATTEMPT_TO_READ_INVALID_DATA)
      by (vm_compute; reflexivity).
    assert (Hne : read_rule_fails (stats (res_dev r))
                  <> read_rule_fails (stats hm_full_dev))
      by (vm_compute; discriminate).
    exists r. split; [exact E|]. split; [exact Hs|].
    destruct (read_keeps_device _ _ _ _ _ E) as [H|(H & _)];
      [rewrite H in Hne; congruence|exact H].
Defined.

(** X15: with the check of the write pointer enabled, a READ that
    passes the checks of the LBA range and of the buffer length and
    whose first zone is sequential write required or sequential or
    before required, neither offline nor inactive, and, when sequential
    write required, not left by the transfer: if the start LBA is at or
    above the boundary of the valid data of the zone, or below it while
    the part of the transfer in the zone goes past it, the command ends
    with ILLEGAL REQUEST, ATTEMPT TO READ INVALID DATA; nothing is
    stored, the file is not read, and only the count of failed read
    rules changes. *)
Theorem read_invalid_data (s : zbc_dev) (iov : list iovec) (lba len zi : Z)
    (z : zbc_zone) :
  zbc_mt_nz_t (dev_type (geom s)) = false ->
  wp_check (geom s) = true ->
  zbc_check_rdwr s iov lba len = None ->
  zbc_get_zone s lba false = Ok (Some zi) -> zone_at s zi = Ok z ->
  zbc_zone_seq_req z = true \/ zbc_zone_sobr z = true ->
  zbc_zone_offline z = false -> zbc_zone_inactive z = false ->
  (zbc_zone_seq_req z = true ->
   wrap64 (lba + len) <= wrap64 (z_start z + z_len z)) ->
  let boundary := zbc_get_zone_boundary z in
  lba >= boundary \/
  (lba < boundary /\
   zbc_get_zone_lba_count z lba len > wrap64 (boundary - lba)) ->
  zbc_read s iov lba len
  = Ok (mk_result (zbc_set_sense ILLEGAL_REQUEST ASC_ATTEMPT_TO_READ_INVALID_DATA)
                  (incr_read_rule_fails s) iov []).
Proof.
  intros Hnz Hwp Hchk Hg Hz Hty Hoff Hina Hin boundary Hb.
  unfold zbc_read, zbc_read_zoned. rewrite Hnz, Hchk. simpl.
  unfold zbc_rdwr_check_zones. simpl. rewrite Hg. simpl. rewrite Hz. simpl.
  assert (Hok : zbc_zone_ok_to_read s z lba len (z_type z)
                = Some (ILLEGAL_REQUEST, ASC_ATTEMPT_TO_READ_INVALID_DATA)).
  { unfold zbc_zone_ok_to_read. rewrite Hwp, Hoff, Hina.
    assert (Hgap : zbc_zone_gap z = false).
    { unfold zbc_zone_gap, zbc_zone_seq_req, zbc_zone_sobr in *.
      apply bool_decide_eq_false.
      destruct Hty as [H|H]; apply bool_decide_eq_true in H; congruence. }
    assert (Hconv : zbc_zone_conv z = false).
    { unfold zbc_zone_conv, zbc_zone_seq_req, zbc_zone_sobr in *.
      apply bool_decide_eq_false.
      destruct Hty as [H|H]; apply bool_decide_eq_true in H; congruence. }
    assert (Hsp : zbc_zone_seq_pref z = false).
    { unfold zbc_zone_seq_pref, zbc_zone_seq_req, zbc_zone_sobr in *.
      apply bool_decide_eq_false.
      destruct Hty as [H|H]; apply bool_decide_eq_true in H; congruence. }
    rewrite Hgap, Hconv, Hsp. simpl.
    rewrite bool_decide_eq_true_2 by reflexivity. simpl.
    assert (Hcross : zbc_zone_seq_req z
                     && (wrap64 (lba + len) >? wrap64 (z_start z + z_len z))
                     = false).
    { destruct (zbc_zone_seq_req z) eqn:E; [|reflexivity]. simpl.
      specialize (Hin eq_refl). rewrite Z.gtb_ltb. apply Z.ltb_ge. exact Hin. }
    rewrite Hcross. fold boundary.
    destruct Hb as [Hb|[Hb1 Hb2] ].
    - replace (lba <? boundary) with false by (symmetry; apply Z.ltb_ge; lia).
      replace (lba >=? boundary) with true
        by (symmetry; rewrite Z.geb_leb; apply Z.leb_le; lia).
      reflexivity.
    - replace (lba <? boundary) with true by (symmetry; apply Z.ltb_lt; lia).
      replace (zbc_get_zone_lba_count z lba len >? wrap64 (boundary - lba))
        with true by (symmetry; rewrite Z.gtb_ltb; apply Z.ltb_lt; lia).
      reflexivity. }
  rewrite Hok. reflexivity.
Qed.

Lemma read_invalid_data_witness :
  zbc_read hm_full_dev (in_buf [512]) 16 1
  = Ok (mk_result (zbc_set_sense ILLEGAL_REQUEST ASC_ATTEMPT_TO_READ_INVALID_DATA)
                  (incr_read_rule_fails hm_full_dev) (in_buf [512]) []).
Proof.
  assert (Hnz : zbc_mt_nz_t (dev_type (geom hm_full_dev)) = false)
    by (vm_compute; reflexivity).
  assert (Hwp : wp_check (geom hm_full_dev) = true) by (vm_compute; reflexivity).
  assert (Hchk : zbc_check_rdwr hm_full_dev (in_buf [512]) 16 1 = None)
    by (vm_compute; reflexivity).
  assert (Hg : zbc_get_zone hm_full_dev 16 false = Ok (Some 2))
    by (vm_compute; reflexivity).
  assert (Hz : zone_at hm_full_dev 2 = Ok (hm_full_zone 2))
    by (vm_compute; reflexivity).
  assert (H1 : zbc_zone_seq_req (hm_full_zone 2) = true
               \/ zbc_zone_sobr (hm_full_zone 2) = true)
    by (left; vm_compute; reflexivity).
  assert (H2 : zbc_zone_offline (hm_full_zone 2) = false)
    by (vm_compute; reflexivity).
  assert (H3 : zbc_zone_inactive (hm_full_zone 2) = false)
    by (vm_compute; reflexivity).
  assert (H4 : zbc_zone_seq_req (hm_full_zone 2) = true ->
               wrap64 (16 + 1)
               <= wrap64 (z_start (hm_full_zone 2) + z_len (hm_full_zone 2)))
    by (intros _; vm_compute; discriminate).
  assert (H5 : 16 >= zbc_get_zone_boundary (hm_full_zone 2))
    by (vm_compute; discriminate).
  exact (read_invalid_data hm_full_dev (in_buf [512]) 16 1 2 (hm_full_zone 2)
           Hnz Hwp Hchk Hg Hz H1 H2 H3 H4 (or_introl H5)).
Defined.

(** [fill_iov_loop] stores zeros, as far as there is room. *)
Lemma fill_iov_loop_spec iov : forall len,
  iov_ok iov -> 0 <= len ->
  let n := Z.min len (iov_room iov) in
  exists iov', fill_iov_loop len iov = (n, iov')
    /\ iov_data iov' = iov_data iov ++ repeat 0 (Z.to_nat n)
    /\ iov_ok iov'.
Proof.
  induction iov as [|v r IH]; intros len Hok Hlen n.
  - subst n. simpl. exists []. replace (Z.min len 0) with 0 by lia.
    simpl. auto.
  - simpl in Hok. destruct Hok as (H0 & Hz & Hp).
    assert (Hr : 0 <= iov_room (v :: r)) by (apply iov_ok_room; simpl; auto).
    simpl fill_iov_loop.
    destruct (Z.eqb_spec len 0) as [E|E].
    + subst len n. replace (Z.min 0 (iov_room (v :: r))) with 0 by lia.
      exists (v :: r). simpl. rewrite app_nil_r. auto.
    + destruct (Z.eqb_spec (Z.min (iov_len v) len) 0) as [Hv|Hv].
      * assert (Hv0 : iov_len v = 0) by lia.
        destruct (IH len (Hz Hv0) Hlen) as (r' & E1 & E2 & E3).
        rewrite E1. subst n. simpl iov_room. rewrite Hv0. simpl.
        exists (v :: r'). split; [reflexivity|]. split.
        -- unfold iov_data in *. simpl. rewrite E2, app_assoc. reflexivity.
        -- simpl. rewrite Hv0. split; [lia|]. split; [auto|lia].
      * set (tf := Z.min (iov_len v) len) in *.
        assert (Hvp : 0 < iov_len v) by lia.
        pose proof (Hp Hvp) as Hfr.
        destruct (IH (len - tf) (iov_fresh_ok r Hfr) ltac:(lia))
          as (r' & E1 & E2 & E3).
        rewrite E1. pose proof (iov_fresh_room r Hfr) as Hrr.
        set (n' := Z.min (len - tf) (iov_room r)) in *.
        assert (Hn : n = tf + n') by (subst n n' tf; simpl iov_room; lia).
        rewrite Hn. eexists. split; [reflexivity|]. split.
        -- rewrite Z2Nat.inj_add by (subst n' tf; lia).
           rewrite repeat_app.
           unfold iov_data in *. cbn [map concat iov_base]. rewrite E2.
           change (concat (map iov_base r)) with (iov_data r).
           rewrite (iov_fresh_data r Hfr). rewrite app_nil_l, app_nil_r.
           rewrite <- app_assoc. reflexivity.
        -- simpl. split; [lia|]. split; [auto|].
           intros Hleft. assert (Hd : len - tf = 0) by (subst tf; lia).
           rewrite Hd in E1. destruct r; simpl in E1.
           ++ inversion E1; subst r'. exact Hfr.
           ++ inversion E1; subst r'. exact Hfr.
Qed.

(** X16: with the check of the write pointer disabled, a READ of LBAs
    of one zone that is not offline, all of them at or above the
    boundary of the valid data of the zone (its write pointer, or its
    start when it is empty), ends with OK, stores zeros for all the
    blocks after the bytes that the buffers hold and does not read the
    backing file; the device is as it was. *)
Theorem read_above_boundary_zero_fill (s : zbc_dev) (iov : list iovec)
    (lba len zi : Z) (z : zbc_zone) :
  zbc_mt_nz_t (dev_type (geom s)) = false ->
  wp_check (geom s) = false ->
  zbc_check_rdwr s iov lba len = None ->
  zbc_get_zone s lba false = Ok (Some zi) -> zone_at s zi = Ok z ->
  zbc_zone_offline z = false ->
  0 <= lba_log2 (geom s) -> 0 < len -> 0 <= lba ->
  lba + len <= z_start z + z_len z < 2 ^ 64 ->
  zbc_get_zone_boundary z <= lba ->
  iov_ok iov -> iov_room iov < 2 ^ 64 ->
  len * 2 ^ lba_log2 (geom s) < 2 ^ 64 ->
  exists iov',
    zbc_read s iov lba len = Ok (mk_result TCMU_STS_OK s iov' []) /\
    iov_data iov'
    = iov_data iov ++ repeat 0 (Z.to_nat (len * 2 ^ lba_log2 (geom s))).
Proof.
  intros Hnz Hwp Hchk Hg Hz Hoff Hlog Hlen Hlba Hin Hb Hok Hroom Hbytes.
  assert (Hp2 : 0 < 2 ^ lba_log2 (geom s)) by (apply Z.pow_pos_nonneg; lia).
  assert (Hend : wrap64 (z_start z + z_len z) = z_start z + z_len z)
    by (apply wrap64_small; lia).
  assert (Hsum : wrap64 (lba + len) = lba + len) by (apply wrap64_small; lia).
  assert (Hcnt : zbc_get_zone_lba_count z lba len = len).
  { unfold zbc_get_zone_lba_count. rewrite Hend, Hsum.
    replace (lba + len >? z_start z + z_len z) with false
      by (symmetry; rewrite Z.gtb_ltb; apply Z.ltb_ge; lia).
    reflexivity. }
  assert (Hshift : wrap64 (Z.shiftl len (lba_log2 (geom s)))
                   = len * 2 ^ lba_log2 (geom s)).
  { rewrite Z.shiftl_mul_pow2 by lia. apply wrap64_small. nia. }
  assert (Hrm : iov_room iov = len * 2 ^ lba_log2 (geom s)).
  { unfold zbc_check_rdwr in Hchk.
    destruct (zbc_lba_out_of_range s lba len); [discriminate|].
    destruct (Z.eqb_spec (tcmu_iovec_length iov)
                (wrap64 (Z.shiftl len (lba_log2 (geom s))))) as [E|E];
      [|discriminate].
    rewrite tcmu_iovec_length_room in E
      by (split; [apply iov_ok_room; exact Hok|exact Hroom]).
    rewrite E. exact Hshift. }
  unfold zbc_read, zbc_read_zoned. rewrite Hnz, Hchk. simpl negb. cbv iota.
  assert (Hck : zbc_rdwr_check_zones s true lba len = Ok (TCMU_STS_OK, s)).
  { unfold zbc_rdwr_check_zones. simpl. rewrite Hg. simpl. rewrite Hz. simpl.
    unfold zbc_zone_ok_to_read. rewrite Hwp, Hoff, !andb_false_r. simpl.
    rewrite bool_decide_eq_true_2 by reflexivity. simpl.
    rewrite Hcnt. replace (len - len) with 0 by lia. reflexivity. }
  rewrite Hck. simpl.
  destruct (Z.to_nat len) as [|fuel] eqn:Ef; [lia|].
  simpl read_zoned_loop.
  replace (len =? 0) with false by (symmetry; apply Z.eqb_neq; lia).
  rewrite Hg. simpl. rewrite Hz. simpl.
  replace (lba >=? zbc_get_zone_boundary z) with true
    by (symmetry; rewrite Z.geb_leb; apply Z.leb_le; lia).
  unfold zbc_fill_zone_iov. rewrite Hend.
  assert (Hl0 : (if wrap64 (z_start z + z_len z - lba) >? len then len
                 else wrap64 (z_start z + z_len z - lba)) = len).
  { rewrite wrap64_small by lia.
    destruct (Z.gtb_spec (z_start z + z_len z - lba) len); lia. }
  rewrite Hl0, Hshift.
  destruct (fill_iov_loop_spec iov (len * 2 ^ lba_log2 (geom s)) Hok ltac:(nia))
    as (iov' & Ef' & Hd & _).
  rewrite Hrm, Z.min_id in Ef', Hd. rewrite Ef'. simpl.
  replace (len * 2 ^ lba_log2 (geom s) <=? 0) with false
    by (symmetry; apply Z.leb_gt; nia).
  rewrite Z.shiftr_div_pow2 by lia. rewrite Z.div_mul by lia.
  replace (len - len) with 0 by lia.
  exists iov'. split; [|exact Hd].
  destruct fuel; reflexivity.
Qed.

(** The zones of the device with two realms of sequential zones. *)
Definition zd_swr_zone (i : Z) : zbc_zone :=
  match zone_at zd_swr_dev i with
  | Ok z => z
  | _ => zero_zone
  end.

Lemma read_above_boundary_zero_fill_witness :
  exists iov',
    zbc_read zd_swr_dev (in_buf [512]) 48 1
    = Ok (mk_result TCMU_STS_OK zd_swr_dev iov' []) /\
    iov_data iov' = repeat 0 512.
Proof.
  assert (Hnz : zbc_mt_nz_t (dev_type (geom zd_swr_dev)) = false)
    by (vm_compute; reflexivity).
  assert (Hwp : wp_check (geom zd_swr_dev) = false) by (vm_compute; reflexivity).
  assert (Hchk : zbc_check_rdwr zd_swr_dev (in_buf [512]) 48 1 = None)
    by (vm_compute; reflexivity).
  assert (Hg : zbc_get_zone zd_swr_dev 48 false = Ok (Some 6))
    by (vm_compute; reflexivity).
  assert (Hz : zone_at zd_swr_dev 6 = Ok (zd_swr_zone 6))
    by (vm_compute; reflexivity).
  assert (Hoff : zbc_zone_offline (zd_swr_zone 6) = false)
    by (vm_compute; reflexivity).
  assert (Hin : 48 + 1 <= z_start (zd_swr_zone 6) + z_len (zd_swr_zone 6)
                < 2 ^ 64)
    by (vm_compute; split; [discriminate|reflexivity]).
  assert (Hb : zbc_get_zone_boundary (zd_swr_zone 6) <= 48)
    by (vm_compute; discriminate).
  assert (Hlog : 0 <= lba_log2 (geom zd_swr_dev)) by (vm_compute; discriminate).
  assert (Hok : iov_ok (in_buf [512])).
  { apply iov_fresh_ok, in_buf_fresh. repeat constructor. lia. }
  assert (Hroom : iov_room (in_buf [512]) < 2 ^ 64) by (vm_compute; reflexivity).
  assert (Hbytes : 1 * 2 ^ lba_log2 (geom zd_swr_dev) < 2 ^ 64)
    by (vm_compute; reflexivity).
  destruct (read_above_boundary_zero_fill zd_swr_dev (in_buf [512]) 48 1 6
              (zd_swr_zone 6)
              Hnz Hwp Hchk Hg Hz Hoff Hlog ltac:(lia) ltac:(lia) Hin Hb
              Hok Hroom Hbytes) as (iov' & E & Hd).
  exists iov'. split; [exact E|]. rewrite Hd. vm_compute. reflexivity.
Defined.
